(** * OAuthCredmonWebserver: a shallow embedding of the OAuth credential
      web server and the properties of its session and token handling.

    The embedded module is
    [src/credmon/CredentialMonitors/OAuthCredmonWebserver/OAuthCredmonWebserver.py].
    Its request handlers ([key], [oauth_login], [oauth_return]) are written
    in a state-and-exception monad over a world made of the Flask session,
    the file system and a trace of the observable events (log records, file
    operations, outbound network calls).  The operating system, the ClassAd
    parser, [credmon.utils] and the [requests_oauthlib] session are
    collaborators of the module: they are interfaces here ([Platform],
    [OAuthLib]) and every statement holds for all their implementations,
    unless it names the contract it relies on.  The two well-known
    endpoints ([jwks_uri], [openid_configuration]) touch neither the session
    nor the credential directory; they are computations over what they read
    ([WellKnown]). *)

From Stdlib Require Import Ascii String.
From stdpp Require Import gmap strings list fin_maps pretty.

#[local] Set Warnings "-register-all".
#[local] Open Scope string_scope.
#[local] Open Scope list_scope.

(** ** Python strings

    A Python [str] is held as its UTF-8 encoding, one character of a Rocq
    [string] for each byte, which is also how Rocq reads a string literal.
    Concatenation, comparison, prefix and substring tests, splitting on an
    ASCII separator and replacing an ASCII text act on the encoding as they
    do on the characters; stripping white space has to know the encodings
    of the white space characters that are not ASCII. *)

Module PyStr.

Fixpoint take_while (p : ascii → bool) (s : string) : string :=
  match s with
  | EmptyString => EmptyString
  | String c s' => if p c then String c (take_while p s') else EmptyString
  end.

(** [s.rstrip(chars)]: the trailing characters satisfying [p] are removed. *)
Fixpoint rstrip_by (p : ascii → bool) (s : string) : string :=
  match s with
  | EmptyString => EmptyString
  | String c s' =>
      match rstrip_by p s' with
      | EmptyString => if p c then EmptyString else String c EmptyString
      | r => String c r
      end
  end.

Definition is_space (c : ascii) : bool := bool_decide (c = " "%char).

(** The ASCII white space: TAB, LF, VT, FF, CR, FS, GS, RS, US and the
    space. *)
Definition is_whitespace (c : ascii) : bool :=
  let n := nat_of_ascii c in
  (((9 <=? n) && (n <=? 13)) || ((28 <=? n) && (n <=? 32)))%nat.

(** [whitespace s]: [s] is the encoding of one of the characters that
    [str.strip()] removes when it is given no argument, those for which
    [str.isspace()] holds.  They are the ASCII white space and
    U+0085 (C2 85), U+00A0 (C2 A0), U+1680 (E1 9A 80),
    U+2000 to U+200A (E2 80 80 to E2 80 8A), U+2028 (E2 80 A8),
    U+2029 (E2 80 A9), U+202F (E2 80 AF), U+205F (E2 81 9F) and
    U+3000 (E3 80 80). *)
Definition whitespace (s : string) : bool :=
  match s with
  | String c EmptyString => is_whitespace c
  | String c1 (String c2 EmptyString) =>
      let n1 := nat_of_ascii c1 in
      let n2 := nat_of_ascii c2 in
      ((n1 =? 194) && ((n2 =? 133) || (n2 =? 160)))%nat
  | String c1 (String c2 (String c3 EmptyString)) =>
      let n1 := nat_of_ascii c1 in
      let n2 := nat_of_ascii c2 in
      let n3 := nat_of_ascii c3 in
      (((n1 =? 225) && (n2 =? 154) && (n3 =? 128))
       || ((n1 =? 226) && (n2 =? 128) &&
           (((128 <=? n3) && (n3 <=? 138)) || (n3 =? 168) || (n3 =? 169)
            || (n3 =? 175)))
       || ((n1 =? 226) && (n2 =? 129) && (n3 =? 159))
       || ((n1 =? 227) && (n2 =? 128) && (n3 =? 128)))%nat
  | _ => false
  end.

(** The trailing characters recognised by [ws] are removed: going from the
    end of the string, what is left of it is dropped each time it is the
    encoding of one such character. *)
Fixpoint rstrip_seq (ws : string → bool) (s : string) : string :=
  match s with
  | EmptyString => EmptyString
  | String c s' =>
      let r := rstrip_seq ws s' in
      if ws (String c r) then EmptyString else String c r
  end.

(** The leading characters recognised by [ws] are removed; an encoding
    has one, two or three bytes. *)
Fixpoint lstrip_seq (ws : string → bool) (s : string) : string :=
  match s with
  | EmptyString => EmptyString
  | String c1 s1 =>
      if ws (String c1 EmptyString) then lstrip_seq ws s1
      else match s1 with
           | String c2 s2 =>
               if ws (String c1 (String c2 EmptyString)) then lstrip_seq ws s2
               else match s2 with
                    | String c3 s3 =>
                        if ws (String c1 (String c2 (String c3 EmptyString)))
                        then lstrip_seq ws s3 else s
                    | EmptyString => s
                    end
           | EmptyString => s
           end
  end.

(** [s.rstrip(' ')] *)
Definition rstrip_sp (s : string) : string := rstrip_by is_space s.
(** [s.rstrip()] and [s.lstrip()] *)
Definition rstrip (s : string) : string := rstrip_seq whitespace s.
Definition lstrip (s : string) : string := lstrip_seq whitespace s.

(** [s.split(sep)] for a one-character separator: never the empty list. *)
Fixpoint split (sep : ascii) (s : string) : list string :=
  match s with
  | EmptyString => [EmptyString]
  | String c s' =>
      if bool_decide (c = sep) then EmptyString :: split sep s'
      else match split sep s' with
           | [] => [String c EmptyString]
           | w :: ws => String c w :: ws
           end
  end.

(** [s.startswith(p)] *)
Fixpoint startswith (p s : string) : bool :=
  match p, s with
  | EmptyString, _ => true
  | String a p', String b s' => bool_decide (a = b) && startswith p' s'
  | String _ _, EmptyString => false
  end.

Fixpoint drop (n : nat) (s : string) : string :=
  match n, s with
  | O, _ => s
  | S n', String _ s' => drop n' s'
  | S _, EmptyString => EmptyString
  end.

(** [s.replace(old, new, 1)] for a non-empty [old]: the leftmost
    occurrence is replaced. *)
Fixpoint replace_first (old new s : string) : string :=
  if startswith old s then new +:+ drop (String.length old) s
  else match s with
       | EmptyString => EmptyString
       | String c s' => String c (replace_first old new s')
       end.

(** [s.replace(a, b)] for one-character [a] and [b]. *)
Fixpoint replace_char (a b : ascii) (s : string) : string :=
  match s with
  | EmptyString => EmptyString
  | String c s' =>
      String (if bool_decide (c = a) then b else c) (replace_char a b s')
  end.

(** [sub in s] on two strings. *)
Fixpoint contains (sub s : string) : bool :=
  startswith sub s ||
  match s with
  | EmptyString => false
  | String _ s' => contains sub s'
  end.

Definition is_hex_digit (c : ascii) : bool :=
  let n := nat_of_ascii c in
  (((48 <=? n) && (n <=? 57)) || ((65 <=? n) && (n <=? 70))
   || ((97 <=? n) && (n <=? 102)))%nat.

(** [re.match("[0-9a-fA-F]+", s)]: the match object (here the matched
    text) or [None].  [re.match] anchors the pattern at the start of the
    string only; the greedy [+] then takes the longest run of hexadecimal
    digits found there. *)
Definition re_match_hex (s : string) : option string :=
  match take_while is_hex_digit s with
  | EmptyString => None
  | m => Some m
  end.

Fixpoint last_char (s : string) : option ascii :=
  match s with
  | EmptyString => None
  | String c EmptyString => Some c
  | String _ s' => last_char s'
  end.

(** [os.path.join(a, b)] on POSIX paths: an absolute [b] replaces [a];
    otherwise a separator is added unless [a] is empty or ends in one. *)
Definition path_join (a b : string) : string :=
  if startswith "/" b then b
  else match last_char a with
       | None => b
       | Some c => if bool_decide (c = "/"%char) then a +:+ b
                   else a +:+ "/" +:+ b
       end.

End PyStr.

Import PyStr.

(** The line feed, ['\n']. *)
Definition nl : string := String (ascii_of_nat 10) EmptyString.

(** ** Exceptions

    The classes the module raises or catches by name, and the classes its
    dependencies define, each with the class it derives from (for instance
    oauthlib's [MismatchingStateError] derives from [Exception], json's
    [JSONDecodeError] from [ValueError], requests' [ConnectionError] from
    [OSError]).  [IOError] is [OSError]. *)

Inductive exn_class :=
| Exception_
| KeyError
| ValueError
| TypeError
| AttributeError
| OSError
| UnboundLocalError
| LibraryError (name : string) (base : exn_class).

Abbreviation IOError := OSError (only parsing).

(** [oauthlib.oauth2.rfc6749.errors.MismatchingStateError] *)
Definition MismatchingStateError : exn_class :=
  LibraryError "MismatchingStateError" Exception_.

#[global] Instance exn_class_eq_dec : EqDecision exn_class.
Proof. solve_decision. Defined.

Record exn := Exn { exn_cls : exn_class; exn_msg : string }.

#[global] Instance exn_eq_dec : EqDecision exn.
Proof. solve_decision. Defined.

(** [isinstance(e, handler)]: what an [except handler] clause catches. *)
Fixpoint subclass (c handler : exn_class) : bool :=
  bool_decide (c = handler) ||
  match c with
  | LibraryError _ base => subclass base handler
  | _ => bool_decide (handler = Exception_)
  end.

Definition isinstance (e : exn) (handler : exn_class) : bool :=
  subclass (exn_cls e) handler.

(** ** JSON values

    A number is [m * 10^e], which covers every JSON number literal. *)

Inductive json :=
| JNull
| JBool (b : bool)
| JNum (m e : Z)
| JStr (s : string)
| JArr (l : list json)
| JObj (o : gmap string json).

(** [k in v] for a string [k]: key membership on a dict, element membership
    on a list, substring test on a string, [TypeError] otherwise. *)
Definition py_in (k : string) (v : json) : exn + bool :=
  match v with
  | JObj o => inr (bool_decide (is_Some (o !! k)))
  | JArr l =>
      inr (existsb (λ x, match x with
                         | JStr s => bool_decide (s = k)
                         | _ => false
                         end) l)
  | JStr s => inr (contains k s)
  | _ => inl (Exn TypeError "argument is not iterable")
  end.

(** [v[k]] for a string [k]. *)
Definition py_getitem (v : json) (k : string) : exn + json :=
  match v with
  | JObj o => match o !! k with
              | Some x => inr x
              | None => inl (Exn KeyError k)
              end
  | _ => inl (Exn TypeError "indices must be integers")
  end.

(** ** Data model *)

(** One ClassAd of the key file: attribute name to (string) value. *)
Abbreviation ClassAd := (gmap string string) (only parsing).

(** [session['providers'][provider]]: the keys ['logged_in'],
    ['requested_scopes'], ['requested_resource'], ['state'], ['username'].
    [key] always sets ['logged_in']; the others are set on demand. *)
Record ProviderSession := {
  p_logged_in : bool;
  requested_scopes : option (list string);
  requested_resource : option string;
  state : option string;
  username : option json
}.

(** The Flask session, a dict in which every key may be absent. *)
Record Session := {
  providers : option (gmap string ProviderSession);
  logged_in : option bool;
  key_path : option string;
  local_username : option string;
  outgoing_provider : option string
}.

Definition empty_session : Session :=
  {| providers := None; logged_in := None; key_path := None;
     local_username := None; outgoing_provider := None |}.

Definition set_providers (v : gmap string ProviderSession) (s : Session) :=
  {| providers := Some v; logged_in := logged_in s; key_path := key_path s;
     local_username := local_username s;
     outgoing_provider := outgoing_provider s |}.
Definition set_logged_in (v : bool) (s : Session) :=
  {| providers := providers s; logged_in := Some v; key_path := key_path s;
     local_username := local_username s;
     outgoing_provider := outgoing_provider s |}.
Definition set_key_path (v : string) (s : Session) :=
  {| providers := providers s; logged_in := logged_in s; key_path := Some v;
     local_username := local_username s;
     outgoing_provider := outgoing_provider s |}.
Definition set_local_username (v : string) (s : Session) :=
  {| providers := providers s; logged_in := logged_in s;
     key_path := key_path s; local_username := Some v;
     outgoing_provider := outgoing_provider s |}.
Definition set_outgoing_provider (v : option string) (s : Session) :=
  {| providers := providers s; logged_in := logged_in s;
     key_path := key_path s; local_username := local_username s;
     outgoing_provider := v |}.

Definition set_p_logged_in (v : bool) (p : ProviderSession) :=
  {| p_logged_in := v; requested_scopes := requested_scopes p;
     requested_resource := requested_resource p; state := state p;
     username := username p |}.
Definition set_state (v : string) (p : ProviderSession) :=
  {| p_logged_in := p_logged_in p; requested_scopes := requested_scopes p;
     requested_resource := requested_resource p; state := Some v;
     username := username p |}.
Definition set_username (v : json) (p : ProviderSession) :=
  {| p_logged_in := p_logged_in p; requested_scopes := requested_scopes p;
     requested_resource := requested_resource p; state := state p;
     username := Some v |}.

(** What a handler returns to Flask. *)
Inductive Response :=
| render_template (name : string)
| redirect (location : string).

(** ** Observable events *)

Inductive LogLevel := Debug | Warning.

Inductive FileOp :=
| FExists (path : string)                  (* os.path.exists *)
| FIsdir (path : string)                   (* os.path.isdir *)
| FOpenAds (path : string)                 (* open + classad.parseAds *)
| FMakedirs (path : string)                (* os.makedirs *)
| FMkstemp (dir : string)                  (* tempfile.mkstemp *)
| FDump (content : json) (path : string)   (* os.fdopen + json.dump *)
| FRename (src dst : string).              (* credmon.utils.atomic_rename *)

Record NetCall := { net_method : string; net_url : string }.

(** A file operation is recorded with the exception it ended in, if any. *)
Inductive Event :=
| EvLog (level : LogLevel) (msg : string)
| EvFile (op : FileOp) (err : option exn)
| EvNet (call : NetCall).

Definition is_file_event (ev : Event) : bool :=
  match ev with EvFile _ _ => true | _ => false end.
Definition is_net_event (ev : Event) : bool :=
  match ev with EvNet _ => true | _ => false end.

(** ** Collaborators *)

(** The operating system, the ClassAd parser and [credmon.utils], over a
    file-system state [FS].  [open_parseAds] gives the ClassAds the parser
    yields before it stops, and the exception it stops with when the rest of
    the file does not parse (the parser is lazy: a reader that leaves the
    loop early never meets that exception). *)
Class Platform := {
  FS : Type;
  get_cred_dir : exn + string;
  path_exists : string → FS → bool;
  path_isdir : string → FS → bool;
  open_parseAds : string → FS → exn + (list ClassAd * option exn);
  makedirs : string → FS → (exn + unit) * FS;
  mkstemp : string → FS → (exn + string) * FS;
  json_dump : json → string → FS → (exn + unit) * FS;
  atomic_rename : string → string → FS → (exn + unit) * FS
}.

(** [requests_oauthlib.OAuth2Session].  Each operation is a function of the
    session's constructor arguments and of its own; the two that may talk to
    the provider also report the network calls they made.  [url_state] is
    the [state] query parameter the library reads off a callback URL. *)
Class OAuthLib := {
  authorization_url :
    ∀ (client_id redirect_uri : string) (scope : option (list string))
      (url : string) (resource : option string), exn + (string * string);
  fetch_token :
    ∀ (client_id state redirect_uri token_url authorization_response
       client_secret : string), list NetCall * (exn + gmap string json);
  oauth_get :
    ∀ (client_id : string) (token : gmap string json) (url : string),
      list NetCall * (exn + (exn + json));
  url_state : string → option string
}.

(** ** The handler monad

    A handler runs on a world: the Flask session, the file system and the
    trace of events so far.  It ends in a value or in an exception, and the
    world it has reached is kept in both cases (a Python exception does not
    undo the mutations made before it). *)

Record World `{Platform} := {
  session : Session;
  filesystem : FS;
  trace : list Event
}.

Definition M `{Platform} (A : Type) : Type := World → (exn + A) * World.

Section Monad.
Context `{Platform}.

Definition ret {A} (a : A) : M A := λ w, (inr a, w).

Definition raise {A} (e : exn) : M A := λ w, (inl e, w).

Definition bind {A B} (m : M A) (k : A → M B) : M B :=
  λ w, match m w with
       | (inl e, w') => (inl e, w')
       | (inr a, w') => k a w'
       end.

(** [try: body except cls as e: handler e] *)
Definition try_except {A} (body : M A) (cls : exn_class)
    (handler : exn → M A) : M A :=
  λ w, match body w with
       | (inl e, w') =>
           if isinstance e cls then handler e w' else (inl e, w')
       | (inr a, w') => (inr a, w')
       end.

Definition emit (evs : list Event) : M unit :=
  λ w, (inr (),
        {| session := session w; filesystem := filesystem w;
           trace := trace w ++ evs |}).

Definition get_session : M Session := λ w, (inr (session w), w).

Definition modify_session (f : Session → Session) : M unit :=
  λ w, (inr (),
        {| session := f (session w); filesystem := filesystem w;
           trace := trace w |}).

(** A pure computation that may raise. *)
Definition lift {A} (r : exn + A) : M A :=
  match r with inl e => raise e | inr a => ret a end.

(** [d[k]] on a dict whose lookup gave [o]. *)
Definition getitem {A} (k : string) (o : option A) : M A :=
  match o with Some a => ret a | None => raise (Exn KeyError k) end.

(** A file operation: it is run on the file system and recorded. *)
Definition file_op {A} (op : FileOp) (f : FS → (exn + A) * FS) : M A :=
  λ w, let '(r, fs') := f (filesystem w) in
       (r, {| session := session w; filesystem := fs';
              trace := trace w ++
                [EvFile op (match r with inl e => Some e | inr _ => None end)]
            |}).

(** A call into the OAuth library that reports its network calls. *)
Definition net_op {A} (r : list NetCall * (exn + A)) : M A :=
  λ w, (r.2, {| session := session w; filesystem := filesystem w;
                trace := trace w ++ (EvNet <$> r.1) |}).

End Monad.

(** The handlers are written with the monadic notations of stdpp:
    [x ← m; k] and [m;; k]. *)
#[global] Instance M_ret `{Platform} : MRet M := @ret _.
#[global] Instance M_bind `{Platform} : MBind M := λ A B k m, bind m k.

(** ** The module *)

Section Webserver.
Context `{Platform, OAuthLib}.

(** ['{0}'.format(session)], used in one log message only. *)
Variable format_session : Session → string.

(** *** LoggerWriter (lines 21-37)

    [write] is handed whatever the caller passes: a string, or (in
    [oauth_return]) an exception object. *)

Inductive pyval :=
| PStr (s : string)
| PExn (e : exn).

Record LoggerWriter := { level : LogLevel }.

(** [message != '\n'] holds for every object that is not that string;
    [message.rstrip()] exists on strings only. *)
Definition write (self : LoggerWriter) (message : pyval) : M unit :=
  match message with
  | PStr s =>
      if bool_decide (s ≠ nl) then emit [EvLog (level self) (rstrip s)]
      else ret ()
  | PExn e =>
      raise (Exn AttributeError "object has no attribute 'rstrip'")
  end.

Definition sys_stdout : LoggerWriter := {| level := Debug |}.
Definition sys_stderr : LoggerWriter := {| level := Warning |}.

(** [print(s)]: the text, then the line end, both through [sys.stdout]. *)
Definition print (s : string) : M unit :=
  write sys_stdout (PStr s);;
  write sys_stdout (PStr nl).

(** *** get_provider_str (lines 45-46) *)

Definition get_provider_str (provider handle : string) : string :=
  rstrip_sp (provider +:+ " " +:+ handle).

(** *** The file system and the session as the handlers reach them *)

Definition os_path_exists (path : string) : M bool :=
  file_op (FExists path) (λ fs, (inr (path_exists path fs), fs)).
Definition os_path_isdir (path : string) : M bool :=
  file_op (FIsdir path) (λ fs, (inr (path_isdir path fs), fs)).
Definition classad_parseAds (path : string)
    : M (list ClassAd * option exn) :=
  file_op (FOpenAds path) (λ fs, (open_parseAds path fs, fs)).
Definition os_makedirs (path : string) : M unit :=
  file_op (FMakedirs path) (makedirs path).
Definition tempfile_mkstemp (dir : string) : M string :=
  file_op (FMkstemp dir) (mkstemp dir).
Definition json_dump_to (content : json) (path : string) : M unit :=
  file_op (FDump content path) (json_dump content path).
Definition utils_atomic_rename (src dst : string) : M unit :=
  file_op (FRename src dst) (atomic_rename src dst).

(** [session[k]] *)
Definition session_get {A} (k : string) (field : Session → option A)
    : M A :=
  s ← get_session; getitem k (field s).

(** [session['providers'][provider]] *)
Definition session_provider (provider : string) : M ProviderSession :=
  provs ← session_get "providers" providers;
  getitem provider (provs !! provider).

(** [session['providers'][provider][k] = v], as the update [f]. *)
Definition update_provider (provider : string)
    (f : ProviderSession → ProviderSession) : M unit :=
  provs ← session_get "providers" providers;
  p ← getitem provider (provs !! provider);
  modify_session (set_providers (<[provider := f p]> provs)).

(** *** get_provider_ad (lines 48-69) *)

(** The [for ... else] loop over the parsed ClassAds. *)
Fixpoint find_provider_ad (provider key_path : string)
    (ads : list ClassAd) (rest : option exn) : M ClassAd :=
  match ads with
  | [] =>
      match rest with
      | Some e => raise e
      | None =>
          raise (Exn Exception_ ("Provider " +:+ provider +:+
                                 " not in key file " +:+ key_path))
      end
  | ad :: ads' =>
      p ← getitem "Provider" (ad !! "Provider");
      let ad_provider := get_provider_str p (default "" (ad !! "Handle")) in
      if bool_decide (ad_provider = provider) then ret ad
      else find_provider_ad provider key_path ads' rest
  end.

Definition get_provider_ad (provider key_path : string) : M ClassAd :=
  found ← os_path_exists key_path;
  if negb found then
    raise (Exn Exception_ ("Key file " +:+ key_path +:+ " doesn't exist"))
  else
    try_except
      ('(ads, rest) ← classad_parseAds key_path;
       find_provider_ad provider key_path ads rest)
      IOError
      (λ ie, print ("Failed to open key file " +:+ key_path +:+ ": " +:+
                    exn_msg ie);;
             raise ie).

(** *** key (lines 140-177) *)

(** [[s.rstrip().lstrip() for s in scopes.split(',')]] *)
Definition split_scopes (scopes : string) : list string :=
  (λ s, lstrip (rstrip s)) <$> split "," scopes.

(** What the body of the loop stores under the provider's name. *)
Definition new_provider_session (provider_ad : ClassAd) : ProviderSession :=
  {| p_logged_in := false;
     requested_scopes := split_scopes <$> provider_ad !! "Scopes";
     requested_resource := provider_ad !! "Audience";
     state := None;
     username := None |}.

(** The loop over the ClassAds of the key file (lines 163-170). *)
Fixpoint key_loop (ads : list ClassAd)
    (provs : gmap string ProviderSession)
    : exn + gmap string ProviderSession :=
  match ads with
  | [] => inr provs
  | provider_ad :: ads' =>
      match provider_ad !! "Provider" with
      | None => inl (Exn KeyError "Provider")
      | Some p =>
          let provider :=
            get_provider_str p (default "" (provider_ad !! "Handle")) in
          key_loop ads' (<[provider := new_provider_session provider_ad]> provs)
      end
  end.

(** The handler builds [session_dict] and binds it to the name [session],
    which is local to the function; the record is returned here with the
    response so that it can be spoken of. *)
Definition key (key_id : string) : M (Session * Response) :=
  (if re_match_hex key_id is None then
     raise (Exn Exception_ ("Key id " +:+ key_id +:+ " is not a valid key"))
   else ret ());;
  cred_dir ← lift get_cred_dir;
  let key_path := path_join cred_dir key_id in
  found ← os_path_exists key_path;
  (if negb found then
     raise (Exn Exception_ ("Key file " +:+ key_path +:+ " doesn't exist"))
   else ret ());;
  let session_dict := set_logged_in false (set_providers ∅ empty_session) in
  print ("Creating new session from " +:+ key_path);;
  '(ads, rest) ← classad_parseAds key_path;
  let session_dict := set_key_path key_path session_dict in
  provs ← lift (key_loop ads ∅);
  let session_dict := set_providers provs session_dict in
  (if rest is Some e then raise e else ret ());;
  provider_ad ← (if last ads is Some ad then ret ad
                 else raise (Exn UnboundLocalError "provider_ad"));
  local_user ← getitem "LocalUser" (provider_ad !! "LocalUser");
  let session_dict := set_local_username local_user session_dict in
  print ("New session started for user " +:+ local_user);;
  ret (session_dict, render_template "index.html").

(** *** oauth_login (lines 179-227) *)

Definition oauth_login (provider : string) : M Response :=
  try_except
    (provs ← session_get "providers" providers;
     if bool_decide (provs !! provider = None) then
       raise (Exn Exception_ ("Provider " +:+ provider +:+
                              " not in list of providers"))
     else ret ())
    KeyError
    (λ e, s ← get_session;
          write sys_stderr
            (PStr ("Problem with session dict: " +:+ format_session s +:+ nl));;
          raise e);;
  key_path ← session_get "key_path" key_path;
  provider_ad ← get_provider_ad provider key_path;
  (* gather information from the key file classad *)
  client_id ← getitem "ClientId" (provider_ad !! "ClientId");
  redirect_uri ← getitem "ReturnUrl" (provider_ad !! "ReturnUrl");
  let scope := split_scopes <$> provider_ad !! "Scopes" in
  url ← getitem "AuthorizationUrl" (provider_ad !! "AuthorizationUrl");
  let resource := provider_ad !! "Audience" in
  (* make the auth request and get the authorization url *)
  '(auth_url, st) ←
    lift (authorization_url client_id redirect_uri scope url resource);
  (* state is used to prevent CSRF, keep this for later *)
  providers_dict ← session_get "providers" providers;
  p ← getitem provider (providers_dict !! provider);
  modify_session (set_providers (<[provider := set_state st p]> providers_dict));;
  (* store the provider name since it could be different than the
     provider argument to oauth_return() *)
  modify_session (set_outgoing_provider (Some provider));;
  ret (redirect auth_url).

(** *** oauth_return (lines 229-341) *)

(** [session.pop('outgoing_provider', get_provider_str(provider, ''))]
    (line 236): the name the handler goes on with. *)
Definition resolve_provider (s : Session) (provider : string) : string :=
  default (get_provider_str provider "") (outgoing_provider s).

(** Lines 248-252: convert http url to https if needed. *)
Definition updated_url (request_url : string) : string :=
  if startswith "http://" request_url then
    replace_first "http://" "https://" request_url
  else request_url.

(** Lines 263-275: get user info if available.  [except ValueError]
    guards the whole block, the lookup of ['UserUrl'] included. *)
Definition get_user_info (provider : string) (provider_ad : ClassAd)
    (client_id : string) (token : gmap string json) : M unit :=
  try_except
    (user_url ← getitem "UserUrl" (provider_ad !! "UserUrl");
     response ← net_op (oauth_get client_id token user_url);
     user_info ← lift response;
     has_login ← lift (py_in "login" user_info);
     if has_login : bool then
       v ← lift (py_getitem user_info "login");
       update_provider provider (set_username v)
     else
       has_sub ← lift (py_in "sub" user_info);
       if has_sub : bool then
         v ← lift (py_getitem user_info "sub");
         update_provider provider (set_username v)
       else
         update_provider provider (set_username (JStr "Unknown")))
    ValueError
    (λ _, update_provider provider (set_username (JStr "Unknown"))).

(** Lines 277-296: split off the refresh token from the access token if
    it exists, and build the metadata.  The result is the token as it is
    dumped to the access file, the refresh dict and the metadata dict. *)
Definition split_refresh_token
    (client_id client_secret token_url : string) (token : gmap string json)
    : gmap string json * gmap string json * gmap string json :=
  let '(tok, refresh_token_string, use_refresh_token) :=
    match token !! "refresh_token" with
    | Some v => (delete "refresh_token" token, v, true)
    | None => (token, JStr "", false)
    end in
  let refresh_token : gmap string json :=
    {[ "refresh_token" := refresh_token_string ]} in
  let metadata : gmap string json :=
    <[ "client_id" := JStr client_id ]>
    (<[ "client_secret" := JStr client_secret ]>
    (<[ "token_url" := JStr token_url ]>
    {[ "use_refresh_token" := JBool use_refresh_token ]})) in
  (tok, refresh_token, metadata).

(** Lines 337-339: the loop that checks if other providers are logged
    in; it starts from the session in which line 336 has set the flag. *)
Definition check_other_providers (provs : gmap string ProviderSession)
    (s : Session) : Session :=
  map_fold (λ _ p s', if bool_decide (p_logged_in p = false)
                      then set_logged_in false s' else s')
           s provs.

Definition oauth_return (provider request_url : string) : M Response :=
  (* get the provider name from the outgoing_provider set in oauth_login() *)
  s ← get_session;
  let provider := resolve_provider s provider in
  modify_session (set_outgoing_provider None);;
  provs ← session_get "providers" providers;
  (if bool_decide (provs !! provider = None) then
     raise (Exn Exception_ ("Provider " +:+ provider +:+
                            " not in list of providers"))
   else ret ());;
  key_path ← session_get "key_path" key_path;
  provider_ad ← get_provider_ad provider key_path;
  (* gather information from the key file classad *)
  client_id ← getitem "ClientId" (provider_ad !! "ClientId");
  redirect_uri ← getitem "ReturnUrl" (provider_ad !! "ReturnUrl");
  p ← session_provider provider;
  st ← getitem "state" (state p);
  (* convert http url to https if needed *)
  let updated := updated_url request_url in
  (* fetch token *)
  client_secret ← getitem "ClientSecret" (provider_ad !! "ClientSecret");
  token_url ← getitem "TokenUrl" (provider_ad !! "TokenUrl");
  token ← net_op (fetch_token client_id st redirect_uri token_url updated
                              client_secret);
  local_user ← session_get "local_username" local_username;
  print ("Got " +:+ provider +:+ " token for user " +:+ local_user);;
  (* get user info if available *)
  get_user_info provider provider_ad client_id token;;
  (* split off the refresh token from the access token if it exists *)
  let '(tok, refresh_token, metadata) :=
    split_refresh_token client_id client_secret token_url token in
  (* atomically write the tokens to the cred dir *)
  cred_dir ← lift get_cred_dir;
  local_user ← session_get "local_username" local_username;
  let user_cred_dir := path_join cred_dir local_user in
  is_dir ← os_path_isdir user_cred_dir;
  (if negb is_dir then os_makedirs user_cred_dir else ret ());;
  let base := replace_char " " "_" provider in
  let refresh_token_path := path_join user_cred_dir (base +:+ ".top") in
  let access_token_path := path_join user_cred_dir (base +:+ ".use") in
  let metadata_path := path_join user_cred_dir (base +:+ ".meta") in
  (* write tokens to tmp files *)
  tmp_access_token_path ←
    try_except (tempfile_mkstemp user_cred_dir) OSError
      (λ oe, print ("Failed to create temporary file in the user " +:+
                    "credential directory: " +:+ exn_msg oe);;
             raise oe);
  json_dump_to (JObj tok) tmp_access_token_path;;
  tmp_refresh_token_path ← tempfile_mkstemp user_cred_dir;
  json_dump_to (JObj refresh_token) tmp_refresh_token_path;;
  tmp_metadata_path ← tempfile_mkstemp user_cred_dir;
  json_dump_to (JObj metadata) tmp_metadata_path;;
  (* (over)write token files *)
  try_except
    (utils_atomic_rename tmp_access_token_path access_token_path;;
     utils_atomic_rename tmp_refresh_token_path refresh_token_path;;
     utils_atomic_rename tmp_metadata_path metadata_path)
    OSError
    (λ e, write sys_stderr (PExn e));;
  (* mark provider as logged in *)
  update_provider provider (set_p_logged_in true);;
  (* check if other providers are logged in *)
  modify_session (set_logged_in true);;
  provs ← session_get "providers" providers;
  modify_session (check_other_providers provs);;
  ret (redirect "/").

End Webserver.

(** ** The rest of the module *)

(** [LoggerWriter.flush] (lines 32-33) *)
Definition flush `{Platform} (self : LoggerWriter) : M unit := ret ().

(** [before_request] (lines 72-77): the hook returns [None], which lets the
    request go on to its handler. *)
Definition before_request `{Platform} : M (option Response) := ret None.

(** [index] (lines 136-138) *)
Definition index `{Platform} : M Response := ret (render_template "index.html").

(** What the two well-known endpoints read: the HTCondor configuration, the
    public key file, [scitokens.utils.string_from_long] and Flask's
    [url_for].  [read_public_numbers path] stands for lines 93-99: the file
    is opened and read, the PEM key loaded and its [public_numbers()] taken;
    the result is the integer attributes of that object by name ([x] and
    [y] for an elliptic-curve key, [n] and [e] for an RSA key), or the
    exception raised on the way.  [decode_utf8] is the [decode('utf-8')] method
    of the configured key id. *)
Class WellKnown := {
  htcondor_param : gmap string string;
  read_public_numbers : string → exn + gmap string Z;
  string_from_long : Z → string;
  decode_utf8 : string → exn + string;
  url_for : string → exn + string
}.

(** These endpoints touch neither the session nor the credential
    directory: they are computations that end in a JSON document or in an
    exception. *)
#[global] Instance exn_ret : MRet (sum exn) := λ A, inr.
#[global] Instance exn_bind : MBind (sum exn) :=
  λ A B k m, match m with inl e => inl e | inr a => k a end.

(** [o.name] on the public numbers. *)
Definition getattr (o : gmap string Z) (name : string) : exn + Z :=
  match o !! name with
  | Some v => inr v
  | None =>
      inl (Exn AttributeError ("object has no attribute '" +:+ name +:+ "'"))
  end.

(** [jwks_uri] (lines 87-128).  The entries of each dict display are
    evaluated in the order they are written. *)
Definition jwks_uri `{WellKnown} : exn + json :=
  let public_keyfile :=
    default "/etc/condor/scitokens.pem"
            (htcondor_param !! "LOCAL_CREDMON_PUBLIC_KEY") in
  let kid := default "local" (htcondor_param !! "LOCAL_CREDMON_KEY_ID") in
  public_numbers ← read_public_numbers public_keyfile;
  jwk ←
    (* This is a elliptic curve... *)
    (if bool_decide (is_Some (public_numbers !! "x")) then
       x ← getattr public_numbers "x";
       y ← getattr public_numbers "y";
       kid' ← decode_utf8 kid;
       mret (<["crv" := JStr "P-256"]>
            (<["x" := JStr (string_from_long x)]>
            (<["y" := JStr (string_from_long y)]>
            (<["kty" := JStr "EC"]>
            (<["use" := JStr "sig"]>
            ({["kid" := JStr kid']} : gmap string json))))))
     else
       n ← getattr public_numbers "n";
       e ← getattr public_numbers "e";
       kid' ← decode_utf8 kid;
       mret (<["alg" := JStr "RS256"]>
            (<["n" := JStr (string_from_long n)]>
            (<["e" := JStr (string_from_long e)]>
            (<["kty" := JStr "RSA"]>
            (<["use" := JStr "sig"]>
            ({["kid" := JStr kid']} : gmap string json)))))));
  mret (JObj {["keys" := JArr [JObj jwk]]}).

(** [openid_configuration] (lines 130-134) *)
Definition openid_configuration `{WellKnown} : exn + json :=
  issuer ← url_for "index";
  jwks ← url_for "jwks_uri";
  mret (JObj (<["issuer" := JStr issuer]> {["jwks_uri" := JStr jwks]})).

(** ** A concrete world

    A small file system and a simulated OAuth provider, on which the
    handlers run by computation.  The main scenario is the one of a key file
    with the two providers [github] and [box]. *)

Module Demo.

Inductive File :=
| KeyFile (ads : list ClassAd)
| JsonFile (content : json)
| TmpFile
| Dir.

(** A rename fails when its source is missing or its target is a
    directory; temporary files are numbered by the size of the map. *)
#[export] Instance platform : Platform := {|
  FS := gmap string File;
  get_cred_dir := inr "/cred";
  path_exists p fs := bool_decide (is_Some (fs !! p));
  path_isdir p fs := if fs !! p is Some Dir then true else false;
  open_parseAds p fs :=
    match fs !! p with
    | Some (KeyFile ads) => inr (ads, None)
    | _ => inl (Exn IOError "cannot open")
    end;
  makedirs p fs := (inr (), <[p := Dir]> fs);
  mkstemp d fs :=
    let p := path_join d ("tmp" +:+ pretty (size fs)) in
    (inr p, <[p := TmpFile]> fs);
  json_dump content p fs := (inr (), <[p := JsonFile content]> fs);
  atomic_rename src dst fs :=
    match fs !! src, fs !! dst with
    | None, _ => (inl (Exn OSError "No such file or directory"), fs)
    | _, Some Dir => (inl (Exn OSError "Is a directory"), fs)
    | Some f, _ => (inr (), <[dst := f]> (delete src fs))
    end
|}.

(** The text that follows the first ["state="] in a URL, up to the next
    ['&']. *)
Fixpoint state_param (u : string) : option string :=
  if startswith "state=" u then
    Some (take_while (λ c, bool_decide (c ≠ "&"%char)) (drop 6 u))
  else match u with
       | EmptyString => None
       | String _ u' => state_param u'
       end.

Definition mismatching_state : exn :=
  Exn MismatchingStateError "CSRF Warning!".

Definition JSONDecodeError : exn :=
  Exn (LibraryError "JSONDecodeError" ValueError) "Expecting value".

Definition ConnectionError : exn :=
  Exn (LibraryError "ConnectionError" OSError) "Connection refused".

(** The provider issues a refresh token to the client [github-id] only.
    Its identity endpoint answers a JSON object to that client, is out of
    reach for the client [gdrive-id], and answers a page that is not JSON
    to the others. *)
#[export] Instance oauthlib : OAuthLib := {|
  authorization_url cid ruri scope url resource :=
    inr (url +:+ "?client_id=" +:+ cid +:+ "&state=st-" +:+ cid,
         "st-" +:+ cid);
  fetch_token cid st ruri turl resp secret :=
    if bool_decide (state_param resp = Some st) then
      ([{| net_method := "POST"; net_url := turl |}],
       inr (if bool_decide (cid = "github-id")
            then <["access_token" := JStr "a1"]>
                 {["refresh_token" := JStr "r1"]}
            else {["access_token" := JStr "b1"]}))
    else ([], inl mismatching_state);
  oauth_get cid token url :=
    if bool_decide (cid = "gdrive-id") then ([], inl ConnectionError)
    else
      ([{| net_method := "GET"; net_url := url |}],
       inr (if bool_decide (cid = "github-id")
            then inr (JObj {["login" := JStr "alice"]})
            else inl JSONDecodeError));
  url_state := state_param
|}.

Definition ad (name handle : string) : ClassAd :=
  list_to_map
    ((if bool_decide (handle = "") then [] else [("Handle", handle)]) ++
     [("Provider", name); ("ClientId", name +:+ "-id");
      ("ClientSecret", name +:+ "-secret");
      ("AuthorizationUrl", "https://" +:+ name +:+ "/authorize");
      ("TokenUrl", "https://" +:+ name +:+ "/token");
      ("ReturnUrl", "https://credmon/return/" +:+ name);
      ("UserUrl", "https://" +:+ name +:+ "/user");
      ("LocalUser", "alice")]).

(** The key files: the main one; one whose records are special ([gdrive],
    a record without [UserUrl], a record with a handle); one with two
    distinct [(Provider, Handle)] pairs of the same name; one whose
    records disagree on [LocalUser]. *)
Definition key_file : list ClassAd := [ad "github" ""; ad "box" ""].

Definition key_file_beef : list ClassAd :=
  [ad "gdrive" ""; delete "UserUrl" (ad "nouser" ""); ad "box" "h1"].

Definition key_file_c0de : list ClassAd := [ad "a b" ""; ad "a" "b"].

Definition key_file_d1ff : list ClassAd :=
  [<["LocalUser" := "bob"]> (ad "github" ""); ad "box" ""].

Definition fs0 : gmap string File :=
  list_to_map [("/cred/abc123", KeyFile key_file);
               ("/cred/beef", KeyFile key_file_beef);
               ("/cred/c0de", KeyFile key_file_c0de);
               ("/cred/d1ff", KeyFile key_file_d1ff)].

(** The refresh-token file of [github] is taken by a directory: the second
    rename of a [github] login fails. *)
Definition fs_blocked : gmap string File :=
  <["/cred/alice" := Dir]> (<["/cred/alice/github.top" := Dir]> fs0).

Definition world (s : Session) (fs : gmap string File) : World :=
  {| session := s; filesystem := fs; trace := [] |}.

Definition fmt (_ : Session) : string := "<session>".

(** A provider for which [oauth_login] has stored the state [st]. *)
Definition logged_out (st : string) : ProviderSession :=
  {| p_logged_in := false; requested_scopes := None;
     requested_resource := None; state := Some st; username := None |}.

Definition providers_abc : gmap string ProviderSession :=
  <["github" := logged_out "st-github-id"]>
  {["box" := logged_out "st-box-id"]}.

Definition providers_beef : gmap string ProviderSession :=
  <["gdrive" := logged_out "st-gdrive-id"]>
  (<["nouser" := logged_out "st-nouser-id"]>
  {["box h1" := logged_out "st-box-id"]}).

Definition session_abc (in_flight : option string) : Session :=
  {| providers := Some providers_abc; logged_in := Some false;
     key_path := Some "/cred/abc123"; local_username := Some "alice";
     outgoing_provider := in_flight |}.

Definition session_beef (in_flight : option string) : Session :=
  {| providers := Some providers_beef; logged_in := Some false;
     key_path := Some "/cred/beef"; local_username := Some "alice";
     outgoing_provider := in_flight |}.

(** The callback URL that echoes the state [st]. *)
Definition callback (st : string) : string :=
  "http://credmon/return?code=c0de&state=" +:+ st.

(** The main scenario: the login for [github] was begun, and the callback
    comes back on the path of [box] with the right state. *)
Definition github_returns : (exn + Response) * World :=
  oauth_return "box" (callback "st-github-id")
    (world (session_abc (Some "github")) fs0).

(** The same callback when the refresh-token file cannot be replaced. *)
Definition github_blocked : (exn + Response) * World :=
  oauth_return "box" (callback "st-github-id")
    (world (session_abc (Some "github")) fs_blocked).

Definition blocked_rename : Event :=
  EvFile (FRename "/cred/alice/tmp7" "/cred/alice/github.top")
         (Some (Exn OSError "Is a directory")).

(** The callback of [box], after that of [github] succeeded. *)
Definition box_returns : (exn + Response) * World :=
  oauth_return "box" (callback "st-box-id")
    {| session := set_outgoing_provider (Some "box") (session github_returns.2);
       filesystem := filesystem github_returns.2; trace := [] |}.

End Demo.

(** A configuration with an elliptic-curve key under the default path, an
    RSA key under [/etc/condor/rsa.pem] and a DSA key, whose public numbers
    are [y] and the parameters, under [/etc/condor/dsa.pem]; the configured
    values have a [decode]. *)
Module DemoKeys.

#[export] Instance wellknown (param : gmap string string) : WellKnown := {|
  htcondor_param := param;
  read_public_numbers path :=
    if bool_decide (path = "/etc/condor/scitokens.pem") then
      inr (<["x" := 11%Z]> {["y" := 7%Z]})
    else if bool_decide (path = "/etc/condor/rsa.pem") then
      inr (<["n" := 3233%Z]> {["e" := 17%Z]})
    else if bool_decide (path = "/etc/condor/dsa.pem") then
      inr {["y" := 5%Z]}
    else inl (Exn IOError "No such file or directory");
  string_from_long z := pretty z;
  decode_utf8 s := inr s;
  url_for endpoint := inr ("https://credmon/" +:+ endpoint)
|}.

Definition rsa_param : gmap string string :=
  <["LOCAL_CREDMON_PUBLIC_KEY" := "/etc/condor/rsa.pem"]>
  {["LOCAL_CREDMON_KEY_ID" := "key-1"]}.

Definition dsa_param : gmap string string :=
  {["LOCAL_CREDMON_PUBLIC_KEY" := "/etc/condor/dsa.pem"]}.

End DemoKeys.

(** Further runs on the concrete world of [Demo]. *)
Module DemoRuns.
Import Demo.

(** A login for [github] on the session of the main key file. *)
Definition github_login : (exn + Response) * World :=
  oauth_login fmt "github" (world (session_abc None) fs0).

(** The callback that follows that login, on the path of [box]. *)
Definition github_login_returns : (exn + Response) * World :=
  oauth_return "box" (callback "st-github-id") github_login.2.

(** A file system with a key file that has no record. *)
Definition fs_e0 : gmap string File := <["/cred/e0" := KeyFile []]> fs0.

(** A session whose key path is taken by a directory. *)
Definition session_lost : Session :=
  set_key_path "/cred/alice" (session_abc (Some "github")).

Definition lost_key_file : (exn + Response) * World :=
  oauth_return "box" (callback "st-github-id") (world session_lost fs_blocked).

(** A key file whose record has no [ClientSecret], and the session of a
    login begun for its provider. *)
Definition key_file_5ec : list ClassAd :=
  [delete "ClientSecret" (ad "github" "")].

Definition fs_5ec : gmap string File :=
  <["/cred/5ec" := KeyFile key_file_5ec]> fs0.

Definition session_5ec : Session :=
  {| providers := Some {["github" := logged_out "st-github-id"]};
     logged_in := Some false; key_path := Some "/cred/5ec";
     local_username := Some "alice"; outgoing_provider := Some "github" |}.

(** The state check as [oauthlib] writes it,
    [if state and params.get('state', None) != state]: a state that is
    empty is not compared, and the token request is sent. *)
Definition oauthlib_truthy_state : OAuthLib := {|
  authorization_url := @authorization_url oauthlib;
  fetch_token cid st ruri turl resp secret :=
    if bool_decide (st ≠ "") && bool_decide (state_param resp ≠ Some st)
    then ([], inl mismatching_state)
    else ([{| net_method := "POST"; net_url := turl |}],
          inr {["access_token" := JStr "a1"]});
  oauth_get := @oauth_get oauthlib;
  url_state := state_param
|}.

(** A session in which the state stored for [github] is the empty one. *)
Definition session_blank : Session :=
  set_providers (<["github" := logged_out ""]> providers_abc)
                (session_abc (Some "github")).

End DemoRuns.

(** ** Vocabulary of the statements *)

(** Events that are not network calls. *)
Definition no_net (evs : list Event) : Prop :=
  Forall (λ ev, is_net_event ev = false) evs.

(** Events that are neither file operations nor network calls. *)
Definition only_logs (evs : list Event) : Prop :=
  Forall (λ ev, ∃ l m, ev = EvLog l m) evs.

(** What the identity block of [oauth_return] stores as the username when
    the identity request ends in [outcome]: the exception [get] raised, the
    exception [json()] raised, or the decoded body. *)
Definition resolves_identity (outcome : exn + (exn + json)) (v : json) : Prop :=
  match outcome with
  | inr (inr info) =>
      (py_in "login" info = inr true ∧ py_getitem info "login" = inr v) ∨
      (py_in "login" info = inr false ∧ py_in "sub" info = inr true ∧
       py_getitem info "sub" = inr v) ∨
      (py_in "login" info = inr false ∧ py_in "sub" info = inr false ∧
       v = JStr "Unknown")
  | inr (inl e) | inl e => isinstance e ValueError = true ∧ v = JStr "Unknown"
  end.

(** The file operations by which a successful [oauth_return] writes the
    triad [(access token, refresh token, metadata)]: three temporary files
    in the user's directory, then the three renames. *)
Definition triad_events (user_cred_dir base : string)
    (triad : gmap string json * gmap string json * gmap string json)
    (tmp_access tmp_refresh tmp_metadata : string) : list Event :=
  [EvFile (FMkstemp user_cred_dir) None;
   EvFile (FDump (JObj triad.1.1) tmp_access) None;
   EvFile (FMkstemp user_cred_dir) None;
   EvFile (FDump (JObj triad.1.2) tmp_refresh) None;
   EvFile (FMkstemp user_cred_dir) None;
   EvFile (FDump (JObj triad.2) tmp_metadata) None;
   EvFile (FRename tmp_access (path_join user_cred_dir (base +:+ ".use"))) None;
   EvFile (FRename tmp_refresh (path_join user_cred_dir (base +:+ ".top"))) None;
   EvFile (FRename tmp_metadata (path_join user_cred_dir (base +:+ ".meta"))) None].

(** The name under which [key] files a ClassAd, and [get_provider_ad]
    looks it up. *)
Definition ad_provider_str (ad : ClassAd) : option string :=
  (λ p, get_provider_str p (default "" (ad !! "Handle"))) <$> ad !! "Provider".

(** The pair [(Provider, Handle)] of a ClassAd, an absent handle being the
    empty one. *)
Definition provider_handle (ad : ClassAd) : string * string :=
  (default "" (ad !! "Provider"), default "" (ad !! "Handle")).

(** The key file of [key_id] exists and parses to the ClassAds [ads]. *)
Definition key_file_at `{Platform} (key_id : string) (w : World)
    (ads : list ClassAd) : Prop :=
  ∃ cred_dir, get_cred_dir = inr cred_dir ∧
    path_exists (path_join cred_dir key_id) (filesystem w) = true ∧
    open_parseAds (path_join cred_dir key_id) (filesystem w) = inr (ads, None).

(** A key file is valid for [key] when it has a record and every record
    carries the two fields the handler reads without a default. *)
Definition valid_key_file (ads : list ClassAd) : Prop :=
  ads ≠ [] ∧
  Forall (λ ad, is_Some (ad !! "Provider") ∧ is_Some (ad !! "LocalUser")) ads.

(** [evolves P w w']: from [w] to [w'] the in-flight record, once
    removed, has stayed removed, and the events added all satisfy [P]. *)
Definition evolves `{Platform} (P : Event → Prop) (w w' : World) : Prop :=
  (outgoing_provider (session w) = None →
   outgoing_provider (session w') = None) ∧
  ∃ evs, trace w' = trace w ++ evs ∧ Forall P evs.

(** Every run of [m], whatever its outcome, evolves the world so. *)
Definition steps `{Platform} {A} (P : Event → Prop) (m : M A) : Prop :=
  ∀ w r w', m w = (r, w') → evolves P w w'.

(** A rename that ended in an exception. *)
Definition failed_rename (ev : Event) : Prop :=
  ∃ src dst e, ev = EvFile (FRename src dst) (Some e).

Definition not_failed_rename (ev : Event) : Prop := ¬ failed_rename ev.

(** The events of a run as far as renames go: none has failed, or the one
    that failed is the last event, the run has ended in an exception, and
    that exception is not an [OSError] if the rename's was one. *)
Definition rename_outcome {A} (evs : list Event) (r : exn + A) : Prop :=
  Forall not_failed_rename evs ∨
  ∃ pre src dst e e',
    evs = pre ++ [EvFile (FRename src dst) (Some e)] ∧
    Forall not_failed_rename pre ∧ r = inl e' ∧
    (isinstance e OSError = true → isinstance e' OSError = false).

Definition disciplined `{Platform} {A} (m : M A) : Prop :=
  ∀ w r w', m w = (r, w') →
    ∃ evs, trace w' = trace w ++ evs ∧ rename_outcome evs r.

(** [oauthlib]'s test of a secure transport, on the lower-case scheme. *)
Definition secure_transport (uri : string) : bool := startswith "https://" uri.

(** The contract of [OAuth2Session.fetch_token] on the [state] parameter,
    for a session built with a non-empty state: when the state read off the
    authorization response is not that state, the call raises before it
    sends anything, and what it raises is [MismatchingStateError] when the
    token URL and the authorization response are on a secure transport
    (the library refuses the others first, with another exception). *)
Definition checks_state `{OAuthLib} : Prop :=
  ∀ client_id st redirect_uri token_url response client_secret,
    st ≠ "" → url_state response ≠ Some st →
    ∃ e, fetch_token client_id st redirect_uri token_url response
           client_secret = ([], inl e) ∧
         (secure_transport token_url = true →
          secure_transport response = true →
          exn_cls e = MismatchingStateError).

(** The state is read off the query of the URL: the upgrade of the scheme
    does not change it. *)
Definition state_survives_upgrade `{OAuthLib} (updated : string → string)
    : Prop :=
  ∀ url, url_state (updated url) = url_state url.

(** ** Vocabulary of the further statements *)

(** An event of a handler that only consults the key file [kp]: a log
    record, the existence test of [kp] or its opening. *)
Definition reads_key_file (kp : string) (ev : Event) : Prop :=
  match ev with
  | EvLog _ _ => True
  | EvFile op _ => op = FExists kp ∨ op = FOpenAds kp
  | EvNet _ => False
  end.

(** [moves R F P w w']: from [w] to [w'] the session has changed within
    [R], the file system within [F], and the events added satisfy [P]. *)
Definition moves `{Platform} (R : relation Session) (F : relation FS)
    (P : Event → Prop) (w w' : World) : Prop :=
  R (session w) (session w') ∧ F (filesystem w) (filesystem w') ∧
  ∃ evs, trace w' = trace w ++ evs ∧ Forall P evs.

(** Every run of [m], whatever its outcome, moves the world so. *)
Definition always `{Platform} {A} (R : relation Session) (F : relation FS)
    (P : Event → Prop) (m : M A) : Prop :=
  ∀ w r w', m w = (r, w') → moves R F P w w'.

(** The fields of a ProviderSession that [oauth_login] leaves alone (all
    but the state), and those that [oauth_return] leaves alone (all but the
    login flag and the username). *)
Definition keeps_login (p p' : ProviderSession) : Prop :=
  p_logged_in p' = p_logged_in p ∧ username p' = username p ∧
  requested_scopes p' = requested_scopes p ∧
  requested_resource p' = requested_resource p.

Definition keeps_request (p p' : ProviderSession) : Prop :=
  state p' = state p ∧
  requested_scopes p' = requested_scopes p ∧
  requested_resource p' = requested_resource p.

(** Two provider tables have the same names; the entry of [provider] has
    changed within [E] and the others not at all. *)
Definition entries_agree (E : relation ProviderSession) (provider : string)
    (provs provs' : gmap string ProviderSession) : Prop :=
  ∀ name,
    option_Forall2 (λ p p', E p p' ∧ (name ≠ provider → p' = p))
                   (provs !! name) (provs' !! name).

(** What [oauth_login provider] may change in the session: the state of
    [provider] and the in-flight record. *)
Definition login_changes (provider : string) (s s' : Session) : Prop :=
  key_path s' = key_path s ∧ local_username s' = local_username s ∧
  logged_in s' = logged_in s ∧
  option_Forall2 (entries_agree keeps_login provider)
                 (providers s) (providers s').

(** What [oauth_return] may change in the session when it acts on
    [provider]: the login flag and the username of [provider], the session
    flag and the in-flight record. *)
Definition return_changes (provider : string) (s s' : Session) : Prop :=
  key_path s' = key_path s ∧ local_username s' = local_username s ∧
  option_Forall2 (entries_agree keeps_request provider)
                 (providers s) (providers s').

(** The file operations that create, write or move something, and the
    events that are none of them. *)
Definition is_write_op (op : FileOp) : bool :=
  match op with
  | FExists _ | FIsdir _ | FOpenAds _ => false
  | _ => true
  end.

Definition writes_nothing (ev : Event) : Prop :=
  match ev with
  | EvFile op _ => is_write_op op = false
  | _ => True
  end.

(** A file operation other than a rename that ended in an exception. *)
Definition failed_op (ev : Event) : Prop :=
  ∃ op e, ev = EvFile op (Some e) ∧ ∀ src dst, op ≠ FRename src dst.

(** The events of a run as far as those operations go: none has failed; or
    one has, the run has ended in its exception, and only log records
    follow it. *)
Definition fail_stop {A} (evs : list Event) (r : exn + A) : Prop :=
  Forall (λ ev, ¬ failed_op ev) evs ∨
  ∃ pre op e logs,
    evs = pre ++ EvFile op (Some e) :: logs ∧
    (∀ src dst, op ≠ FRename src dst) ∧
    Forall (λ ev, ¬ failed_op ev) pre ∧ only_logs logs ∧ r = inl e.

Definition fails_stop `{Platform} {A} (m : M A) : Prop :=
  ∀ w r w', m w = (r, w') →
    ∃ evs, trace w' = trace w ++ evs ∧ fail_stop evs r.

(** ** Facts on strings *)

Lemma startswith_inv (p s : string) :
  startswith p s = true → s = p +:+ PyStr.drop (String.length p) s.
Proof.
  revert s. induction p as [|a p IH]; intros s; simpl; [done|].
  destruct s as [|b s]; [done|]. intros [Hab Hp]%andb_prop.
  apply bool_decide_eq_true in Hab as ->. simpl.
  change (String b p +:+ PyStr.drop (String.length p) s)
    with (String b (p +:+ PyStr.drop (String.length p) s)).
  f_equal. by apply IH.
Qed.

(** The URL handed to the token exchange is an https one as soon as the
    request URL is an http or https one. *)
Lemma updated_url_secure req :
  startswith "http://" req || startswith "https://" req = true →
  secure_transport (updated_url req) = true.
Proof.
  unfold updated_url, secure_transport.
  destruct (startswith "http://" req) eqn:Hhttp.
  - intros _. apply startswith_inv in Hhttp. rewrite Hhttp.
    generalize (PyStr.drop (String.length "http://") req). intros rest.
    vm_compute. reflexivity.
  - by intros Hs.
Qed.

(** ** Reasoning about runs *)

(** Projections of explicit worlds and sessions are computed; nothing else
    is unfolded. *)
Ltac wsimpl :=
  cbn [session filesystem trace providers logged_in key_path local_username
       outgoing_provider set_providers set_logged_in set_key_path
       set_local_username set_outgoing_provider fst snd] in *.

Section Runs.
Context `{Platform}.

Lemma bind_unfold {A B} (m : M A) (k : A → M B) (w : World) :
  (m ≫= k) w = match m w with
               | (inl e, w') => (inl e, w')
               | (inr a, w') => k a w'
               end.
Proof. reflexivity. Qed.

Lemma bind_ok {A B} (m : M A) (k : A → M B) w a w1 :
  m w = (inr a, w1) → (m ≫= k) w = k a w1.
Proof. intros Hm. rewrite bind_unfold, Hm. reflexivity. Qed.

Lemma bind_err {A B} (m : M A) (k : A → M B) w e w1 :
  m w = (inl e, w1) → (m ≫= k) w = (inl e, w1).
Proof. intros Hm. rewrite bind_unfold, Hm. reflexivity. Qed.

(** A run of [m ≫= k] that ends in a value went through a value of [m]. *)
Lemma bind_inr {A B} (m : M A) (k : A → M B) w b w' :
  (m ≫= k) w = (inr b, w') →
  ∃ a w1, m w = (inr a, w1) ∧ k a w1 = (inr b, w').
Proof.
  rewrite bind_unfold. destruct (m w) as [[e|a] w1]; [discriminate|].
  intros Hk. by exists a, w1.
Qed.

(** Any run of [m ≫= k] either stopped in [m] or went on with [k]. *)
Lemma bind_inv {A B} (m : M A) (k : A → M B) w r w' :
  (m ≫= k) w = (r, w') →
  (∃ e, m w = (inl e, w') ∧ r = inl e) ∨
  (∃ a w1, m w = (inr a, w1) ∧ k a w1 = (r, w')).
Proof.
  rewrite bind_unfold. destruct (m w) as [[e|a] w1].
  - intros [= <- <-]. left. by exists e.
  - intros Hk. right. by exists a, w1.
Qed.

Lemma getitem_inr {A} k (o : option A) w a w1 :
  getitem k o w = (inr a, w1) → o = Some a ∧ w1 = w.
Proof. destruct o; intros [= <- <-] || intros [=]; done. Qed.

Lemma lift_inr {A} (r : exn + A) w a w1 :
  lift r w = (inr a, w1) → r = inr a ∧ w1 = w.
Proof. destruct r; intros [= <- <-] || intros [=]; done. Qed.

Lemma session_get_inr {A} k (field : Session → option A) w a w1 :
  session_get k field w = (inr a, w1) → field (session w) = Some a ∧ w1 = w.
Proof.
  unfold session_get. rewrite bind_unfold. cbn. apply getitem_inr.
Qed.

Lemma session_get_ok {A} k (field : Session → option A) w a :
  field (session w) = Some a → session_get k field w = (inr a, w).
Proof. intros Hf. unfold session_get. rewrite bind_unfold. cbn. by rewrite Hf. Qed.

Lemma session_get_err {A} k (field : Session → option A) w :
  field (session w) = None →
  session_get k field w = (inl (Exn KeyError k), w).
Proof. intros Hf. unfold session_get. rewrite bind_unfold. cbn. by rewrite Hf. Qed.

Lemma modify_session_run (f : Session → Session) w :
  modify_session f w =
    (inr (), {| session := f (session w); filesystem := filesystem w;
                trace := trace w |}).
Proof. reflexivity. Qed.

Lemma file_op_inr {A} op (f : FS → (exn + A) * FS) w a w1 :
  file_op op f w = (inr a, w1) →
  ∃ fs', f (filesystem w) = (inr a, fs') ∧
         w1 = {| session := session w; filesystem := fs';
                 trace := trace w ++ [EvFile op None] |}.
Proof.
  unfold file_op. destruct (f (filesystem w)) as [[e|a'] fs'] eqn:Hf.
  - intros [=].
  - intros [= <- <-]. by exists fs'.
Qed.

(** A file operation that only reads leaves the file system as it is. *)
Lemma file_read_inr {A} op (g : FS → exn + A) w a w1 :
  file_op op (λ fs, (g fs, fs)) w = (inr a, w1) →
  g (filesystem w) = inr a ∧
  w1 = {| session := session w; filesystem := filesystem w;
          trace := trace w ++ [EvFile op None] |}.
Proof. intros (fs' & [= Hg <-] & ->)%file_op_inr. done. Qed.

Lemma net_op_inr {A} (r : list NetCall * (exn + A)) w a w1 :
  net_op r w = (inr a, w1) →
  r.2 = inr a ∧
  w1 = {| session := session w; filesystem := filesystem w;
          trace := trace w ++ (EvNet <$> r.1) |}.
Proof. unfold net_op. intros [= -> <-]. done. Qed.

(** [print] never raises, and only adds log records. *)
Lemma print_run s w :
  ∃ logs, only_logs logs ∧
    print s w = (inr (), {| session := session w; filesystem := filesystem w;
                            trace := trace w ++ logs |}).
Proof.
  unfold print, write. rewrite bind_unfold.
  rewrite (bool_decide_eq_false_2 (nl ≠ nl)) by (intros Hn; by apply Hn).
  destruct (bool_decide (s ≠ nl)); cbn.
  - eexists [_]. split; [repeat constructor; eauto|done].
  - exists []. split; [constructor|]. rewrite app_nil_r. by destruct w.
Qed.

Lemma getitem_eq {A} k (o : option A) w :
  getitem k o w = (match o with Some a => inr a | None => inl (Exn KeyError k) end, w).
Proof. by destruct o. Qed.

Lemma lift_eq {A} (r : exn + A) w : lift r w = (r, w).
Proof. by destruct r. Qed.

Lemma session_get_eq {A} k (field : Session → option A) w :
  session_get k field w =
    (match field (session w) with
     | Some a => inr a | None => inl (Exn KeyError k) end, w).
Proof. unfold session_get. rewrite bind_unfold. cbn. apply getitem_eq. Qed.

Lemma update_provider_eq provider f w :
  update_provider provider f w =
    match providers (session w) with
    | None => (inl (Exn KeyError "providers"), w)
    | Some provs =>
        match provs !! provider with
        | None => (inl (Exn KeyError provider), w)
        | Some p =>
            (inr (), {| session := set_providers (<[provider := f p]> provs) (session w);
                        filesystem := filesystem w; trace := trace w |})
        end
    end.
Proof.
  unfold update_provider. rewrite bind_unfold, session_get_eq.
  destruct (providers (session w)) as [provs|]; [|done].
  rewrite bind_unfold, getitem_eq. by destruct (provs !! provider).
Qed.

Lemma py_in_not_value_error k v e :
  py_in k v = inl e → isinstance e ValueError = false.
Proof. destruct v; intros [= <-]; done. Qed.

Lemma py_getitem_not_value_error v k e :
  py_getitem v k = inl e → isinstance e ValueError = false.
Proof.
  destruct v; try (intros [= <-]; done).
  cbn. destruct (o !! k); intros [= <-]; done.
Qed.

Lemma update_provider_inl provider f w e w' :
  update_provider provider f w = (inl e, w') →
  isinstance e ValueError = false ∧ w' = w.
Proof.
  rewrite update_provider_eq.
  destruct (providers (session w)) as [provs|];
    [destruct (provs !! provider)|]; intros [= <- <-]; done.
Qed.

End Runs.

(** ** The blocks of the handlers *)

Section Blocks.
Context `{Platform, OAuthLib}.

Lemma get_user_info_inr provider ad cid token w w1 :
  get_user_info provider ad cid token w = (inr (), w1) →
  ∃ provs p user_url v,
    providers (session w) = Some provs ∧ provs !! provider = Some p ∧
    ad !! "UserUrl" = Some user_url ∧
    resolves_identity (oauth_get cid token user_url).2 v ∧
    w1 = {| session := set_providers (<[provider := set_username v p]> provs) (session w);
            filesystem := filesystem w;
            trace := trace w ++ (EvNet <$> (oauth_get cid token user_url).1) |}.
Proof.
  unfold get_user_info, try_except.
  rewrite bind_unfold, getitem_eq.
  destruct (ad !! "UserUrl") as [user_url|] eqn:Hurl; [|done].
  rewrite bind_unfold. unfold net_op.
  destruct (oauth_get cid token user_url) as [calls outcome] eqn:Hget. wsimpl.
  set (w2 := {| session := session w; filesystem := filesystem w;
                trace := trace w ++ (EvNet <$> calls) |}).
  match goal with |- _ → ?G =>
    assert (Hfin : ∀ v, update_provider provider (set_username v) w2 = (inr (), w1) →
                        resolves_identity outcome v → G) end.
  { intros v. rewrite update_provider_eq. subst w2. wsimpl.
    destruct (providers (session w)) as [provs|] eqn:Hprovs; [|done].
    destruct (provs !! provider) as [p|] eqn:Hp; [|done].
    intros [= <-] Hres. exists provs, p, user_url, v. by rewrite Hget. }
  clearbody w2.
  destruct outcome as [e|body]; wsimpl.
  { destruct (isinstance e ValueError) eqn:He; [|done].
    intros Hu. by apply (Hfin _ Hu). }
  rewrite bind_unfold, lift_eq.
  destruct body as [e|info].
  { destruct (isinstance e ValueError) eqn:He; [|done].
    intros Hu. by apply (Hfin _ Hu). }
  rewrite bind_unfold, lift_eq.
  destruct (py_in "login" info) as [e|[|]] eqn:Hlogin.
  - destruct (isinstance e ValueError) eqn:He; [|done].
    by rewrite (py_in_not_value_error _ _ _ Hlogin) in He.
  - rewrite bind_unfold, lift_eq.
    destruct (py_getitem info "login") as [e|v] eqn:Hv.
    + destruct (isinstance e ValueError) eqn:He; [|done].
      by rewrite (py_getitem_not_value_error _ _ _ Hv) in He.
    + destruct (update_provider provider (set_username v) w2) as [[e|[]] w3] eqn:Hu.
      * apply update_provider_inl in Hu as [-> ->]. done.
      * intros [= <-]. apply (Hfin _ Hu). cbn. intuition.
  - rewrite bind_unfold, lift_eq.
    destruct (py_in "sub" info) as [e|[|]] eqn:Hsub.
    + destruct (isinstance e ValueError) eqn:He; [|done].
      by rewrite (py_in_not_value_error _ _ _ Hsub) in He.
    + rewrite bind_unfold, lift_eq.
      destruct (py_getitem info "sub") as [e|v] eqn:Hv.
      * destruct (isinstance e ValueError) eqn:He; [|done].
        by rewrite (py_getitem_not_value_error _ _ _ Hv) in He.
      * destruct (update_provider provider (set_username v) w2) as [[e|[]] w3] eqn:Hu.
        -- apply update_provider_inl in Hu as [-> ->]. done.
        -- intros [= <-]. apply (Hfin _ Hu). cbn. intuition.
    + destruct (update_provider provider (set_username (JStr "Unknown")) w2) as [[e|[]] w3] eqn:Hu.
      * apply update_provider_inl in Hu as [-> ->]. done.
      * intros [= <-]. apply (Hfin _ Hu). cbn. intuition.
Qed.
Lemma find_provider_ad_world provider kp ads rest w r w' :
  find_provider_ad provider kp ads rest w = (r, w') → w' = w.
Proof.
  induction ads as [|ad ads IH]; cbn [find_provider_ad].
  - destruct rest; by intros [= <- <-].
  - rewrite bind_unfold, getitem_eq. destruct (ad !! "Provider") as [p|].
    + case_bool_decide; [by intros [= <- <-]|]. exact IH.
    + by intros [= <- <-].
Qed.

(** The key file is read at most once, after one existence test. *)
Lemma get_provider_ad_run provider kp w r w' :
  get_provider_ad provider kp w = (r, w') →
  ∃ evs, w' = {| session := session w; filesystem := filesystem w;
                 trace := trace w ++ evs |} ∧
    match r with
    | inr _ => evs = [EvFile (FExists kp) None; EvFile (FOpenAds kp) None]
    | inl _ => ∃ o logs, only_logs logs ∧
        evs = EvFile (FExists kp) None :: 
          match o with Some err => EvFile (FOpenAds kp) err :: logs | None => [] end
    end.
Proof.
  unfold get_provider_ad, os_path_exists, classad_parseAds, raise.
  rewrite bind_unfold. unfold file_op at 1.
  destruct (path_exists kp (filesystem w)); cbn [negb].
  2:{ intros [= <- <-]. eexists. split; [done|]. exists None, []. by split; [constructor|]. }
  unfold try_except. rewrite bind_unfold. unfold file_op. wsimpl.
  destruct (open_parseAds kp (filesystem w)) as [e|[ads rest]].
  - destruct (isinstance e IOError).
    + rewrite bind_unfold.
      match goal with |- context [print ?s ?w0] =>
        destruct (print_run s w0) as (logs & Hlogs & ->) end.
      intros [= <- <-]. wsimpl. eexists. rewrite <- !app_assoc. split; [done|].
      by exists (Some (Some e)), logs.
    + intros [= <- <-]. eexists. rewrite <- !app_assoc. split; [done|].
      exists (Some (Some e)), []. by split; [constructor|].
  - match goal with |- context [find_provider_ad ?a ?b ?c ?d ?w0] =>
      destruct (find_provider_ad a b c d w0) as [[e|ad] w1] eqn:Hf;
      apply find_provider_ad_world in Hf as -> end.
    + destruct (isinstance e IOError).
      * rewrite bind_unfold.
        match goal with |- context [print ?s ?w0] =>
          destruct (print_run s w0) as (logs & Hlogs & ->) end.
        intros [= <- <-]. wsimpl. eexists. rewrite <- !app_assoc. split; [done|].
        by exists (Some None), logs.
      * intros [= <- <-]. eexists. rewrite <- !app_assoc. split; [done|].
        exists (Some None), []. by split; [constructor|].
    + intros [= <- <-]. eexists. rewrite <- !app_assoc. by split.
Qed.

Lemma try_except_inr {A} (body : M A) cls handler w a w' :
  (∀ e w0 a0 w1, handler e w0 ≠ (inr a0, w1)) →
  try_except body cls handler w = (inr a, w') → body w = (inr a, w').
Proof.
  intros Hh. unfold try_except. destruct (body w) as [[e|a1] w1]; [|done].
  destruct (isinstance e cls); [|done]. intros Hr. by apply Hh in Hr.
Qed.

Lemma print_then_raise_fails {A} s e w (a : A) w1 :
  (print s ≫= λ _, raise e) w ≠ (inr a, w1).
Proof.
  rewrite bind_unfold. destruct (print_run s w) as (logs & _ & ->). done.
Qed.

Lemma write_exception_fails self e w a w1 :
  write self (PExn e) w ≠ (inr a, w1).
Proof. done. Qed.

Ltac inv_step H :=
  let a := fresh "a" in let w1 := fresh "w" in let Hs := fresh "Hs" in
  apply bind_inr in H as (a & w1 & Hs & H).

Lemma oauth_return_inr url req w r w' :
  oauth_return url req w = (inr r, w') →
  ∃ provs p kp (ad : ClassAd) cid ruri st sec turl token user_url v lu cd
    tmpA tmpR tmpM pre,
    let provider := resolve_provider (session w) url in
    let provs' := <[provider := set_p_logged_in true (set_username v p)]> provs in
    providers (session w) = Some provs ∧ provs !! provider = Some p ∧
    state p = Some st ∧ key_path (session w) = Some kp ∧
    local_username (session w) = Some lu ∧ get_cred_dir = inr cd ∧
    ad !! "ClientId" = Some cid ∧ ad !! "ReturnUrl" = Some ruri ∧
    ad !! "ClientSecret" = Some sec ∧ ad !! "TokenUrl" = Some turl ∧
    ad !! "UserUrl" = Some user_url ∧
    (fetch_token cid st ruri turl (updated_url req) sec).2 = inr token ∧
    resolves_identity (oauth_get cid token user_url).2 v ∧
    r = redirect "/" ∧
    session w' =
      check_other_providers provs'
        (set_logged_in true
           (set_providers provs' (set_outgoing_provider None (session w)))) ∧
    trace w' = trace w ++ pre ++
      triad_events (path_join cd lu) (replace_char " " "_" provider)
        (split_refresh_token cid sec turl token) tmpA tmpR tmpM.
Proof.
  intros Hrun. unfold oauth_return in Hrun.
  inv_step Hrun. injection Hs as <- <-. cbn zeta in Hrun.
  inv_step Hrun. rewrite modify_session_run in Hs. injection Hs as <- <-.
  apply bind_inr in Hrun as (provs & ? & Hs & Hrun). apply session_get_inr in Hs as [Hprovs ->]. wsimpl.
  inv_step Hrun. case_bool_decide as Hmem; [discriminate Hs|]. injection Hs as <- <-.
  apply bind_inr in Hrun as (kp & ? & Hs & Hrun). apply session_get_inr in Hs as [Hkp ->]. wsimpl.
  apply bind_inr in Hrun as (ad & ? & Hs & Hrun). apply get_provider_ad_run in Hs as (evs & -> & ->). wsimpl.
  apply bind_inr in Hrun as (cid & ? & Hs & Hrun). apply getitem_inr in Hs as [Hcid ->].
  apply bind_inr in Hrun as (ruri & ? & Hs & Hrun). apply getitem_inr in Hs as [Hruri ->].
  apply bind_inr in Hrun as (p & ? & Hs & Hrun). unfold session_provider in Hs.
  inv_step Hs. apply session_get_inr in Hs0 as [Hprovs' ->]. wsimpl.
  apply getitem_inr in Hs as [Hp ->]. simplify_eq.
  apply bind_inr in Hrun as (st & ? & Hs & Hrun). apply getitem_inr in Hs as [Hst ->].
  apply bind_inr in Hrun as (sec & ? & Hs & Hrun). apply getitem_inr in Hs as [Hsec ->].
  apply bind_inr in Hrun as (turl & ? & Hs & Hrun). apply getitem_inr in Hs as [Hturl ->].
  apply bind_inr in Hrun as (token & ? & Hs & Hrun). apply net_op_inr in Hs as [Htoken ->].
  apply bind_inr in Hrun as (lu & ? & Hs & Hrun). apply session_get_inr in Hs as [Hlu ->]. wsimpl.
  inv_step Hrun.
  match type of Hs with print ?s ?w0 = _ =>
    destruct (print_run s w0) as (logs & Hlogs & Hpr); rewrite Hpr in Hs;
    clear Hpr; injection Hs as <- end.
  apply bind_inr in Hrun as ([] & w1 & Hs & Hrun). apply get_user_info_inr in Hs
    as (provs1 & p1 & user_url & v & Hprovs1 & Hp1 & Huurl & Hid & ->). wsimpl.
  simplify_eq.
  destruct (split_refresh_token _ _ _ _) as [[tok refresh_token] metadata] eqn:Hsplit.
  apply bind_inr in Hrun as (cd & ? & Hs & Hrun). apply lift_inr in Hs as [Hcd ->].
  inv_step Hrun. apply session_get_inr in Hs as [Hlu' ->]. wsimpl. simplify_eq.
  inv_step Hrun. unfold os_path_isdir in Hs.
  apply file_op_inr in Hs as (fs0 & [= <- <-] & ->).
  apply bind_inr in Hrun as ([] & w1 & Hs & Hrun).
  assert (∃ fs1 mk, w1 = {| session := session w1; filesystem := fs1;
            trace := (trace w ++ [EvFile (FExists kp) None; EvFile (FOpenAds kp) None] ++
                      (EvNet <$> (fetch_token cid st ruri turl (updated_url req) sec).1) ++
                      logs ++ (EvNet <$> (oauth_get cid token user_url).1) ++
                      [EvFile (FIsdir (path_join cd lu)) None] ++ mk) |} ∧
          session w1 = set_providers
          (<[resolve_provider (session w) url:=set_username v p]> provs)
          (set_outgoing_provider None (session w))) as (fs1 & mk & Hw1 & Hs1).
  { destruct (negb _).
    - apply file_op_inr in Hs as (fs1 & _ & ->). wsimpl.
      exists fs1, [EvFile (FMakedirs (path_join cd lu)) None].
      by rewrite <- !app_assoc.
    - injection Hs as <-. exists (filesystem w), []. by rewrite <- !app_assoc. }
  clear Hs.
  remember (trace w ++
        [EvFile (FExists kp) None; EvFile (FOpenAds kp) None] ++
        (EvNet <$> (fetch_token cid st ruri turl (updated_url req) sec).1) ++
        logs ++
        (EvNet <$> (oauth_get cid token user_url).1) ++
        [EvFile (FIsdir (path_join cd lu)) None] ++ mk) as T eqn:HT.
  destruct w1 as [s1 fs1' T1]. wsimpl. injection Hw1 as -> ->. subst s1.
  apply bind_inr in Hrun as (tmpA & ? & Hs & Hrun).
  apply try_except_inr in Hs; [|intros; apply print_then_raise_fails].
  apply file_op_inr in Hs as (fs2 & _ & ->). wsimpl.
  apply bind_inr in Hrun as ([] & ? & Hs & Hrun).
  apply file_op_inr in Hs as (fs3 & _ & ->). wsimpl.
  apply bind_inr in Hrun as (tmpR & ? & Hs & Hrun).
  apply file_op_inr in Hs as (fs4 & _ & ->). wsimpl.
  apply bind_inr in Hrun as ([] & ? & Hs & Hrun).
  apply file_op_inr in Hs as (fs5 & _ & ->). wsimpl.
  apply bind_inr in Hrun as (tmpM & ? & Hs & Hrun).
  apply file_op_inr in Hs as (fs6 & _ & ->). wsimpl.
  apply bind_inr in Hrun as ([] & ? & Hs & Hrun).
  apply file_op_inr in Hs as (fs7 & _ & ->). wsimpl.
  apply bind_inr in Hrun as ([] & ? & Hs & Hrun).
  apply try_except_inr in Hs; [|intros; apply write_exception_fails].
  apply bind_inr in Hs as ([] & ? & Hs1 & Hs).
  apply file_op_inr in Hs1 as (fs8 & _ & ->). wsimpl.
  apply bind_inr in Hs as ([] & ? & Hs1 & Hs).
  apply file_op_inr in Hs1 as (fs9 & _ & ->). wsimpl.
  apply file_op_inr in Hs as (fs10 & _ & ->). wsimpl.
  apply bind_inr in Hrun as ([] & ? & Hs & Hrun).
  rewrite update_provider_eq in Hs. wsimpl.
  rewrite lookup_insert_eq in Hs. injection Hs as <-.
  rewrite insert_insert_eq in Hrun.
  apply bind_inr in Hrun as ([] & ? & Hs & Hrun).
  rewrite modify_session_run in Hs. injection Hs as <-. wsimpl.
  apply bind_inr in Hrun as (provs2 & ? & Hs & Hrun).
  apply session_get_inr in Hs as [[= <-] ->]. wsimpl.
  apply bind_inr in Hrun as ([] & ? & Hs & Hrun).
  rewrite modify_session_run in Hs. injection Hs as <-. wsimpl.
  injection Hrun as <- <-. wsimpl.
  exists provs, p, kp, ad, cid, ruri, st, sec, turl, token, user_url, v, lu, cd,
    tmpA, tmpR, tmpM.
  exists ([EvFile (FExists kp) None; EvFile (FOpenAds kp) None] ++
        (EvNet <$> (fetch_token cid st ruri turl (updated_url req) sec).1) ++
        logs ++ (EvNet <$> (oauth_get cid token user_url).1) ++
        [EvFile (FIsdir (path_join cd lu)) None] ++ mk).
  cbv zeta. split_and!; try done.
  rewrite HT, Hsplit. unfold triad_events. cbn [fst snd].
  rewrite <- !app_assoc. reflexivity.
Qed.
(** The loop only touches the session flag, and clears it as soon as it
    meets a provider that is not logged in. *)
Lemma check_other_providers_spec (provs : gmap string ProviderSession) s :
  let all_in := map_Forall (λ _ p, p_logged_in p = true) provs in
  providers (check_other_providers provs s) = providers s ∧
  key_path (check_other_providers provs s) = key_path s ∧
  local_username (check_other_providers provs s) = local_username s ∧
  outgoing_provider (check_other_providers provs s) = outgoing_provider s ∧
  (all_in → logged_in (check_other_providers provs s) = logged_in s) ∧
  (¬ all_in → logged_in (check_other_providers provs s) = Some false).
Proof.
  unfold check_other_providers.
  apply (map_fold_weak_ind (λ r (m : gmap string ProviderSession),
    providers r = providers s ∧ key_path r = key_path s ∧
    local_username r = local_username s ∧
    outgoing_provider r = outgoing_provider s ∧
    (map_Forall (λ _ p, p_logged_in p = true) m → logged_in r = logged_in s) ∧
    (¬ map_Forall (λ _ p, p_logged_in p = true) m → logged_in r = Some false))).
  - split_and!; try done. intros Hn. destruct Hn. apply map_Forall_empty.
  - intros i x m r Hi (Hp & Hk & Hl & Ho & Hall & Hnot).
    rewrite map_Forall_insert by exact Hi.
    destruct (p_logged_in x) eqn:Hx; cbn; split_and!; try done.
    + intros [_ Hm]. auto.
    + intros Hn. apply Hnot. intros Hm. apply Hn. by split.
    + intros [Hx' _]. congruence.
Qed.

(** A successful [oauth_login] leaves the provider it was called for as
    the in-flight provider, with the state the library generated. *)
Lemma oauth_login_inr fmt provider w r w' :
  oauth_login fmt provider w = (inr r, w') →
  outgoing_provider (session w') = Some provider ∧
  ∃ provs p (ad : ClassAd) cid ruri url auth_url st,
    providers (session w) = Some provs ∧ provs !! provider = Some p ∧
    ad !! "ClientId" = Some cid ∧ ad !! "ReturnUrl" = Some ruri ∧
    ad !! "AuthorizationUrl" = Some url ∧
    authorization_url cid ruri (split_scopes <$> ad !! "Scopes") url
      (ad !! "Audience") = inr (auth_url, st) ∧
    r = redirect auth_url ∧
    providers (session w') = Some (<[provider := set_state st p]> provs).
Proof.
  intros Hrun. unfold oauth_login in Hrun.
  apply bind_inr in Hrun as ([] & ? & Hs & Hrun).
  apply try_except_inr in Hs; last first.
  { intros e w0 a0 w1. rewrite bind_unfold. cbn [get_session].
    unfold write. case_bool_decide; cbn; rewrite bind_unfold; done. }
  apply bind_inr in Hs as (provs & ? & Hs & Hmem).
  apply session_get_inr in Hs as [Hprovs ->].
  case_bool_decide as Hin; [discriminate Hmem|]. injection Hmem as <-.
  apply bind_inr in Hrun as (kp & ? & Hs & Hrun).
  apply session_get_inr in Hs as [Hkp ->].
  apply bind_inr in Hrun as (ad & ? & Hs & Hrun).
  apply get_provider_ad_run in Hs as (evs & -> & ->).
  apply bind_inr in Hrun as (cid & ? & Hs & Hrun). apply getitem_inr in Hs as [Hcid ->].
  apply bind_inr in Hrun as (ruri & ? & Hs & Hrun). apply getitem_inr in Hs as [Hruri ->].
  apply bind_inr in Hrun as (url & ? & Hs & Hrun). apply getitem_inr in Hs as [Hurl ->].
  apply bind_inr in Hrun as ([auth_url st] & ? & Hs & Hrun). apply lift_inr in Hs as [Hauth ->].
  apply bind_inr in Hrun as (provs2 & ? & Hs & Hrun).
  apply session_get_inr in Hs as [Hprovs2 ->]. wsimpl. simplify_eq.
  apply bind_inr in Hrun as (p & ? & Hs & Hrun). apply getitem_inr in Hs as [Hp ->].
  apply bind_inr in Hrun as ([] & ? & Hs & Hrun).
  rewrite modify_session_run in Hs. injection Hs as <-.
  apply bind_inr in Hrun as ([] & ? & Hs & Hrun).
  rewrite modify_session_run in Hs. injection Hs as <-.
  injection Hrun as <- <-. wsimpl. split; [done|].
  by exists provs, p, ad, cid, ruri, url, auth_url, st.
Qed.

End Blocks.

(** ** What every run does, whatever its outcome *)

Section Steps.
Context `{Platform, OAuthLib}.
Variable P : Event → Prop.

Lemma evolves_refl w : evolves P w w.
Proof. split; [done|]. exists []. by rewrite app_nil_r. Qed.

Lemma evolves_trans w1 w2 w3 :
  evolves P w1 w2 → evolves P w2 w3 → evolves P w1 w3.
Proof.
  intros [Ho1 (e1 & Ht1 & Hp1)] [Ho2 (e2 & Ht2 & Hp2)]. split; [auto|].
  exists (e1 ++ e2). rewrite Ht2, Ht1, app_assoc. split; [done|].
  by apply Forall_app.
Qed.

Lemma evolves_events w s' fs' evs :
  (outgoing_provider (session w) = None → outgoing_provider s' = None) →
  Forall P evs →
  evolves P w {| session := s'; filesystem := fs'; trace := trace w ++ evs |}.
Proof. intros Ho Hp. split; [done|]. by exists evs. Qed.

Lemma steps_unchanged {A} (m : M A) :
  (∀ w, ∃ r, m w = (r, w)) → steps P m.
Proof.
  intros Hm w r w' Hrun. destruct (Hm w) as [r' Hr]. rewrite Hr in Hrun.
  injection Hrun as _ <-. apply evolves_refl.
Qed.

Lemma steps_ret {A} (a : A) : steps P (ret a).
Proof. apply steps_unchanged. by eexists. Qed.

Lemma steps_raise {A} e : steps P (raise e : M A).
Proof. apply steps_unchanged. by eexists. Qed.

Lemma steps_getitem {A} k (o : option A) : steps P (getitem k o).
Proof. apply steps_unchanged. intros w. rewrite getitem_eq. by eexists. Qed.

Lemma steps_lift {A} (r : exn + A) : steps P (lift r).
Proof. apply steps_unchanged. intros w. rewrite lift_eq. by eexists. Qed.

Lemma steps_get_session : steps P get_session.
Proof. apply steps_unchanged. by eexists. Qed.

Lemma steps_session_get {A} k (field : Session → option A) :
  steps P (session_get k field).
Proof. apply steps_unchanged. intros w. rewrite session_get_eq. by eexists. Qed.

Lemma steps_bind {A B} (m : M A) (k : A → M B) :
  steps P m → (∀ a, steps P (k a)) → steps P (m ≫= k).
Proof.
  intros Hm Hk w r w' [(e & Hs & ->)|(a & w1 & Hs & Hrun)]%bind_inv.
  - by apply Hm in Hs.
  - eapply evolves_trans; [by apply Hm in Hs|by apply Hk in Hrun].
Qed.

Lemma steps_try_except {A} (body : M A) cls handler :
  steps P body → (∀ e, steps P (handler e)) →
  steps P (try_except body cls handler).
Proof.
  intros Hb Hh w r w'. unfold try_except.
  destruct (body w) as [[e|a] w1] eqn:Hbody; apply Hb in Hbody.
  - destruct (isinstance e cls).
    + intros Hrun%Hh. by eapply evolves_trans.
    + by intros [= <- <-].
  - by intros [= <- <-].
Qed.

Lemma steps_modify_session f :
  (∀ s, outgoing_provider s = None → outgoing_provider (f s) = None) →
  steps P (modify_session f).
Proof.
  intros Hf w r w' [= <- <-]. split; [apply Hf|]. exists [].
  by rewrite app_nil_r.
Qed.

Lemma steps_file_op {A} op (f : FS → (exn + A) * FS) :
  (∀ err, P (EvFile op err)) → steps P (file_op op f).
Proof.
  intros Hp w r w'. unfold file_op.
  destruct (f (filesystem w)) as [r' fs']. intros [= <- <-].
  apply evolves_events; [done|]. by repeat constructor.
Qed.

Lemma steps_net_op {A} (c : list NetCall * (exn + A)) :
  (∀ call, P (EvNet call)) → steps P (net_op c).
Proof.
  intros Hp w r w' [= <- <-]. apply evolves_events; [done|].
  apply Forall_fmap, Forall_forall. intros call _. apply Hp.
Qed.

Lemma steps_write self message :
  (∀ l m, P (EvLog l m)) → steps P (write self message).
Proof.
  intros Hp w r w'. destruct message as [s|e]; cbn [write].
  - case_bool_decide.
    + intros [= <- <-]. apply evolves_events; [done|]. by repeat constructor.
    + intros [= <- <-]. apply evolves_refl.
  - intros [= <- <-]. apply evolves_refl.
Qed.

Lemma steps_print s : (∀ l m, P (EvLog l m)) → steps P (print s).
Proof. intros Hp. apply steps_bind; [|intros _]; by apply steps_write. Qed.

Lemma steps_update_provider provider f : steps P (update_provider provider f).
Proof.
  intros w r w'. rewrite update_provider_eq.
  destruct (providers (session w)) as [provs|];
    [destruct (provs !! provider)|]; intros [= <- <-];
    try apply evolves_refl.
  split; [done|]. exists []. by rewrite app_nil_r.
Qed.

Lemma steps_find_provider_ad provider kp ads rest :
  steps P (find_provider_ad provider kp ads rest).
Proof. intros w r w' ->%find_provider_ad_world. apply evolves_refl. Qed.

Hypothesis Plog : ∀ l m, P (EvLog l m).
Hypothesis Pnet : ∀ call, P (EvNet call).
Hypothesis Pfile : ∀ op err, (∀ src dst, op ≠ FRename src dst) → P (EvFile op err).

Lemma steps_get_provider_ad provider kp : steps P (get_provider_ad provider kp).
Proof.
  unfold get_provider_ad, os_path_exists, classad_parseAds.
  apply steps_bind; [by apply steps_file_op; intros; apply Pfile|intros found].
  destruct (negb found); [apply steps_raise|].
  apply steps_try_except.
  - apply steps_bind; [by apply steps_file_op; intros; apply Pfile|].
    intros [ads rest]. apply steps_find_provider_ad.
  - intros e. apply steps_bind; [by apply steps_print|intros _].
    apply steps_raise.
Qed.

Lemma steps_get_user_info provider ad cid token :
  steps P (get_user_info provider ad cid token).
Proof.
  unfold get_user_info. apply steps_try_except.
  - apply steps_bind; [apply steps_getitem|intros user_url].
    apply steps_bind; [by apply steps_net_op|intros response].
    apply steps_bind; [apply steps_lift|intros info].
    apply steps_bind; [apply steps_lift|intros [|]].
    + apply steps_bind; [apply steps_lift|intros v].
      apply steps_update_provider.
    + apply steps_bind; [apply steps_lift|intros [|]].
      * apply steps_bind; [apply steps_lift|intros v].
        apply steps_update_provider.
      * apply steps_update_provider.
  - intros _. apply steps_update_provider.
Qed.

End Steps.

Section Discipline.
Context `{Platform, OAuthLib}.

Ltac solve_steps side :=
  repeat first
    [ apply steps_ret | apply steps_raise | apply steps_getitem
    | apply steps_lift | apply steps_get_session | apply steps_session_get
    | apply steps_update_provider
    | apply steps_print; side | apply steps_write; side
    | apply steps_get_provider_ad; side | apply steps_get_user_info; side
    | apply steps_net_op; side
    | apply steps_file_op; side
    | apply steps_modify_session; by intros []
    | apply steps_modify_session; intros s;
      by destruct (check_other_providers_spec ltac:(eassumption) s)
        as (_ & _ & _ & -> & _)
    | apply steps_try_except; [|intros ?]
    | apply steps_bind; [|intros ?]
    | match goal with
      | |- steps _ (if ?b then _ else _) => destruct b
      | |- steps _ (let '(_, _) := ?x in _) => destruct x as [[? ?] ?]
      | |- steps _ (session_provider _) => unfold session_provider
      end ].

(** Whatever its outcome, a run of [oauth_return] ends with the in-flight
    record removed. *)
Lemma oauth_return_pops_outgoing_provider url req w r w' :
  oauth_return url req w = (r, w') → outgoing_provider (session w') = None.
Proof.
  intros Hrun. unfold oauth_return in Hrun.
  apply bind_inv in Hrun as [(e & [=] & _)|(s & w1 & [= <- <-] & Hrun)].
  cbv zeta in Hrun.
  apply bind_inv in Hrun as [(e & [=] & _)|([] & w1 & [= <-] & Hrun)].
  revert Hrun.
  match goal with |- ?m ?w0 = _ → _ =>
    assert (Hsteps : steps (λ _, True) m); [|intros Hr%Hsteps; by apply Hr] end.
  solve_steps ltac:(done).
Qed.

Lemma disciplined_bind {A B} (m : M A) (k : A → M B) :
  steps not_failed_rename m → (∀ a, disciplined (k a)) →
  disciplined (m ≫= k).
Proof.
  intros Hm Hk w r w' [(e & Hs & ->)|(a & w1 & Hs & Hrun)]%bind_inv.
  - apply Hm in Hs as [_ (evs & Ht & Hp)]. exists evs. split; [done|by left].
  - apply Hm in Hs as [_ (evs1 & Ht1 & Hp1)].
    apply Hk in Hrun as (evs2 & Ht2 & Ho). exists (evs1 ++ evs2).
    rewrite Ht2, Ht1, app_assoc. split; [done|].
    destruct Ho as [Hp2|(pre & src & dst & e & e' & -> & Hpre & -> & He)].
    + left. by apply Forall_app.
    + right. exists (evs1 ++ pre), src, dst, e, e'. rewrite app_assoc.
      split_and!; try done. by apply Forall_app.
Qed.

Lemma not_failed_rename_ok src dst : not_failed_rename (EvFile (FRename src dst) None).
Proof. by intros (? & ? & ? & [=]). Qed.

(** The three renames and what follows them (lines 324-341). *)
Lemma disciplined_renames {B} a1 b1 a2 b2 a3 b3 (k : unit → M B) :
  (∀ u, steps not_failed_rename (k u)) →
  disciplined
    (try_except
       (utils_atomic_rename a1 b1;; utils_atomic_rename a2 b2;;
        utils_atomic_rename a3 b3)
       OSError (λ e, write sys_stderr (PExn e)) ≫= k).
Proof.
  intros Hk w r w'.
  assert (Hfail : ∀ pre src dst e w1 (h : (exn + ()) * World),
    Forall not_failed_rename pre →
    trace w1 = trace w ++ pre ++ [EvFile (FRename src dst) (Some e)] →
    h = (if isinstance e OSError then write sys_stderr (PExn e) w1
         else (inl e, w1)) →
    match h with
    | (inl e0, w'0) => (inl e0, w'0)
    | (inr a, w'0) => k a w'0
    end = (r, w') →
    ∃ evs, trace w' = trace w ++ evs ∧ rename_outcome evs r).
  { intros pre src dst e w1 h Hpre Ht -> Hr. exists (pre ++ [EvFile (FRename src dst) (Some e)]).
    destruct (isinstance e OSError) eqn:He; injection Hr as <- <-;
      (split; [exact Ht|]); right; eexists pre, src, dst, e, _;
      split_and!; done || congruence. }
  rewrite bind_unfold. unfold try_except, utils_atomic_rename.
  rewrite bind_unfold. unfold file_op at 1.
  destruct (atomic_rename a1 b1 (filesystem w)) as [[e1|[]] fs1].
  { intros Hr. eapply (Hfail [] a1 b1 e1); [constructor| |reflexivity|exact Hr].
    done. }
  rewrite bind_unfold. unfold file_op at 1. wsimpl.
  destruct (atomic_rename a2 b2 fs1) as [[e2|[]] fs2].
  { intros Hr. eapply (Hfail [_] a2 b2 e2); [| |reflexivity|exact Hr].
    - repeat constructor. apply not_failed_rename_ok.
    - wsimpl. by rewrite <- app_assoc. }
  unfold file_op. wsimpl.
  destruct (atomic_rename a3 b3 fs2) as [[e3|[]] fs3].
  { intros Hr. eapply (Hfail [_; _] a3 b3 e3); [| |reflexivity|exact Hr].
    - repeat constructor; apply not_failed_rename_ok.
    - wsimpl. by rewrite <- !app_assoc. }
  intros [_ (evs & Ht & Hp)]%Hk. wsimpl.
  eexists. rewrite Ht, <- !app_assoc. split; [done|]. left.
  repeat constructor; try apply not_failed_rename_ok. exact Hp.
Qed.

Lemma oauth_return_disciplined url req : disciplined (oauth_return url req).
Proof.
  unfold oauth_return.
  assert (Hlog : ∀ l m, not_failed_rename (EvLog l m)) by by intros ?? (? & ? & ? & [=]).
  assert (Hnet : ∀ c, not_failed_rename (EvNet c)) by by intros ? (? & ? & ? & [=]).
  assert (Hfile : ∀ op err, (∀ src dst, op ≠ FRename src dst) →
                            not_failed_rename (EvFile op err)).
  { intros op err Hop (src & dst & e & [= -> _]). by eapply Hop. }
  repeat first
    [ apply disciplined_renames; intros ?;
      solve_steps ltac:(first [done | by intros; apply Hfile])
    | apply disciplined_bind;
      [solve_steps ltac:(first [done | by intros; apply Hfile])|intros ?]
    | match goal with
      | |- disciplined (let '(_, _) := ?x in _) => destruct x as [[? ?] ?]
      end
    | progress cbv zeta ].
Qed.
End Discipline.

(** ** Properties of [oauth_return] *)

Section Return.
Context `{Platform, OAuthLib}.

(** The resolved name is not a provider of the session: the handler stops
    at line 238, having only removed the in-flight record. *)
Lemma oauth_return_unknown url req w provs :
  providers (session w) = Some provs →
  provs !! resolve_provider (session w) url = None →
  oauth_return url req w =
    (inl (Exn Exception_ ("Provider " +:+ resolve_provider (session w) url +:+
                          " not in list of providers")),
     {| session := set_outgoing_provider None (session w);
        filesystem := filesystem w; trace := trace w |}).
Proof.
  intros Hprovs Hn. unfold oauth_return.
  rewrite (bind_ok _ _ w (session w) w) by reflexivity. cbn zeta.
  erewrite bind_ok by apply modify_session_run.
  erewrite bind_ok by (apply session_get_ok; wsimpl; exact Hprovs).
  rewrite bool_decide_eq_true_2 by done.
  erewrite bind_err by reflexivity. reflexivity.
Qed.

(** The session a successful run leaves: the resolved provider is logged
    in, the flags of the others are as they were, and the session flag is
    set exactly when every provider is logged in. *)
Lemma oauth_return_marks url req w r w' :
  oauth_return url req w = (inr r, w') →
  ∃ provs provs' p b,
    providers (session w) = Some provs ∧
    providers (session w') = Some provs' ∧
    provs' !! resolve_provider (session w) url = Some p ∧
    p_logged_in p = true ∧
    (∀ other, other ≠ resolve_provider (session w) url →
              provs' !! other = provs !! other) ∧
    logged_in (session w') = Some b ∧
    (b = true ↔ ∀ name q, provs' !! name = Some q → p_logged_in q = true).
Proof.
  intros (provs & p & kp & ad & cid & ruri & st & sec & turl & token & uurl &
          v & lu & cd & tmpA & tmpR & tmpM & pre & Hrun)%oauth_return_inr.
  cbv zeta in Hrun.
  destruct Hrun as (Hprovs & Hp & _ & _ & _ & _ & _ & _ & _ & _ & _ & _ & _ &
                    _ & Hsess & _).
  set (provs' := <[resolve_provider (session w) url :=
                    set_p_logged_in true (set_username v p)]> provs) in *.
  destruct (check_other_providers_spec provs'
    (set_logged_in true (set_providers provs'
       (set_outgoing_provider None (session w)))))
    as (Hpr & _ & _ & _ & Hall & Hnot).
  rewrite <- Hsess in Hpr, Hall, Hnot. wsimpl.
  assert (Hother : ∀ other, other ≠ resolve_provider (session w) url →
                            provs' !! other = provs !! other).
  { intros other Hne. by apply lookup_insert_ne. }
  destruct (decide (map_Forall (λ _ q, p_logged_in q = true) provs')) as [Ha|Hn].
  - exists provs, provs', (set_p_logged_in true (set_username v p)), true.
    split_and!; [done|done|apply lookup_insert_eq|done|done|by apply Hall|].
    split; [|done]. intros _. by apply map_Forall_lookup.
  - exists provs, provs', (set_p_logged_in true (set_username v p)), false.
    split_and!; [done|done|apply lookup_insert_eq|done|done|by apply Hnot|].
    split; [done|]. intros Hq. destruct Hn. by apply map_Forall_lookup.
Qed.

(** The username a successful run leaves for the resolved provider is the
    one the identity block resolved from the answer to the request to the
    [UserUrl] of its descriptor. *)
Lemma oauth_return_username url req w r w' :
  oauth_return url req w = (inr r, w') →
  ∃ provs' p v cid token user_url,
    providers (session w') = Some provs' ∧
    provs' !! resolve_provider (session w) url = Some p ∧
    username p = Some v ∧
    resolves_identity (oauth_get cid token user_url).2 v.
Proof.
  intros (provs & p & kp & ad & cid & ruri & st & sec & turl & token & uurl &
          v & lu & cd & tmpA & tmpR & tmpM & pre & Hrun)%oauth_return_inr.
  cbv zeta in Hrun.
  destruct Hrun as (Hprovs & Hp & _ & _ & _ & _ & _ & _ & _ & _ & _ & _ & Hid &
                    _ & Hsess & _).
  set (provs' := <[resolve_provider (session w) url :=
                    set_p_logged_in true (set_username v p)]> provs) in *.
  destruct (check_other_providers_spec provs'
    (set_logged_in true (set_providers provs'
       (set_outgoing_provider None (session w))))) as (Hpr & _).
  rewrite <- Hsess in Hpr. wsimpl.
  exists provs', (set_p_logged_in true (set_username v p)), v, cid, token, uurl.
  split_and!; [done|apply lookup_insert_eq|done|done].
Qed.

(** C4.  After every [oauth_return] that marks a provider as logged in,
    that is after every run that ends in the redirect, the session flag is
    the conjunction of the providers' flags: it is [true] exactly when every
    provider of the session is logged in.  The provider marked is the
    resolved one. *)
Theorem oauth_return_logged_in_conjunction url req w r w' :
  oauth_return url req w = (inr r, w') →
  ∃ provs' p b,
    providers (session w') = Some provs' ∧
    provs' !! resolve_provider (session w) url = Some p ∧
    p_logged_in p = true ∧
    logged_in (session w') = Some b ∧
    (b = true ↔ ∀ name q, provs' !! name = Some q → p_logged_in q = true).
Proof.
  intros (provs & provs' & p & b & _ & Hprovs' & Hp & Hin & _ & Hb & Hall)
    %oauth_return_marks.
  by exists provs', p, b.
Qed.

(** C7.  [oauth_return] acts on the in-flight provider recorded by
    [oauth_login] when there is one, and on the name of the callback path
    (with an empty handle) otherwise.  When that name is not a provider of
    the session the handler raises its "not in list of providers" exception
    and the world is the initial one with the in-flight record removed: no
    file was read and no network call was made.  When the handler succeeds,
    the provider it has marked is the resolved one and the other providers
    are as they were. *)
Theorem oauth_return_resolves_in_flight_provider fmt url req w provs :
  providers (session w) = Some provs →
  let provider :=
    match outgoing_provider (session w) with
    | Some in_flight => in_flight
    | None => get_provider_str url ""
    end in
  (∀ in_flight w0 r0,
     oauth_login fmt in_flight w0 = (inr r0, w) → provider = in_flight) ∧
  (provs !! provider = None →
   oauth_return url req w =
     (inl (Exn Exception_ ("Provider " +:+ provider +:+
                           " not in list of providers")),
      {| session := set_outgoing_provider None (session w);
         filesystem := filesystem w; trace := trace w |})) ∧
  (∀ r w', oauth_return url req w = (inr r, w') →
     ∃ provs' p, providers (session w') = Some provs' ∧
       provs' !! provider = Some p ∧ p_logged_in p = true ∧
       ∀ other, other ≠ provider → provs' !! other = provs !! other).
Proof.
  intros Hprovs provider.
  assert (Hres : provider = resolve_provider (session w) url).
  { unfold provider, resolve_provider. by destruct (outgoing_provider _). }
  split_and!.
  - intros in_flight w0 r0 [Hout _]%oauth_login_inr. unfold provider.
    by rewrite Hout.
  - intros Hn. rewrite Hres in Hn |- *. by apply (oauth_return_unknown _ _ _ provs).
  - intros r w' (provs0 & provs' & p & b & Hprovs0 & Hprovs' & Hp & Hin &
                 Hother & _)%oauth_return_marks.
    rewrite <- Hres in *. simplify_eq. by exists provs', p.
Qed.

(** C3.  In every successful [oauth_return], with [token] the response
    of the token exchange: the run ends with the writing of the triad; if
    [token] has a [refresh_token] key, the access file has all the fields of
    [token] but that one, the refresh file is exactly
    [{refresh_token: value}] and the metadata say [use_refresh_token: true];
    if it has none, the access file is [token], the refresh file is exactly
    [{refresh_token: ""}] and the metadata say [use_refresh_token: false]. *)
Theorem oauth_return_splits_refresh_token url req w r w' :
  oauth_return url req w = (inr r, w') →
  ∃ cid st ruri turl sec token dir tmpA tmpR tmpM access refresh metadata pre,
    (fetch_token cid st ruri turl (updated_url req) sec).2 = inr token ∧
    trace w' = trace w ++ pre ++
      triad_events dir (replace_char " " "_" (resolve_provider (session w) url))
        (access, refresh, metadata) tmpA tmpR tmpM ∧
    match token !! "refresh_token" with
    | Some v =>
        access !! "refresh_token" = None ∧
        (∀ k, k ≠ "refresh_token" → access !! k = token !! k) ∧
        refresh = {[ "refresh_token" := v ]} ∧
        metadata !! "use_refresh_token" = Some (JBool true)
    | None =>
        access = token ∧
        refresh = {[ "refresh_token" := JStr "" ]} ∧
        metadata !! "use_refresh_token" = Some (JBool false)
    end.
Proof.
  intros (provs0 & p & kp & ad & cid & ruri & st & sec & turl & token &
      uurl & v & lu & cd & tmpA & tmpR & tmpM & pre & Hrun)%oauth_return_inr.
  cbv zeta in Hrun.
  destruct Hrun as (_ & _ & _ & _ & _ & _ & _ & _ & _ & _ & _ & Htok &
                    _ & _ & _ & Htrace).
  destruct (split_refresh_token cid sec turl token)
    as [[access refresh] metadata] eqn:Hsplit.
  exists cid, st, ruri, turl, sec, token, (path_join cd lu), tmpA, tmpR, tmpM,
    access, refresh, metadata, pre.
  split; [done|]. split; [done|].
  unfold split_refresh_token in Hsplit.
  destruct (token !! "refresh_token") as [rt|] eqn:Hrt;
    injection Hsplit as <- <- <-.
  - split_and!; [apply lookup_delete_eq| |done|by simplify_map_eq].
    intros k Hk. by rewrite lookup_delete_ne.
  - split_and!; [done|done|by simplify_map_eq].
Qed.
(** C1, as amended.  Under the contract of the OAuth library on the state
    ([checks_state], [state_survives_upgrade]), and for a stored state that
    is not empty: whenever the state in the callback URL is not the state
    stored for the resolved provider, [oauth_return] raises, whatever the
    code in the URL.  Up to that
    exception no network call was made, the file system is untouched, and the
    providers and the session flag are as they were.  The exception is the
    library's [MismatchingStateError] as soon as the exchange can be
    attempted, that is when the descriptor of the provider can be read from
    the key file with its [ClientId], [ReturnUrl], [ClientSecret] and an
    https [TokenUrl], and the callback URL is an http or https one; it is
    the exception of the step that fails before the exchange otherwise. *)
Theorem oauth_return_rejects_state_mismatch url req w provs p st :
  checks_state → state_survives_upgrade updated_url →
  providers (session w) = Some provs →
  provs !! resolve_provider (session w) url = Some p →
  state p = Some st → st ≠ "" →
  url_state req ≠ Some st →
  ∃ e w' evs,
    oauth_return url req w = (inl e, w') ∧
    trace w' = trace w ++ evs ∧ no_net evs ∧
    filesystem w' = filesystem w ∧
    providers (session w') = Some provs ∧
    logged_in (session w') = logged_in (session w) ∧
    (∀ kp (ad : ClassAd) w1 token_url,
       key_path (session w) = Some kp →
       get_provider_ad (resolve_provider (session w) url) kp
         {| session := set_outgoing_provider None (session w);
            filesystem := filesystem w; trace := trace w |} = (inr ad, w1) →
       is_Some (ad !! "ClientId") → is_Some (ad !! "ReturnUrl") →
       is_Some (ad !! "ClientSecret") → ad !! "TokenUrl" = Some token_url →
       secure_transport token_url = true →
       startswith "http://" req || startswith "https://" req = true →
       exn_cls e = MismatchingStateError).
Proof.
  intros Hlib Hup Hprovs Hp Hst Hne Hreq.
  set (provider := resolve_provider (session w) url) in *.
  set (w0 := {| session := set_outgoing_provider None (session w);
                filesystem := filesystem w; trace := trace w |}).
  destruct (oauth_return url req w) as [r w'] eqn:Hrun.
  set (attempted := λ e : exn,
    ∀ kp (ad : ClassAd) w2 token_url, key_path (session w) = Some kp →
       get_provider_ad provider kp w0 = (inr ad, w2) →
       is_Some (ad !! "ClientId") → is_Some (ad !! "ReturnUrl") →
       is_Some (ad !! "ClientSecret") → ad !! "TokenUrl" = Some token_url →
       secure_transport token_url = true →
       startswith "http://" req || startswith "https://" req = true →
       exn_cls e = MismatchingStateError).
  assert (Hquiet : ∀ e evs,
    r = inl e → session w' = session w0 → filesystem w' = filesystem w →
    trace w' = trace w ++ evs → no_net evs → attempted e →
    ∃ e w'0 evs,
    (r, w') = (inl e, w'0) ∧
    trace w'0 = trace w ++ evs ∧ no_net evs ∧
    filesystem w'0 = filesystem w ∧
    providers (session w'0) = Some provs ∧
    logged_in (session w'0) = logged_in (session w) ∧ attempted e).
  { intros e evs Hr Hs Hf Ht Hn Hcls. exists e, w', evs.
    rewrite Hs, Hr. by split_and!. }
  assert (Hnil : trace w = trace w ++ []) by by rewrite app_nil_r.
  unfold oauth_return in Hrun.
  rewrite (bind_ok _ _ w (session w) w) in Hrun by reflexivity. cbv zeta in Hrun.
  erewrite bind_ok in Hrun by apply modify_session_run. fold provider w0 in Hrun.
  erewrite bind_ok in Hrun by (apply session_get_ok; exact Hprovs).
  rewrite bool_decide_eq_false_2 in Hrun by (by rewrite Hp).
  erewrite bind_ok in Hrun by reflexivity.
  apply bind_inv in Hrun as [(e & Hs & ->)|(kp & ? & Hs & Hrun)].
  { rewrite session_get_eq in Hs. destruct (key_path (session w0)) eqn:Hkp;
      [discriminate Hs|]. injection Hs as <- <-.
    eapply Hquiet; try done; [constructor|]. intros kp ad w2 turl Hkp'.
    subst w0. wsimpl. congruence. }
  apply session_get_inr in Hs as [Hkp ->].
  apply bind_inv in Hrun as [(e & Hs & ->)|(ad & ? & Hs & Hrun)].
  { pose proof Hs as Hs'.
    apply get_provider_ad_run in Hs as (evs & -> & o & logs & Hlogs & ->).
    eapply Hquiet; try done.
    - repeat constructor. destruct o; [|constructor]. repeat constructor.
      eapply Forall_impl; [exact Hlogs|]. by intros ? (? & ? & ->).
    - intros kp' ad w2 turl Hkp'. subst w0. wsimpl. simplify_eq.
      rewrite Hs'. done. }
  pose proof Hs as Had.
  apply get_provider_ad_run in Hs as (evs & -> & ->).
  assert (Hev : no_net [EvFile (FExists kp) None; EvFile (FOpenAds kp) None])
    by by repeat constructor.
  assert (Hsame : ∀ kp' (ad' : ClassAd) w2, key_path (session w) = Some kp' →
       get_provider_ad provider kp' w0 = (inr ad', w2) → ad' = ad).
  { intros kp' ad' w2 Hkp'. subst w0. wsimpl. simplify_eq. rewrite Had.
    by intros [= ->]. }
  apply bind_inv in Hrun as [(e & Hs & ->)|(cid & ? & Hs & Hrun)].
  { rewrite getitem_eq in Hs. destruct (ad !! "ClientId") eqn:Hx;
      [discriminate Hs|]. injection Hs as <- <-.
    eapply Hquiet; try done. intros kp' ad' w2 turl Hkp' ->%Hsame; [|done].
    rewrite Hx. by intros []. }
  apply getitem_inr in Hs as [Hcid ->].
  apply bind_inv in Hrun as [(e & Hs & ->)|(ruri & ? & Hs & Hrun)].
  { rewrite getitem_eq in Hs. destruct (ad !! "ReturnUrl") eqn:Hx;
      [discriminate Hs|]. injection Hs as <- <-.
    eapply Hquiet; try done. intros kp' ad' w2 turl Hkp' ->%Hsame; [|done].
    rewrite Hx. by intros _ []. }
  apply getitem_inr in Hs as [Hruri ->].
  apply bind_inv in Hrun as [(e & Hs & ->)|(p' & ? & Hs & Hrun)].
  { unfold session_provider in Hs.
    erewrite bind_ok in Hs by (apply session_get_ok; exact Hprovs).
    rewrite getitem_eq, Hp in Hs. discriminate Hs. }
  unfold session_provider in Hs.
  erewrite bind_ok in Hs by (apply session_get_ok; exact Hprovs).
  apply getitem_inr in Hs as [Hp' ->]. simplify_eq.
  erewrite bind_ok in Hrun by (rewrite getitem_eq, Hst; reflexivity).
  apply bind_inv in Hrun as [(e & Hs & ->)|(sec & ? & Hs & Hrun)].
  { rewrite getitem_eq in Hs. destruct (ad !! "ClientSecret") eqn:Hx;
      [discriminate Hs|]. injection Hs as <- <-.
    eapply Hquiet; try done. intros kp' ad' w2 turl Hkp' ->%Hsame; [|done].
    rewrite Hx. by intros _ _ []. }
  apply getitem_inr in Hs as [Hsec ->].
  apply bind_inv in Hrun as [(e & Hs & ->)|(turl & ? & Hs & Hrun)].
  { rewrite getitem_eq in Hs. destruct (ad !! "TokenUrl") eqn:Hx;
      [discriminate Hs|]. injection Hs as <- <-.
    eapply Hquiet; try done. intros kp' ad' w2 turl Hkp' ->%Hsame; [|done].
    by rewrite Hx. }
  apply getitem_inr in Hs as [Hturl ->].
  destruct (Hlib cid st ruri turl (updated_url req) sec Hne) as (e & Hfetch & Hcls).
  { by rewrite Hup. }
  rewrite bind_unfold in Hrun. unfold net_op in Hrun. rewrite Hfetch in Hrun.
  injection Hrun as <- <-.
  eapply Hquiet; try done; [wsimpl; by rewrite app_nil_r|].
  intros kp' ad' w2 turl' Hkp' ->%Hsame; [|done].
  intros _ _ _ Hturl' Hsecure Hscheme. simplify_eq.
  apply Hcls; [done|]. by apply updated_url_secure.
Qed.

(** C2, as amended.  When one of the three renames of a run of
    [oauth_return] fails with an [OSError], that rename is the last file
    operation of the run: the renames after it are not attempted and nothing
    undoes the renames before it.  The [OSError] does not reach the caller:
    if the run ends in an exception, it is not an [OSError]. *)
Theorem oauth_return_rename_failure url req w r w' evs src dst e :
  oauth_return url req w = (r, w') →
  trace w' = trace w ++ evs →
  EvFile (FRename src dst) (Some e) ∈ evs →
  isinstance e OSError = true →
  (∃ pre post,
     evs = pre ++ EvFile (FRename src dst) (Some e) :: post ∧
     Forall not_failed_rename pre ∧
     Forall (λ ev, is_file_event ev = false) post) ∧
  (∀ e', r = inl e' → isinstance e' OSError = false).
Proof.
  intros Hrun Ht Hin He.
  apply oauth_return_disciplined in Hrun as (evs' & Ht' & Hout).
  rewrite Ht in Ht'. apply app_inv_head in Ht' as <-.
  destruct Hout as [Hnone|(pre & src' & dst' & e0 & e' & -> & Hpre & -> & Hcls)].
  - apply (proj1 (Forall_forall _ _) Hnone) in Hin. destruct Hin. by eexists _, _, _.
  - apply elem_of_app in Hin as [Hin|Hin].
    + apply (proj1 (Forall_forall _ _) Hpre) in Hin. destruct Hin. by eexists _, _, _.
    + apply list_elem_of_singleton in Hin as [= -> -> ->]. split.
      * by exists pre, [].
      * intros e'' [= <-]. by apply Hcls.
Qed.

Lemma get_user_info_missing_url provider (ad : ClassAd) cid token w :
  ad !! "UserUrl" = None →
  get_user_info provider ad cid token w = (inl (Exn KeyError "UserUrl"), w).
Proof.
  intros Hurl. unfold get_user_info, try_except.
  rewrite bind_unfold, getitem_eq, Hurl. done.
Qed.

(** C6, as amended.  The identity block of [oauth_return], for a provider
    of the session whose descriptor has a [UserUrl]: when the response
    decodes to a JSON object, the username stored is its [login] field if
    present, else its [sub] field if present, else ["Unknown"]; when it
    decodes to a JSON document that is not an object, the block stores
    ["Unknown"] or raises a [TypeError]; when the request or the decoding
    raises a [ValueError] (a body that is not JSON), the username stored is
    ["Unknown"] and nothing is raised; when they raise any other exception,
    the block raises it, and [oauth_return] with it. *)
Theorem get_user_info_resolution provider (ad : ClassAd) cid token w provs p
    user_url :
  providers (session w) = Some provs →
  provs !! provider = Some p →
  ad !! "UserUrl" = Some user_url →
  let after :=
    {| session := session w; filesystem := filesystem w;
       trace := trace w ++ (EvNet <$> (oauth_get cid token user_url).1) |} in
  let stored v :=
    (inr (),
     {| session := set_providers (<[provider := set_username v p]> provs)
                     (session w);
        filesystem := filesystem w; trace := trace after |}) in
  match (oauth_get cid token user_url).2 with
  | inr (inr (JObj user_info)) =>
      get_user_info provider ad cid token w =
        stored match user_info !! "login", user_info !! "sub" with
               | Some login, _ => login
               | None, Some sub => sub
               | None, None => JStr "Unknown"
               end
  | inr (inr _) =>
      (∃ msg, get_user_info provider ad cid token w =
                (inl (Exn TypeError msg), after)) ∨
      get_user_info provider ad cid token w = stored (JStr "Unknown")
  | inr (inl e) | inl e =>
      get_user_info provider ad cid token w =
        if isinstance e ValueError then stored (JStr "Unknown")
        else (inl e, after)
  end.
Proof.
  intros Hprovs Hp Hurl after stored.
  assert (Hstore : ∀ v w1, w1 = after →
            update_provider provider (set_username v) w1 = stored v).
  { intros v w1 ->. rewrite update_provider_eq. subst after stored. wsimpl.
    by rewrite Hprovs, Hp. }
  unfold get_user_info, try_except.
  rewrite bind_unfold, getitem_eq, Hurl, bind_unfold. unfold net_op.
  fold after.
  destruct (oauth_get cid token user_url).2 as [e|[e|info]] eqn:Hget.
  - destruct (isinstance e ValueError); [by apply Hstore|done].
  - rewrite bind_unfold, lift_eq.
    destruct (isinstance e ValueError); [by apply Hstore|done].
  - destruct info as [| | |str|l|o];
      rewrite bind_unfold, lift_eq, bind_unfold, lift_eq; cbn [py_in py_getitem];
      try (left; eexists; reflexivity).
    { destruct (contains "login" str);
        [left; eexists; rewrite bind_unfold, lift_eq; reflexivity|].
      rewrite bind_unfold, lift_eq.
      destruct (contains "sub" str);
        [left; eexists; rewrite bind_unfold, lift_eq; reflexivity|].
      right. rewrite Hstore by done. done. }
    { destruct (existsb _ l);
        [left; eexists; rewrite bind_unfold, lift_eq; reflexivity|].
      rewrite bind_unfold, lift_eq.
      destruct (existsb _ l);
        [left; eexists; rewrite bind_unfold, lift_eq; reflexivity|].
      right. rewrite Hstore by done. done. }
    destruct (o !! "login") as [login|] eqn:Hlogin.
    + rewrite bool_decide_eq_true_2 by done.
      rewrite bind_unfold, lift_eq, Hstore by done. done.
    + rewrite bool_decide_eq_false_2 by (by intros []).
      rewrite bind_unfold, lift_eq.
      destruct (o !! "sub") as [sub|] eqn:Hsub.
      * rewrite bool_decide_eq_true_2 by done.
        rewrite bind_unfold, lift_eq, Hstore by done. done.
      * rewrite bool_decide_eq_false_2 by (by intros []).
        rewrite Hstore by done. done.
Qed.

Lemma length_append (a b : string) :
  String.length (a +:+ b) = (String.length a + String.length b)%nat.
Proof. induction a as [|c a IH]; simpl; [done|]. by f_equal. Qed.

Lemma rstrip_by_app_keep p (a b : string) :
  rstrip_by p b ≠ "" → rstrip_by p (a +:+ b) = a +:+ rstrip_by p b.
Proof.
  intros Hb. induction a as [|c a IH]; simpl; [done|]. rewrite IH.
  destruct a; simpl; [|done]. by destruct (rstrip_by p b).
Qed.

Lemma rstrip_by_app_drop p (a b : string) :
  rstrip_by p b = "" → rstrip_by p (a +:+ b) = rstrip_by p a.
Proof. intros Hb. induction a as [|c a IH]; simpl; [done|]. by rewrite IH. Qed.

Lemma length_rstrip_by p (s : string) :
  (String.length (rstrip_by p s) ≤ String.length s)%nat.
Proof.
  induction s as [|c s IH]; simpl; [done|].
  destruct (rstrip_by p s); [destruct (p c)|]; simpl in *; lia.
Qed.

(** A provider with a handle that is not blank is not known under the
    name of the provider alone. *)
Lemma get_provider_str_handle provider handle :
  rstrip_sp handle ≠ "" →
  get_provider_str provider handle = provider +:+ " " +:+ rstrip_sp handle ∧
  get_provider_str provider "" ≠ get_provider_str provider handle.
Proof.
  intros Hh. unfold get_provider_str.
  change (" " +:+ handle) with (String " " handle).
  change (" " +:+ "") with (String " " "").
  change (" " +:+ rstrip_sp handle) with (String " " (rstrip_sp handle)).
  assert (Hsp : rstrip_sp (String " " handle) = String " " (rstrip_sp handle)).
  { unfold rstrip_sp in *. simpl. by destruct (rstrip_by is_space handle). }
  assert (Hfull : rstrip_sp (provider +:+ String " " handle) =
                  provider +:+ String " " (rstrip_sp handle)).
  { unfold rstrip_sp in *. rewrite rstrip_by_app_keep; [by rewrite Hsp|].
    rewrite Hsp. done. }
  split; [exact Hfull|]. rewrite Hfull. intros Heq.
  apply (f_equal String.length) in Heq.
  unfold rstrip_sp in Heq. rewrite rstrip_by_app_drop in Heq by done.
  rewrite !length_append in Heq.
  pose proof (length_rstrip_by is_space provider). simpl in Heq. lia.
Qed.

(** C10, as amended.  Every run of [oauth_return] ends with the in-flight
    record removed.  With no in-flight record, the handler acts on
    [get_provider_str(name, '')] for the [name] of the callback path: it
    raises the unknown-provider exception, before any file or network
    access, when that is not a provider of the session, and marks that
    provider when it succeeds.  A provider whose handle is not blank is
    never known under the bare name of its [Provider]: a callback whose path
    carries the bare name does not resolve to it. *)
Theorem oauth_return_fallback url req w :
  (∀ r w', oauth_return url req w = (r, w') →
           outgoing_provider (session w') = None) ∧
  (outgoing_provider (session w) = None →
   (∀ provs, providers (session w) = Some provs →
      provs !! get_provider_str url "" = None →
      ∃ w', oauth_return url req w =
              (inl (Exn Exception_ ("Provider " +:+ get_provider_str url "" +:+
                                    " not in list of providers")), w') ∧
            trace w' = trace w ∧ filesystem w' = filesystem w) ∧
   (∀ r w', oauth_return url req w = (inr r, w') →
      ∃ provs' q, providers (session w') = Some provs' ∧
        provs' !! get_provider_str url "" = Some q ∧ p_logged_in q = true)) ∧
  (∀ provider handle, rstrip_sp handle ≠ "" →
     get_provider_str provider "" ≠ get_provider_str provider handle).
Proof.
  split_and!.
  - intros r w'. apply oauth_return_pops_outgoing_provider.
  - intros Hout.
    assert (Hres : resolve_provider (session w) url = get_provider_str url "").
    { unfold resolve_provider. by rewrite Hout. }
    split.
    + intros provs Hprovs Hnone. eexists. rewrite <- Hres in *.
      split; [by apply (oauth_return_unknown _ _ _ provs)|done].
    + intros r w' (provs0 & provs' & q & b & _ & Hprovs' & Hq & Hin & _)
        %oauth_return_marks.
      rewrite Hres in Hq. by exists provs', q.
  - intros provider handle Hh. by apply get_provider_str_handle.
Qed.

End Return.

(** ** Properties of [key] *)

Section Key.
Context `{Platform}.

Lemma key_loop_lookup ads (acc : gmap string ProviderSession) :
  Forall (λ ad, is_Some (ad !! "Provider")) ads →
  ∃ provs, key_loop ads acc = inr provs ∧
    ∀ name, provs !! name =
      match last (filter (λ ad, ad_provider_str ad = Some name) ads) with
      | Some ad => Some (new_provider_session ad)
      | None => acc !! name
      end.
Proof.
  revert acc. induction ads as [|ad ads IH]; intros acc Hall.
  - exists acc. by split.
  - apply Forall_cons in Hall as [[p Hp] Hall]. 
    destruct (IH (<[get_provider_str p (default "" (ad !! "Handle")) :=
                    new_provider_session ad]> acc) Hall) as (provs & Hk & Hl).
    exists provs. split; [cbn [key_loop]; by rewrite Hp|]. intros name. rewrite Hl, filter_cons.
    case_decide as Hname; unfold ad_provider_str in Hname; rewrite Hp in Hname;
      cbn [fmap option_fmap option_map] in Hname.
    + injection Hname as <-. rewrite lookup_insert_eq.
      by destruct (filter _ ads) as [|x l] using rev_ind;
        [|rewrite app_comm_cons, !last_snoc].
    + rewrite lookup_insert_ne; [done|]. congruence.
Qed.

(** The check of line 143 looks at the first character of the key id:
    the id is refused, before anything else happens, exactly when it is
    empty or starts with a character that is not a hexadecimal digit. *)
Lemma re_match_hex_head key_id :
  re_match_hex key_id = None ↔
  match key_id with
  | EmptyString => True
  | String c _ => is_hex_digit c = false
  end.
Proof.
  unfold re_match_hex. destruct key_id as [|c rest]; simpl; [done|].
  destruct (is_hex_digit c); split; done.
Qed.

Lemma key_refuses key_id w :
  re_match_hex key_id = None →
  key key_id w =
    (inl (Exn Exception_ ("Key id " +:+ key_id +:+ " is not a valid key")), w).
Proof.
  intros Hm. unfold key. rewrite Hm. by rewrite bind_unfold.
Qed.

Lemma key_ok key_id w ads ad u :
  re_match_hex key_id ≠ None → key_file_at key_id w ads →
  Forall (λ ad, is_Some (ad !! "Provider")) ads →
  last ads = Some ad → ad !! "LocalUser" = Some u →
  ∃ cred_dir provs logs1 logs2,
    get_cred_dir = inr cred_dir ∧ key_loop ads ∅ = inr provs ∧
    only_logs logs1 ∧ only_logs logs2 ∧
    key key_id w =
      (inr ({| providers := Some provs; logged_in := Some false;
               key_path := Some (path_join cred_dir key_id);
               local_username := Some u; outgoing_provider := None |},
            render_template "index.html"),
       {| session := session w; filesystem := filesystem w;
          trace := trace w ++ [EvFile (FExists (path_join cred_dir key_id)) None] ++
                   logs1 ++ [EvFile (FOpenAds (path_join cred_dir key_id)) None] ++
                   logs2 |}).
Proof.
  intros Hre (cd & Hcd & Hex & Hopen) Hall Hlast Hu.
  destruct (key_loop_lookup ads ∅ Hall) as (provs & Hloop & _).
  unfold key.
  destruct (re_match_hex key_id); [|done].
  erewrite bind_ok by reflexivity.
  erewrite bind_ok by (rewrite lift_eq, Hcd; reflexivity).
  cbv zeta.
  erewrite bind_ok by (unfold os_path_exists, file_op; rewrite Hex; reflexivity).
  cbn [negb]. erewrite bind_ok by reflexivity.
  match goal with |- context [print ?s ≫= _] =>
    destruct (print_run s {| session := session w; filesystem := filesystem w;
      trace := trace w ++ [EvFile (FExists (path_join cd key_id)) None] |})
      as (logs1 & Hlogs1 & Hpr1) end.
  erewrite bind_ok by exact Hpr1.
  erewrite bind_ok by (unfold classad_parseAds, file_op; wsimpl; rewrite Hopen; reflexivity).
  cbv beta iota zeta.
  erewrite bind_ok by (rewrite lift_eq, Hloop; reflexivity).
  cbv beta iota zeta.
  erewrite bind_ok by reflexivity.
  rewrite Hlast.
  erewrite bind_ok by reflexivity.
  erewrite bind_ok by (rewrite getitem_eq, Hu; reflexivity).
  match goal with |- context [print ?s ≫= _] =>
    match goal with |- context [(_ ≫= _) ?w0] =>
    destruct (print_run s w0) as (logs2 & Hlogs2 & Hpr2) end end.
  erewrite bind_ok by exact Hpr2.
  exists cd, provs, logs1, logs2. split_and!; try done.
  unfold ret. wsimpl. by rewrite <- !app_assoc.
Qed.

Lemma remove_dups_length_congr {A B C} `{EqDecision B, EqDecision C}
    (f : A → B) (g : A → C) (l : list A) :
  (∀ a b, a ∈ l → b ∈ l → f a = f b ↔ g a = g b) →
  length (remove_dups (f <$> l)) = length (remove_dups (g <$> l)).
Proof.
  induction l as [|x l IH]; intros Hfg; [done|].
  assert (Hin : f x ∈ f <$> l ↔ g x ∈ g <$> l).
  { rewrite !list_elem_of_fmap. split; intros (b & Hb & Hbl); exists b;
      (split; [|done]); apply (Hfg x b); (apply list_elem_of_here || (by right) || done). }
  assert (IH' : length (remove_dups (f <$> l)) = length (remove_dups (g <$> l))).
  { apply IH. intros a b Ha Hb. apply Hfg; by right. }
  cbn [fmap list_fmap remove_dups].
  change (list_fmap A B f l) with (f <$> l).
  change (list_fmap A C g l) with (g <$> l).
  destruct (decide_rel elem_of (f x) (f <$> l)), (decide_rel elem_of (g x) (g <$> l));
    cbn [length]; tauto || (by rewrite IH').
Qed.

Lemma size_list_to_set_remove_dups (l : list string) :
  size (list_to_set l : gset string) = length (remove_dups l).
Proof.
  rewrite <- (size_list_to_set (C := gset string) (remove_dups l))
    by apply NoDup_remove_dups.
  f_equal. apply set_eq. intros x.
  by rewrite !elem_of_list_to_set, elem_of_remove_dups.
Qed.

Lemma omap_ad_provider_str ads :
  Forall (λ ad : ClassAd, is_Some (ad !! "Provider")) ads →
  omap ad_provider_str ads =
    (λ ad, get_provider_str (provider_handle ad).1 (provider_handle ad).2) <$> ads.
Proof.
  induction 1 as [|ad ads [p Hp] _ IH]; [done|].
  cbn [omap list_omap fmap list_fmap]. unfold ad_provider_str at 1.
  unfold provider_handle at 1 2. rewrite Hp. cbn. f_equal. exact IH.
Qed.

(** X25.  On every key file that [key] can read and whose records carry a
    [Provider], the local username of the dict that [key] builds (its
    [session_dict]; line 175 binds it to a local name and it is not stored
    in the Flask session) is the [LocalUser] of the last record of the file,
    whatever the [LocalUser] of the records before it (they may differ from
    it, or be absent). *)
Theorem key_local_username_is_last key_id w ads ad u :
  re_match_hex key_id ≠ None → key_file_at key_id w ads →
  Forall (λ ad, is_Some (ad !! "Provider")) ads →
  last ads = Some ad → ad !! "LocalUser" = Some u →
  ∃ s resp w', key key_id w = (inr (s, resp), w') ∧ local_username s = Some u.
Proof.
  intros Hre Hfile Hall Hlast Hu.
  destruct (key_ok key_id w ads ad u Hre Hfile Hall Hlast Hu)
    as (cd & provs & logs1 & logs2 & _ & _ & _ & _ & Hkey).
  eexists _, _, _. split; [exact Hkey|done].
Qed.

(** X24.  On every valid key file, the providers of the dict that [key]
    builds (its [session_dict]; line 175 binds it to a local name and it is
    not stored in the Flask session) are exactly the names
    [get_provider_str(Provider, Handle)] of the records: one entry per
    distinct name.  Each is not logged in, has neither state nor username,
    and carries the comma-split, trimmed [Scopes] and the [Audience] of the
    last record of that name, when that record has them.  When no two
    distinct [(Provider, Handle)] pairs of the file share a name, there are
    as many entries as distinct pairs. *)
Theorem key_one_session_per_provider_str key_id w ads :
  re_match_hex key_id ≠ None → key_file_at key_id w ads → valid_key_file ads →
  ∃ s resp w' provs,
    key key_id w = (inr (s, resp), w') ∧ providers s = Some provs ∧
    dom provs = list_to_set (omap ad_provider_str ads) ∧
    (∀ name p, provs !! name = Some p →
       ∃ ad, last (filter (λ ad, ad_provider_str ad = Some name) ads) = Some ad ∧
         p_logged_in p = false ∧
         requested_scopes p = split_scopes <$> ad !! "Scopes" ∧
         requested_resource p = ad !! "Audience" ∧
         state p = None ∧ username p = None) ∧
    ((∀ a b, a ∈ ads → b ∈ ads → ad_provider_str a = ad_provider_str b →
             provider_handle a = provider_handle b) →
     size provs = length (remove_dups (provider_handle <$> ads))).
Proof.
  intros Hre Hfile [Hne Hvalid].
  assert (Hall : Forall (λ ad : ClassAd, is_Some (ad !! "Provider")) ads).
  { eapply Forall_impl; [exact Hvalid|]. by intros ad [? _]. }
  destruct (last ads) as [ad|] eqn:Hlast; last first.
  { by apply last_None in Hlast. }
  assert (is_Some (ad !! "LocalUser")) as [u Hu].
  { apply last_Some_elem_of in Hlast.
    by apply (proj1 (Forall_forall _ _) Hvalid ad) in Hlast as [_ ?]. }
  destruct (key_ok key_id w ads ad u Hre Hfile Hall Hlast Hu)
    as (cd & provs & logs1 & logs2 & _ & Hloop & _ & _ & Hkey).
  destruct (key_loop_lookup ads ∅ Hall) as (provs' & Hloop' & Hlook).
  rewrite Hloop in Hloop'. injection Hloop' as <-.
  assert (Hdom : dom provs = list_to_set (omap ad_provider_str ads)).
  { apply set_eq. intros name. rewrite elem_of_dom, elem_of_list_to_set,
      list_elem_of_omap, Hlook.
    destruct (last (filter _ ads)) as [ad'|] eqn:Hl.
    - apply last_Some_elem_of, list_elem_of_filter in Hl as [Hn Hin].
      split; [|by eauto]. intros _. by exists ad'.
    - rewrite lookup_empty. split; [by intros []|].
      intros (ad' & Hin & Hn). apply last_None in Hl.
      assert (ad' ∈ filter (λ ad0, ad_provider_str ad0 = Some name) ads) as Hf
        by by apply list_elem_of_filter.
      rewrite Hl in Hf. by apply elem_of_nil in Hf. }
  eexists _, _, _, provs. split; [exact Hkey|]. split; [done|].
  split; [exact Hdom|]. split.
  - intros name p. rewrite Hlook.
    destruct (last (filter _ ads)) as [ad'|]; [|by rewrite lookup_empty].
    intros [= <-]. by exists ad'.
  - intros Hinj.
    rewrite <- size_dom, Hdom, size_list_to_set_remove_dups.
    rewrite omap_ad_provider_str by exact Hall.
    apply remove_dups_length_congr. intros a b Ha Hb. split.
    + intros Hab. apply Hinj; [done..|].
      apply (proj1 (Forall_forall _ _) Hall) in Ha as [pa Ha], Hb as [pb Hb].
      unfold ad_provider_str. unfold provider_handle in Hab.
      rewrite Ha, Hb in Hab |- *. cbn in Hab |- *. by f_equal.
    + by intros ->.
Qed.
End Key.

(** ** Display names, scopes and URLs *)

Lemma last_char_rstrip_by p s c :
  last_char (rstrip_by p s) = Some c → p c = false.
Proof.
  induction s as [|a s IH]; simpl; [done|].
  destruct (rstrip_by p s) as [|b r] eqn:Hr.
  - destruct (p a) eqn:Ha; simpl; [done|]. by intros [= <-].
  - exact IH.
Qed.

Lemma rstrip_by_idemp p s : rstrip_by p (rstrip_by p s) = rstrip_by p s.
Proof.
  induction s as [|a s IH]; simpl; [done|].
  destruct (rstrip_by p s) as [|b r] eqn:Hr.
  - destruct (p a) eqn:Ha; simpl; [done|]. by rewrite Ha.
  - change (rstrip_by p (String a (String b r)))
      with (match rstrip_by p (String b r) with
            | EmptyString => if p a then EmptyString else String a EmptyString
            | r' => String a r'
            end).
    by rewrite IH.
Qed.

Lemma get_provider_str_empty_handle provider :
  get_provider_str provider "" = rstrip_sp provider.
Proof.
  unfold get_provider_str, rstrip_sp. by rewrite rstrip_by_app_drop.
Qed.

(** X1.  The display name of a provider never ends in a space, and it is its
    own display name: used as a name with an empty handle, as the fallback
    of [oauth_return] does with the name of the callback path, it gives
    itself. *)
Theorem get_provider_str_normal provider handle :
  last_char (get_provider_str provider handle) ≠ Some " "%char ∧
  get_provider_str (get_provider_str provider handle) "" =
    get_provider_str provider handle.
Proof.
  split.
  - intros Hl. by apply last_char_rstrip_by in Hl.
  - rewrite get_provider_str_empty_handle. apply rstrip_by_idemp.
Qed.

(** *** Stripping white space *)

Lemma rstrip_seq_idemp ws s :
  rstrip_seq ws (rstrip_seq ws s) = rstrip_seq ws s.
Proof.
  induction s as [|a s IH]; [done|]. cbn [rstrip_seq].
  destruct (ws (String a (rstrip_seq ws s))) eqn:Ha; [done|].
  cbn [rstrip_seq]. by rewrite IH, Ha.
Qed.

(** A string that [rstrip_seq] leaves alone has no tail that it would
    shorten. *)
Lemma rstrip_seq_tail ws a s :
  rstrip_seq ws (String a s) = String a s → rstrip_seq ws s = s.
Proof.
  cbn [rstrip_seq]. destruct (ws (String a (rstrip_seq ws s))); [done|].
  by intros [= ->].
Qed.

(** What [lstrip_seq] returns: the string itself, which it then leaves
    alone, or what it returns on one of the first three tails. *)
Lemma lstrip_seq_cases ws s :
  lstrip_seq ws s = s ∨
  ∃ c1 s1, s = String c1 s1 ∧
    (lstrip_seq ws s = lstrip_seq ws s1 ∨
     ∃ c2 s2, s1 = String c2 s2 ∧
       (lstrip_seq ws s = lstrip_seq ws s2 ∨
        ∃ c3 s3, s2 = String c3 s3 ∧ lstrip_seq ws s = lstrip_seq ws s3)).
Proof.
  destruct s as [|c1 s1]; [by left|]. cbn [lstrip_seq].
  destruct (ws (String c1 "")); [right; by eauto 10|].
  destruct s1 as [|c2 s2]; [by left|].
  destruct (ws (String c1 (String c2 ""))); [right; by eauto 10|].
  destruct s2 as [|c3 s3]; [by left|].
  destruct (ws (String c1 (String c2 (String c3 "")))); [|by left].
  right. eauto 12.
Qed.

Lemma lstrip_seq_strong ws n s :
  (String.length s ≤ n)%nat →
  lstrip_seq ws (lstrip_seq ws s) = lstrip_seq ws s ∧
  (rstrip_seq ws s = s →
   rstrip_seq ws (lstrip_seq ws s) = lstrip_seq ws s).
Proof.
  revert s. induction n as [|n IH]; intros s Hn.
  { destruct s; [done|]. cbn in Hn. lia. }
  destruct (lstrip_seq_cases ws s) as [Hid|(c1 & s1 & -> & Hc)].
  { rewrite !Hid. by split. }
  cbn [String.length] in Hn.
  destruct Hc as [->|(c2 & s2 & -> & Hc)].
  { destruct (IH s1 ltac:(lia)) as [Hl Hr]. split; [done|].
    intros Hs%rstrip_seq_tail. by apply Hr. }
  cbn [String.length] in Hn.
  destruct Hc as [->|(c3 & s3 & -> & ->)].
  { destruct (IH s2 ltac:(lia)) as [Hl Hr]. split; [done|].
    intros Hs%rstrip_seq_tail%rstrip_seq_tail. by apply Hr. }
  cbn [String.length] in Hn.
  destruct (IH s3 ltac:(lia)) as [Hl Hr]. split; [done|].
  intros Hs%rstrip_seq_tail%rstrip_seq_tail%rstrip_seq_tail. by apply Hr.
Qed.

Lemma lstrip_seq_idemp ws s :
  lstrip_seq ws (lstrip_seq ws s) = lstrip_seq ws s.
Proof. by apply (lstrip_seq_strong ws (String.length s)). Qed.

Lemma rstrip_seq_lstrip_seq ws s :
  rstrip_seq ws s = s → rstrip_seq ws (lstrip_seq ws s) = lstrip_seq ws s.
Proof. by apply (lstrip_seq_strong ws (String.length s)). Qed.

Lemma split_nonempty sep s : split sep s ≠ [].
Proof.
  destruct s as [|c s]; simpl; [done|].
  case_bool_decide; [done|]. by destruct (split sep s).
Qed.

Lemma length_split sep s :
  length (split sep s) =
    S (length (filter (λ c, c = sep) (list_ascii_of_string s))).
Proof.
  induction s as [|c s IH]; [done|]. cbn [split list_ascii_of_string].
  rewrite filter_cons. pose proof (split_nonempty sep s) as Hne.
  case_bool_decide as Hc.
  - rewrite decide_True by done. cbn [length]. by rewrite IH.
  - rewrite decide_False by done. rewrite <- IH.
    by destruct (split sep s).
Qed.

(** X2.  Every requested scope is trimmed: it has no white space at either
    end.  There is one scope more than there are commas in [Scopes]: an
    empty [Scopes] gives one empty scope. *)
Theorem split_scopes_trimmed scopes :
  length (split_scopes scopes) =
    S (length (filter (λ c, c = ","%char) (list_ascii_of_string scopes))) ∧
  Forall (λ s, lstrip s = s ∧ rstrip s = s) (split_scopes scopes).
Proof.
  unfold split_scopes. split.
  - rewrite length_fmap. apply length_split.
  - apply Forall_fmap, Forall_forall. intros s _. cbn. split.
    + apply lstrip_seq_idemp.
    + apply rstrip_seq_lstrip_seq, rstrip_seq_idemp.
Qed.

Lemma concat_split sep s :
  String.concat (String sep "") (split sep s) = s.
Proof.
  induction s as [|c s IH]; [done|]. cbn [split].
  pose proof (split_nonempty sep s) as Hne.
  destruct (split sep s) as [|w ws]; [done|].
  case_bool_decide as Hc.
  - subst c.
    change (String.concat (String sep "") ("" :: w :: ws))
      with (String sep (String.concat (String sep "") (w :: ws))).
    by rewrite IH.
  - transitivity (String c (String.concat (String sep "") (w :: ws)));
      [|by rewrite IH].
    by destruct ws.
Qed.

(** X3.  A [Scopes] attribute whose items, the texts between its commas,
    have no white space at either end is read back from the requested
    scopes: joined with commas, they give the attribute. *)
Theorem split_scopes_round_trip scopes :
  Forall (λ s, lstrip s = s ∧ rstrip s = s) (split "," scopes) →
  String.concat "," (split_scopes scopes) = scopes.
Proof.
  intros Htrim. unfold split_scopes.
  rewrite <- (concat_split "," scopes) at 2. f_equal.
  rewrite <- (list_fmap_id (split "," scopes)) at 2.
  apply Forall_fmap_ext_1.
  eapply Forall_impl; [exact Htrim|]. intros s [Hl Hr]. cbn.
  by rewrite Hr, Hl.
Qed.

(** X4.  The URL handed to the token exchange never has the scheme [http]:
    an [http://] prefix is replaced by [https://] and what follows it is
    kept as it is, later occurrences of [http://] included; any other URL
    is handed over unchanged.  Upgrading twice is upgrading once. *)
Theorem updated_url_upgrades url :
  startswith "http://" (updated_url url) = false ∧
  updated_url (updated_url url) = updated_url url ∧
  (∀ rest, updated_url ("http://" +:+ rest) = "https://" +:+ rest) ∧
  (startswith "http://" url = false → updated_url url = url).
Proof.
  assert (Hrest : ∀ rest, updated_url ("http://" +:+ rest) = "https://" +:+ rest).
  { intros rest. vm_compute. reflexivity. }
  assert (Hno : startswith "http://" (updated_url url) = false).
  { destruct (startswith "http://" url) eqn:Hs.
    - apply startswith_inv in Hs. rewrite Hs, Hrest.
      generalize (PyStr.drop (String.length "http://") url). intros rest.
      vm_compute. reflexivity.
    - unfold updated_url. by rewrite Hs. }
  split_and!; [done| |done|].
  - unfold updated_url at 1. by rewrite Hno.
  - intros Hs. unfold updated_url. by rewrite Hs.
Qed.

(** ** What a handler may change, whatever its outcome *)

Section Always.
Context `{Platform, OAuthLib}.
Variable R : relation Session.
Variable F : relation FS.
Variable P : Event → Prop.
Context `{!PreOrder R, !PreOrder F}.

Lemma moves_refl w : moves R F P w w.
Proof. split_and!; [done..|]. exists []. by rewrite app_nil_r. Qed.

Lemma moves_trans w1 w2 w3 :
  moves R F P w1 w2 → moves R F P w2 w3 → moves R F P w1 w3.
Proof.
  intros (Hr1 & Hf1 & e1 & Ht1 & Hp1) (Hr2 & Hf2 & e2 & Ht2 & Hp2).
  split_and!; [by etrans..|].
  exists (e1 ++ e2). rewrite Ht2, Ht1, app_assoc. split; [done|].
  by apply Forall_app.
Qed.

Lemma always_unchanged {A} (m : M A) :
  (∀ w, ∃ r, m w = (r, w)) → always R F P m.
Proof.
  intros Hm w r w' Hrun. destruct (Hm w) as [r' Hr]. rewrite Hr in Hrun.
  injection Hrun as _ <-. apply moves_refl.
Qed.

Lemma always_ext {A} (m m' : M A) :
  (∀ w, m w = m' w) → always R F P m' → always R F P m.
Proof. intros Hm Hm' w r w'. rewrite Hm. apply Hm'. Qed.

Lemma always_ret {A} (a : A) : always R F P (ret a).
Proof. apply always_unchanged. by eexists. Qed.

Lemma always_mret {A} (a : A) : always R F P (mret a).
Proof. apply always_ret. Qed.

Lemma always_raise {A} e : always R F P (raise e : M A).
Proof. apply always_unchanged. by eexists. Qed.

Lemma always_getitem {A} k (o : option A) : always R F P (getitem k o).
Proof. apply always_unchanged. intros w. rewrite getitem_eq. by eexists. Qed.

Lemma always_lift {A} (r : exn + A) : always R F P (lift r).
Proof. apply always_unchanged. intros w. rewrite lift_eq. by eexists. Qed.

Lemma always_get_session : always R F P get_session.
Proof. apply always_unchanged. by eexists. Qed.

Lemma always_session_get {A} k (field : Session → option A) :
  always R F P (session_get k field).
Proof. apply always_unchanged. intros w. rewrite session_get_eq. by eexists. Qed.

Lemma always_bind {A B} (m : M A) (k : A → M B) :
  always R F P m → (∀ a, always R F P (k a)) → always R F P (m ≫= k).
Proof.
  intros Hm Hk w r w' [(e & Hs & ->)|(a & w1 & Hs & Hrun)]%bind_inv.
  - by apply Hm in Hs.
  - eapply moves_trans; [by apply Hm in Hs|by apply Hk in Hrun].
Qed.

Lemma always_try_except {A} (body : M A) cls handler :
  always R F P body → (∀ e, always R F P (handler e)) →
  always R F P (try_except body cls handler).
Proof.
  intros Hb Hh w r w'. unfold try_except.
  destruct (body w) as [[e|a] w1] eqn:Hbody; apply Hb in Hbody.
  - destruct (isinstance e cls).
    + intros Hrun%Hh. by eapply moves_trans.
    + by intros [= <- <-].
  - by intros [= <- <-].
Qed.

Lemma always_modify_session f :
  (∀ s, R s (f s)) → always R F P (modify_session f).
Proof.
  intros Hf w r w' [= <- <-]. split_and!; [apply Hf|done|]. exists [].
  by rewrite app_nil_r.
Qed.

Lemma always_file_op {A} op (f : FS → (exn + A) * FS) :
  (∀ err, P (EvFile op err)) → (∀ fs, F fs (f fs).2) →
  always R F P (file_op op f).
Proof.
  intros Hp Hf w r w'. unfold file_op. specialize (Hf (filesystem w)).
  destruct (f (filesystem w)) as [r' fs']. intros [= <- <-].
  split_and!; [done..|]. eexists. split; [done|]. by repeat constructor.
Qed.

Lemma always_net_op {A} (c : list NetCall * (exn + A)) :
  (∀ call, P (EvNet call)) → always R F P (net_op c).
Proof.
  intros Hp w r w' [= <- <-]. split_and!; [done..|]. eexists. split; [done|].
  apply Forall_fmap, Forall_forall. intros call _. apply Hp.
Qed.

Lemma always_write self message :
  (∀ l m, P (EvLog l m)) → always R F P (write self message).
Proof.
  intros Hp w r w'. destruct message as [s|e]; cbn [write].
  - case_bool_decide.
    + intros [= <- <-]. split_and!; [done..|]. eexists. split; [done|].
      by repeat constructor.
    + intros [= <- <-]. apply moves_refl.
  - intros [= <- <-]. apply moves_refl.
Qed.

Lemma always_print s : (∀ l m, P (EvLog l m)) → always R F P (print s).
Proof. intros Hp. apply always_bind; [|intros _]; by apply always_write. Qed.

Lemma always_update_provider provider f :
  (∀ s provs p, providers s = Some provs → provs !! provider = Some p →
                R s (set_providers (<[provider := f p]> provs) s)) →
  always R F P (update_provider provider f).
Proof.
  intros Hf w r w'. rewrite update_provider_eq.
  destruct (providers (session w)) as [provs|] eqn:Hprovs;
    [destruct (provs !! provider) as [p|] eqn:Hp|]; intros [= <- <-];
    try apply moves_refl.
  split_and!; [by eapply Hf|done|]. exists []. by rewrite app_nil_r.
Qed.

Lemma always_get_provider_ad provider kp :
  (∀ ev, reads_key_file kp ev → P ev) →
  always R F P (get_provider_ad provider kp).
Proof.
  intros Hp w r w' (evs & -> & Hevs)%get_provider_ad_run.
  split_and!; [done..|]. exists evs. split; [done|].
  destruct r as [e|ad].
  - destruct Hevs as (o & logs & Hlogs & ->).
    constructor; [apply Hp; by left|].
    destruct o as [err|]; [|constructor].
    constructor; [apply Hp; by right|].
    eapply Forall_impl; [exact Hlogs|]. intros ev (l & m & ->). by apply Hp.
  - subst evs. repeat constructor; apply Hp; [by left|by right].
Qed.

Lemma always_get_user_info provider ad cid token :
  (∀ call, P (EvNet call)) →
  (∀ v s provs p, providers s = Some provs → provs !! provider = Some p →
     R s (set_providers (<[provider := set_username v p]> provs) s)) →
  always R F P (get_user_info provider ad cid token).
Proof.
  intros Hnet Hup. unfold get_user_info. apply always_try_except.
  - apply always_bind; [apply always_getitem|intros user_url].
    apply always_bind; [by apply always_net_op|intros response].
    apply always_bind; [apply always_lift|intros info].
    apply always_bind; [apply always_lift|intros [|]].
    + apply always_bind; [apply always_lift|intros v].
      apply always_update_provider, Hup.
    + apply always_bind; [apply always_lift|intros [|]].
      * apply always_bind; [apply always_lift|intros v].
        apply always_update_provider, Hup.
      * apply always_update_provider, Hup.
  - intros _. apply always_update_provider, Hup.
Qed.

End Always.

(** The steps of a handler, one rule after the other; [side] closes the
    conditions on the events and on the session. *)
Ltac preorders := try match goal with |- PreOrder _ => apply _ end.

Ltac solve_always side :=
  repeat first
    [ apply always_ret; preorders | apply always_mret; preorders
    | apply always_raise; preorders
    | apply always_getitem; preorders
    | apply always_lift; preorders
    | apply always_get_session; preorders
    | apply always_session_get; preorders
    | apply always_print; preorders; side
    | apply always_write; preorders; side
    | apply always_get_provider_ad; preorders; side
    | apply always_get_user_info; preorders; side
    | apply always_update_provider; preorders; side
    | apply always_net_op; preorders; side
    | apply always_file_op; preorders; side
    | apply always_modify_session; preorders; side
    | apply always_try_except; preorders; [|intros ?]
    | apply always_bind; preorders; [|intros ?]
    | match goal with
      | |- always _ _ _ (if ?b then _ else _) => destruct b
      | |- always _ _ _ (match ?x with Some _ => _ | None => _ end) => destruct x
      | |- always _ _ _ (let '(_, _) := ?x in _) => destruct x as [? ?]
      | |- always _ _ _ (session_provider _) => unfold session_provider
      end ].

(** ** Further properties of [get_provider_ad] *)

Section Descriptor.
Context `{Platform, OAuthLib}.

(** X6.  [get_provider_ad] only consults the key file: whatever its outcome,
    the session and the file system are as they were, no network call is
    made, and the only file operations are the existence test and the
    opening of the key file. *)
Theorem get_provider_ad_reads_only provider kp w r w' :
  get_provider_ad provider kp w = (r, w') →
  session w' = session w ∧ filesystem w' = filesystem w ∧
  ∃ evs, trace w' = trace w ++ evs ∧ Forall (reads_key_file kp) evs.
Proof.
  intros Hrun.
  apply (always_get_provider_ad eq eq (reads_key_file kp)) in Hrun
    as (Hs & Hf & Hevs); done.
Qed.

(** A record filed under another name than [provider]. *)
Lemma find_provider_ad_skip provider kp (ad : ClassAd) ads rest w name :
  ad_provider_str ad = Some name → name ≠ provider →
  find_provider_ad provider kp (ad :: ads) rest w =
    find_provider_ad provider kp ads rest w.
Proof.
  unfold ad_provider_str. intros Hname Hne. cbn [find_provider_ad].
  destruct (ad !! "Provider") as [p|]; [|done]. injection Hname as <-.
  rewrite bind_unfold, getitem_eq. by rewrite bool_decide_eq_false_2.
Qed.

Lemma find_provider_ad_first provider kp pre (ad : ClassAd) post rest w :
  Forall (λ a, ∃ name, ad_provider_str a = Some name ∧ name ≠ provider) pre →
  ad_provider_str ad = Some provider →
  find_provider_ad provider kp (pre ++ ad :: post) rest w = (inr ad, w).
Proof.
  intros Hpre Had. induction Hpre as [|a pre (name & Hname & Hne) _ IH].
  - unfold ad_provider_str in Had. cbn [app find_provider_ad].
    destruct (ad !! "Provider") as [p|]; [|done]. injection Had as Had.
    rewrite bind_unfold, getitem_eq. by rewrite bool_decide_eq_true_2.
  - cbn [app]. by erewrite find_provider_ad_skip.
Qed.

Lemma find_provider_ad_inr provider kp ads rest w (ad : ClassAd) w' :
  find_provider_ad provider kp ads rest w = (inr ad, w') →
  ∃ pre post, ads = pre ++ ad :: post ∧
    Forall (λ a, ∃ name, ad_provider_str a = Some name ∧ name ≠ provider) pre ∧
    ad_provider_str ad = Some provider.
Proof.
  induction ads as [|a ads IH]; cbn [find_provider_ad].
  - by destruct rest.
  - rewrite bind_unfold, getitem_eq.
    destruct (a !! "Provider") as [p|] eqn:Hp; [|done].
    case_bool_decide as Hname.
    + intros [= -> <-]. exists [], ads. split_and!; [done|constructor|].
      unfold ad_provider_str. by rewrite Hp, <- Hname.
    + intros (pre & post & -> & Hpre & Had)%IH.
      exists (a :: pre), post. split_and!; [done| |done].
      constructor; [|done]. eexists. split; [|exact Hname].
      unfold ad_provider_str. by rewrite Hp.
Qed.

Lemma find_provider_ad_none provider kp ads w :
  Forall (λ a, ∃ name, ad_provider_str a = Some name ∧ name ≠ provider) ads →
  find_provider_ad provider kp ads None w =
    (inl (Exn Exception_ ("Provider " +:+ provider +:+ " not in key file " +:+
                          kp)), w).
Proof.
  induction 1 as [|a ads (name & Hname & Hne) _ IH]; [done|].
  by erewrite find_provider_ad_skip.
Qed.

(** The descriptor lookup in a given file system. *)
Lemma get_provider_ad_first provider kp w pre (ad : ClassAd) post rest :
  path_exists kp (filesystem w) = true →
  open_parseAds kp (filesystem w) = inr (pre ++ ad :: post, rest) →
  Forall (λ a, ∃ name, ad_provider_str a = Some name ∧ name ≠ provider) pre →
  ad_provider_str ad = Some provider →
  get_provider_ad provider kp w =
    (inr ad, {| session := session w; filesystem := filesystem w;
                trace := trace w ++ [EvFile (FExists kp) None;
                                     EvFile (FOpenAds kp) None] |}).
Proof.
  intros Hex Hopen Hpre Had.
  unfold get_provider_ad, os_path_exists, classad_parseAds.
  rewrite bind_unfold. unfold file_op at 1. rewrite Hex. cbn [negb].
  unfold try_except. rewrite bind_unfold. unfold file_op. wsimpl.
  rewrite Hopen. rewrite find_provider_ad_first by done.
  by rewrite <- app_assoc.
Qed.

Lemma get_provider_ad_inr provider kp w (ad : ClassAd) w' :
  get_provider_ad provider kp w = (inr ad, w') →
  path_exists kp (filesystem w) = true ∧
  ∃ pre post rest,
    open_parseAds kp (filesystem w) = inr (pre ++ ad :: post, rest) ∧
    Forall (λ a, ∃ name, ad_provider_str a = Some name ∧ name ≠ provider) pre ∧
    ad_provider_str ad = Some provider.
Proof.
  unfold get_provider_ad, os_path_exists, classad_parseAds.
  intros Hrun. apply bind_inr in Hrun as (found & w1 & Hs & Hrun).
  apply file_read_inr in Hs as [[= <-] ->].
  destruct (path_exists kp (filesystem w)); [|discriminate Hrun].
  split; [done|]. cbn [negb] in Hrun.
  apply try_except_inr in Hrun; [|intros ????; apply print_then_raise_fails].
  apply bind_inr in Hrun as ([ads rest] & w2 & Hs & Hrun).
  apply file_read_inr in Hs as [Hopen ->]. wsimpl.
  apply find_provider_ad_inr in Hrun as (pre & post & -> & Hpre & Had).
  by exists pre, post, rest.
Qed.

(** The same lookup in another world with the same file system. *)
Lemma get_provider_ad_same_fs provider kp w (ad : ClassAd) w' w2 :
  get_provider_ad provider kp w = (inr ad, w') →
  filesystem w2 = filesystem w →
  get_provider_ad provider kp w2 =
    (inr ad, {| session := session w2; filesystem := filesystem w2;
                trace := trace w2 ++ [EvFile (FExists kp) None;
                                      EvFile (FOpenAds kp) None] |}).
Proof.
  intros (Hex & pre & post & rest & Hopen & Hpre & Had)%get_provider_ad_inr Hfs.
  rewrite <- Hfs in Hex, Hopen. by eapply get_provider_ad_first.
Qed.

(** X7.  [get_provider_ad] returns a record exactly when the key file exists
    and that record is the first one filed under the name asked for, the
    records before it all carrying a [Provider].  The records after it are
    not looked at, nor is what follows them in the file. *)
Theorem get_provider_ad_finds_first provider kp w (ad : ClassAd) :
  (∃ w', get_provider_ad provider kp w = (inr ad, w')) ↔
  path_exists kp (filesystem w) = true ∧
  ∃ pre post rest,
    open_parseAds kp (filesystem w) = inr (pre ++ ad :: post, rest) ∧
    Forall (λ a, ∃ name, ad_provider_str a = Some name ∧ name ≠ provider) pre ∧
    ad_provider_str ad = Some provider.
Proof.
  split.
  - intros [w' Hrun]. by apply get_provider_ad_inr in Hrun.
  - intros (Hex & pre & post & rest & Hopen & Hpre & Had).
    eexists. by eapply get_provider_ad_first.
Qed.

(** X8.  When the key file does not exist, [get_provider_ad] says so and does
    not try to open it. *)
Theorem get_provider_ad_missing_file provider kp w :
  path_exists kp (filesystem w) = false →
  get_provider_ad provider kp w =
    (inl (Exn Exception_ ("Key file " +:+ kp +:+ " doesn't exist")),
     {| session := session w; filesystem := filesystem w;
        trace := trace w ++ [EvFile (FExists kp) None] |}).
Proof.
  intros Hex. unfold get_provider_ad, os_path_exists.
  rewrite bind_unfold. unfold file_op. by rewrite Hex.
Qed.

(** X9.  When the key file parses to the end and none of its records is filed
    under the name asked for, [get_provider_ad] raises its "not in key
    file" exception; the handler of [IOError] does not take it. *)
Theorem get_provider_ad_unknown_provider provider kp w ads :
  path_exists kp (filesystem w) = true →
  open_parseAds kp (filesystem w) = inr (ads, None) →
  Forall (λ a, ∃ name, ad_provider_str a = Some name ∧ name ≠ provider) ads →
  get_provider_ad provider kp w =
    (inl (Exn Exception_ ("Provider " +:+ provider +:+ " not in key file " +:+
                          kp)),
     {| session := session w; filesystem := filesystem w;
        trace := trace w ++ [EvFile (FExists kp) None;
                             EvFile (FOpenAds kp) None] |}).
Proof.
  intros Hex Hopen Hall.
  unfold get_provider_ad, os_path_exists, classad_parseAds.
  rewrite bind_unfold. unfold file_op at 1. rewrite Hex. cbn [negb].
  unfold try_except. rewrite bind_unfold. unfold file_op. wsimpl.
  rewrite Hopen, find_provider_ad_none by done. cbn.
  by rewrite <- app_assoc.
Qed.

End Descriptor.

(** ** Further properties of [key] *)

Section KeyFile.
Context `{Platform, OAuthLib}.

Lemma always_bind_lift R F P `{!PreOrder R, !PreOrder F} {A B}
    (r : exn + A) (k : A → M B) :
  (∀ a, r = inr a → always R F P (k a)) → always R F P (lift r ≫= k).
Proof.
  intros Hk w r' w'. rewrite bind_unfold, lift_eq. destruct r as [e|a].
  - intros [= <- <-]. by apply moves_refl.
  - by apply Hk.
Qed.

(** Every run of [key] only consults the key file of the id. *)
Lemma key_moves key_id w r w' :
  key key_id w = (r, w') →
  session w' = session w ∧ filesystem w' = filesystem w ∧
  ∃ evs, trace w' = trace w ++ evs ∧
    match get_cred_dir with
    | inr cred_dir => Forall (reads_key_file (path_join cred_dir key_id)) evs
    | inl _ => evs = []
    end.
Proof.
  intros Hrun.
  set (P := λ ev, match get_cred_dir with
                  | inr cred_dir => reads_key_file (path_join cred_dir key_id) ev
                  | inl _ => False
                  end).
  assert (Hkey : always eq eq P (key key_id)).
  { unfold key.
    apply always_bind; preorders;
      [destruct (re_match_hex key_id); solve_always idtac|].
    intros _. apply always_bind_lift; preorders. intros cred_dir Hcd.
    assert (Hlog : ∀ l m, P (EvLog l m)) by (intros; unfold P; by rewrite Hcd).
    assert (Hex : ∀ err, P (EvFile (FExists (path_join cred_dir key_id)) err))
      by (intros; unfold P; rewrite Hcd; by left).
    assert (Hop : ∀ err, P (EvFile (FOpenAds (path_join cred_dir key_id)) err))
      by (intros; unfold P; rewrite Hcd; by right).
    cbv zeta. unfold os_path_exists, classad_parseAds.
    solve_always ltac:(first [done | exact Hlog | exact Hex | exact Hop]). }
  destruct (Hkey _ _ _ Hrun) as (Hs & Hf & evs & Ht & Hevs).
  split_and!; [done..|]. exists evs. split; [done|]. subst P.
  destruct get_cred_dir; [|done]. by destruct Hevs.
Qed.

(** X10.  [key] leaves the Flask session as it found it: the session it builds
    is bound to a name of its own (line 175) and is not stored.  Whatever
    its outcome, the handler also leaves the file system as it was, makes
    no network call, and its only file operations are the existence test
    and the opening of the key file of the id. *)
Theorem key_reads_only key_id w r w' :
  key key_id w = (r, w') →
  session w' = session w ∧ filesystem w' = filesystem w ∧
  ∃ evs, trace w' = trace w ++ evs ∧
    match get_cred_dir with
    | inr cred_dir => Forall (reads_key_file (path_join cred_dir key_id)) evs
    | inl _ => evs = []
    end.
Proof. apply key_moves. Qed.
(** What a successful run of [key] has gone through. *)
Lemma key_inr key_id w s resp w' :
  key key_id w = (inr (s, resp), w') →
  ∃ cred_dir ads (ad : ClassAd) u provs,
    get_cred_dir = inr cred_dir ∧
    path_exists (path_join cred_dir key_id) (filesystem w) = true ∧
    open_parseAds (path_join cred_dir key_id) (filesystem w) = inr (ads, None) ∧
    key_loop ads ∅ = inr provs ∧ last ads = Some ad ∧
    ad !! "LocalUser" = Some u ∧
    s = {| providers := Some provs; logged_in := Some false;
           key_path := Some (path_join cred_dir key_id);
           local_username := Some u; outgoing_provider := None |}.
Proof.
  unfold key, os_path_exists, classad_parseAds. intros Hrun.
  apply bind_inr in Hrun as ([] & w1 & Hre & Hrun).
  destruct (re_match_hex key_id); [|discriminate Hre]. injection Hre as <-.
  apply bind_inr in Hrun as (cd & w2 & [Hcd ->]%lift_inr & Hrun).
  cbv zeta in Hrun.
  apply bind_inr in Hrun as (found & w3 & [[= <-] ->]%file_read_inr & Hrun).
  destruct (path_exists (path_join cd key_id) (filesystem w)) eqn:Hex;
    last first.
  { apply bind_inr in Hrun as (? & ? & [=] & _). }
  cbn [negb] in Hrun.
  apply bind_inr in Hrun as ([] & w4 & [= <-] & Hrun).
  apply bind_inr in Hrun as ([] & w5 & Hpr & Hrun).
  match type of Hpr with print ?s ?w0 = _ =>
    destruct (print_run s w0) as (logs & _ & Hpr') end.
  rewrite Hpr' in Hpr. injection Hpr as <-.
  apply bind_inr in Hrun as ([ads rest] & w6 & [Hopen ->]%file_read_inr & Hrun).
  wsimpl.
  apply bind_inr in Hrun as (provs & w7 & [Hloop ->]%lift_inr & Hrun).
  apply bind_inr in Hrun as ([] & w8 & Hrest & Hrun).
  destruct rest as [e|]; [discriminate Hrest|]. injection Hrest as <-.
  apply bind_inr in Hrun as (ad & w9 & Hlast & Hrun).
  destruct (last ads) as [ad'|] eqn:Hl; [|discriminate Hlast].
  injection Hlast as -> <-.
  apply bind_inr in Hrun as (u & w10 & [Hu ->]%getitem_inr & Hrun).
  apply bind_inr in Hrun as ([] & w11 & _ & Hrun).
  injection Hrun as <- <- <-.
  by exists cd, ads, ad, u, provs.
Qed.

Lemma key_loop_inr ads acc provs :
  key_loop ads acc = inr provs →
  Forall (λ ad : ClassAd, is_Some (ad !! "Provider")) ads.
Proof.
  revert acc. induction ads as [|ad ads IH]; intros acc; [by constructor|].
  cbn [key_loop]. destruct (ad !! "Provider") as [p|] eqn:Hp; [|done].
  intros Hloop%IH. by constructor.
Qed.

(** The first of the records filed under a name. *)
Lemma first_filed (ads : list ClassAd) name :
  Forall (λ ad : ClassAd, is_Some (ad !! "Provider")) ads →
  (∃ ad, ad ∈ ads ∧ ad_provider_str ad = Some name) →
  ∃ pre ad post, ads = pre ++ ad :: post ∧
    Forall (λ a, ∃ n, ad_provider_str a = Some n ∧ n ≠ name) pre ∧
    ad_provider_str ad = Some name.
Proof.
  induction 1 as [|a ads [p Hp] Hall IH]; intros (ad & Hin & Had).
  - by apply elem_of_nil in Hin.
  - destruct (decide (ad_provider_str a = Some name)) as [Ha|Ha].
    + exists [], a, ads. by split_and!; [|constructor|].
    + destruct IH as (pre & ad' & post & -> & Hpre & Had').
      { apply elem_of_cons in Hin as [->|Hin]; [done|]. by exists ad. }
      exists (a :: pre), ad', post. split_and!; [done| |done].
      constructor; [|done]. unfold ad_provider_str in Ha |- *.
      rewrite Hp in Ha |- *. cbn in Ha |- *. eexists. split; [done|].
      congruence.
Qed.

(** X11.  On a key file that has no record, [key] fails on the local username:
    the name it reads it from was never bound. *)
Theorem key_empty_file key_id w :
  re_match_hex key_id ≠ None → key_file_at key_id w [] →
  ∃ w', key key_id w = (inl (Exn UnboundLocalError "provider_ad"), w') ∧
        session w' = session w ∧ filesystem w' = filesystem w.
Proof.
  intros Hre (cd & Hcd & Hex & Hopen).
  destruct (key key_id w) as [r w'] eqn:Hrun.
  destruct (key_moves _ _ _ _ Hrun) as (Hs & Hf & _).
  exists w'. split; [|done]. f_equal. revert Hrun. unfold key.
  destruct (re_match_hex key_id); [|done].
  erewrite bind_ok by reflexivity.
  erewrite bind_ok by (rewrite lift_eq, Hcd; reflexivity).
  cbv zeta.
  erewrite bind_ok by (unfold os_path_exists, file_op; rewrite Hex; reflexivity).
  cbn [negb]. erewrite bind_ok by reflexivity.
  match goal with |- context [print ?s ≫= _] =>
    match goal with |- context [(_ ≫= _) ?w0] =>
    destruct (print_run s w0) as (logs1 & Hlogs1 & Hpr1) end end.
  erewrite bind_ok by exact Hpr1.
  erewrite bind_ok by (unfold classad_parseAds, file_op; wsimpl; rewrite Hopen;
                       reflexivity).
  cbv beta iota zeta.
  erewrite bind_ok by (rewrite lift_eq; reflexivity).
  erewrite bind_ok by reflexivity.
  cbn [last]. rewrite bind_unfold. by intros [= <- _].
Qed.

(** X12.  The providers of the session that [key] builds are exactly the names
    for which [get_provider_ad] finds a descriptor in the key file of that
    session: [oauth_login] and [oauth_return] find the descriptor of every
    provider of the session, as long as the file is not changed. *)
Theorem key_providers_have_descriptors key_id w s resp w' name :
  key key_id w = (inr (s, resp), w') →
  ∃ provs kp,
    providers s = Some provs ∧ key_path s = Some kp ∧
    (is_Some (provs !! name) ↔
     ∃ ad w2, get_provider_ad name kp w' = (inr ad, w2)).
Proof.
  intros Hrun. destruct (key_moves _ _ _ _ Hrun) as (_ & Hfs & _).
  apply key_inr in Hrun
    as (cd & ads & ad & u & provs & Hcd & Hex & Hopen & Hloop & _ & _ & ->).
  exists provs, (path_join cd key_id). split_and!; [done..|].
  pose proof (key_loop_inr _ _ _ Hloop) as Hall.
  destruct (key_loop_lookup ads ∅ Hall) as (provs' & Hloop' & Hlook).
  rewrite Hloop in Hloop'. injection Hloop' as <-.
  rewrite <- Hfs in Hex, Hopen. split.
  - intros [p Hp]. rewrite Hlook in Hp.
    destruct (last (filter _ ads)) as [ad'|] eqn:Hl;
      [|by rewrite lookup_empty in Hp].
    apply last_Some_elem_of, list_elem_of_filter in Hl as [Hn Hin].
    destruct (first_filed ads name Hall) as (pre & a & post & -> & Hpre & Ha).
    { by exists ad'. }
    eexists a, _. by eapply get_provider_ad_first.
  - intros (a & w2 & (_ & pre & post & rest & Hopen' & _ & Ha)%get_provider_ad_inr).
    rewrite Hopen in Hopen'. injection Hopen' as -> _.
    rewrite Hlook.
    destruct (last (filter _ (pre ++ a :: post))) as [ad'|] eqn:Hl; [done|].
    apply last_None in Hl.
    assert (a ∈ filter (λ ad0, ad_provider_str ad0 = Some name) (pre ++ a :: post))
      as Hin.
    { apply list_elem_of_filter. split; [done|].
      apply elem_of_app. right. apply list_elem_of_here. }
    rewrite Hl in Hin. by apply elem_of_nil in Hin.
Qed.

(** X13.  [key] followed by [oauth_login]: on a session that holds no providers
    yet, [key] stores none, so that [oauth_login] finds the session as
    [key] found it and fails on [session['providers']]: it logs the problem
    with the session at the warning level and raises the [KeyError]. *)
Theorem key_then_oauth_login fmt key_id provider w r w1 :
  providers (session w) = None →
  key key_id w = (r, w1) →
  oauth_login fmt provider w1 =
    (inl (Exn KeyError "providers"),
     {| session := session w; filesystem := filesystem w;
        trace := trace w1 ++
          [EvLog Warning (rstrip ("Problem with session dict: " +:+
                                  fmt (session w) +:+ nl))] |}).
Proof.
  intros Hnone Hrun.
  destruct (key_moves _ _ _ _ Hrun) as (Hs & Hf & _).
  unfold oauth_login. rewrite bind_unfold. unfold try_except.
  rewrite bind_unfold, session_get_eq, Hs, Hnone.
  cbn [isinstance subclass exn_cls bool_decide decide_rel]. 
  rewrite bool_decide_eq_true_2 by done. cbn [orb].
  rewrite bind_unfold. cbn [get_session]. rewrite bind_unfold.
  cbn [write]. rewrite bool_decide_eq_true_2 by done.
  cbn. by rewrite Hs, Hf.
Qed.

End KeyFile.

(** ** Further properties of [oauth_login] *)

#[global] Instance keeps_login_preorder : PreOrder keeps_login.
Proof.
  split; [done|]. intros p q r (? & ? & ? & ?) (? & ? & ? & ?).
  split_and!; congruence.
Qed.

#[global] Instance keeps_request_preorder : PreOrder keeps_request.
Proof.
  split; [done|]. intros p q r (? & ? & ?) (? & ? & ?).
  split_and!; congruence.
Qed.

#[global] Instance entries_agree_preorder E provider :
  PreOrder E → PreOrder (entries_agree E provider).
Proof.
  intros HE. split.
  - intros provs name. destruct (provs !! name); by constructor.
  - intros a b c Hab Hbc name. specialize (Hab name). specialize (Hbc name).
    destruct Hab as [p q [Hpq Hq]|]; inversion Hbc as [? r [Hqr Hr]|];
      constructor. split; [by etrans|]. intros Hne. by rewrite Hr, Hq.
Qed.

#[global] Instance option_Forall2_preorder {A} (R : relation A) :
  PreOrder R → PreOrder (option_Forall2 R).
Proof.
  intros HR. split.
  - intros [a|]; by constructor.
  - intros a b c [x y Hxy|]; inversion 1; constructor. by etrans.
Qed.

#[global] Instance login_changes_preorder provider :
  PreOrder (login_changes provider).
Proof.
  split.
  - intros s. by split_and!.
  - intros a b c (? & ? & ? & Hab) (? & ? & ? & Hbc).
    split_and!; [congruence..|]. by etrans.
Qed.

#[global] Instance return_changes_preorder provider :
  PreOrder (return_changes provider).
Proof.
  split.
  - intros s. by split_and!.
  - intros a b c (? & ? & Hab) (? & ? & Hbc).
    split_and!; [congruence..|]. by etrans.
Qed.

(** Replacing the entry of [provider] within [E]. *)
Lemma entries_agree_insert E `{!PreOrder E} provider provs p q :
  provs !! provider = Some p → E p q →
  entries_agree E provider provs (<[provider := q]> provs).
Proof.
  intros Hp Hpq name. destruct (decide (name = provider)) as [->|Hne].
  - rewrite lookup_insert_eq, Hp. by constructor.
  - rewrite lookup_insert_ne by done. destruct (provs !! name); by constructor.
Qed.

Section Login.
Context `{Platform, OAuthLib}.
Variable fmt : Session → string.

(** X14.  [oauth_login] refuses a provider that is not in the session with its
    "not in list of providers" exception, having done nothing; on a session
    without providers it logs the problem at the warning level and raises
    the [KeyError]. *)
Theorem oauth_login_rejects provider w :
  match providers (session w) with
  | None =>
      oauth_login fmt provider w =
        (inl (Exn KeyError "providers"),
         {| session := session w; filesystem := filesystem w;
            trace := trace w ++
              [EvLog Warning (rstrip ("Problem with session dict: " +:+
                                      fmt (session w) +:+ nl))] |})
  | Some provs =>
      provs !! provider = None →
      oauth_login fmt provider w =
        (inl (Exn Exception_ ("Provider " +:+ provider +:+
                              " not in list of providers")), w)
  end.
Proof.
  unfold oauth_login. rewrite bind_unfold. unfold try_except.
  rewrite bind_unfold, session_get_eq.
  destruct (providers (session w)) as [provs|].
  - intros Hn. by rewrite bool_decide_eq_true_2.
  - cbn [isinstance subclass exn_cls].
    rewrite bool_decide_eq_true_2 by done. cbn [orb].
    rewrite bind_unfold. cbn [get_session]. rewrite bind_unfold.
    cbn [write]. by rewrite bool_decide_eq_true_2.
Qed.

(** X15.  Whatever its outcome, [oauth_login] changes nothing in the session
    but the state of the provider it is called for and the in-flight
    record: the login flags, the usernames, the requested scopes and
    audiences, the key path and the local username are as they were.  It
    writes no file and makes no network call. *)
Theorem oauth_login_changes provider w r w' :
  oauth_login fmt provider w = (r, w') →
  login_changes provider (session w) (session w') ∧
  filesystem w' = filesystem w ∧
  ∃ evs, trace w' = trace w ++ evs ∧
    Forall (λ ev, ∃ kp, reads_key_file kp ev) evs.
Proof.
  intros Hrun.
  assert (Hlogin : always (login_changes provider) eq
                     (λ ev, ∃ kp, reads_key_file kp ev)
                     (oauth_login fmt provider)).
  { assert (Hlog : ∀ l m, ∃ kp, reads_key_file kp (EvLog l m))
      by (intros; by exists "").
    unfold oauth_login.
    apply always_bind; preorders; [solve_always ltac:(exact Hlog)|intros _].
    apply always_bind; preorders; [solve_always idtac|intros kp].
    apply always_bind; preorders;
      [apply always_get_provider_ad; preorders; by eauto|intros ad].
    do 3 (apply always_bind; preorders; [solve_always idtac|intros ?]).
    apply always_bind; preorders; [solve_always idtac|intros [auth_url st]].
    (* lines 218-220 update the entry of the provider *)
    apply (always_ext _ _ _ _
             (update_provider provider (set_state st) ≫= λ _,
              modify_session (set_outgoing_provider (Some provider)) ≫= λ _,
              ret (redirect auth_url))).
    { intros w0. unfold update_provider. rewrite !bind_unfold.
      destruct (session_get "providers" providers w0) as [[e|provs] w1]; [done|].
      rewrite !bind_unfold. by destruct (getitem provider (provs !! provider) w1)
        as [[e|p] w2]. }
    apply always_bind; preorders.
    - apply always_update_provider; preorders. intros s provs p Hprovs Hp.
      split_and!; try done. cbn [providers set_providers]. rewrite Hprovs.
      constructor. by apply (entries_agree_insert _ _ _ p).
    - intros _. apply always_bind; preorders; [|intros _; solve_always idtac].
      apply always_modify_session; preorders. intros s. by split_and!. }
  destruct (Hlogin _ _ _ Hrun) as (Hs & Hf & Hevs). done.
Qed.

(** What a successful run of [oauth_login] has gone through. *)
Lemma oauth_login_run provider w r w' :
  oauth_login fmt provider w = (inr r, w') →
  ∃ provs p kp (ad : ClassAd) w1 cid ruri url auth_url st,
    providers (session w) = Some provs ∧ provs !! provider = Some p ∧
    key_path (session w) = Some kp ∧
    get_provider_ad provider kp w = (inr ad, w1) ∧
    ad !! "ClientId" = Some cid ∧ ad !! "ReturnUrl" = Some ruri ∧
    ad !! "AuthorizationUrl" = Some url ∧
    authorization_url cid ruri (split_scopes <$> ad !! "Scopes") url
      (ad !! "Audience") = inr (auth_url, st) ∧
    r = redirect auth_url ∧
    w' = {| session :=
              set_outgoing_provider (Some provider)
                (set_providers (<[provider := set_state st p]> provs)
                   (session w));
            filesystem := filesystem w;
            trace := trace w ++ [EvFile (FExists kp) None;
                                 EvFile (FOpenAds kp) None] |}.
Proof.
  intros Hrun. unfold oauth_login in Hrun.
  apply bind_inr in Hrun as ([] & ? & Hs & Hrun).
  apply try_except_inr in Hs; last first.
  { intros e w0 a0 w1. rewrite bind_unfold. cbn [get_session].
    unfold write. case_bool_decide; cbn; rewrite bind_unfold; done. }
  apply bind_inr in Hs as (provs & ? & Hs & Hmem).
  apply session_get_inr in Hs as [Hprovs ->].
  case_bool_decide as Hin; [discriminate Hmem|]. injection Hmem as <-.
  apply bind_inr in Hrun as (kp & ? & Hs & Hrun).
  apply session_get_inr in Hs as [Hkp ->].
  apply bind_inr in Hrun as (ad & w1 & Had & Hrun).
  pose proof Had as Hs.
  apply get_provider_ad_run in Hs as (evs & -> & ->).
  apply bind_inr in Hrun as (cid & ? & Hs & Hrun). apply getitem_inr in Hs as [Hcid ->].
  apply bind_inr in Hrun as (ruri & ? & Hs & Hrun). apply getitem_inr in Hs as [Hruri ->].
  apply bind_inr in Hrun as (url & ? & Hs & Hrun). apply getitem_inr in Hs as [Hurl ->].
  apply bind_inr in Hrun as ([auth_url st] & ? & Hs & Hrun). apply lift_inr in Hs as [Hauth ->].
  apply bind_inr in Hrun as (provs2 & ? & Hs & Hrun).
  apply session_get_inr in Hs as [Hprovs2 ->]. wsimpl. simplify_eq.
  apply bind_inr in Hrun as (p & ? & Hs & Hrun). apply getitem_inr in Hs as [Hp ->].
  apply bind_inr in Hrun as ([] & ? & Hs & Hrun).
  rewrite modify_session_run in Hs. injection Hs as <-.
  apply bind_inr in Hrun as ([] & ? & Hs & Hrun).
  rewrite modify_session_run in Hs. injection Hs as <-.
  injection Hrun as <- <-. wsimpl.
  by eexists provs, p, kp, ad, _, cid, ruri, url, auth_url, st.
Qed.

(** X16.  A successful [oauth_login] redirects to the authorization URL that
    the library has built from the descriptor of the provider (its
    [ClientId], [ReturnUrl], [AuthorizationUrl], its scopes split and
    trimmed, and its audience as the resource).  The state that came with
    that URL is stored on the provider and the provider is recorded as the
    one in flight; the key file was consulted once. *)
Theorem oauth_login_redirects provider w r w' :
  oauth_login fmt provider w = (inr r, w') →
  ∃ provs p kp (ad : ClassAd) cid ruri url auth_url st,
    providers (session w) = Some provs ∧ provs !! provider = Some p ∧
    key_path (session w) = Some kp ∧
    (get_provider_ad provider kp w).1 = inr ad ∧
    ad !! "ClientId" = Some cid ∧ ad !! "ReturnUrl" = Some ruri ∧
    ad !! "AuthorizationUrl" = Some url ∧
    authorization_url cid ruri (split_scopes <$> ad !! "Scopes") url
      (ad !! "Audience") = inr (auth_url, st) ∧
    r = redirect auth_url ∧
    session w' =
      set_outgoing_provider (Some provider)
        (set_providers (<[provider := set_state st p]> provs) (session w)) ∧
    filesystem w' = filesystem w ∧
    trace w' = trace w ++ [EvFile (FExists kp) None; EvFile (FOpenAds kp) None].
Proof.
  intros (provs & p & kp & ad & w1 & cid & ruri & url & auth_url & st & Hrun)
    %oauth_login_run.
  destruct Hrun as (? & ? & ? & Had & ? & ? & ? & ? & ? & ->).
  exists provs, p, kp, ad, cid, ruri, url, auth_url, st.
  rewrite Had. by split_and!.
Qed.

End Login.

(** ** Further properties of [oauth_return] *)

Section Exchange.
Context `{Platform, OAuthLib}.

(** The identity block changes nothing when it fails. *)
Lemma get_user_info_inl provider (ad : ClassAd) cid token w e w' :
  get_user_info provider ad cid token w = (inl e, w') →
  moves eq eq writes_nothing w w'.
Proof.
  assert (Hrefl : ∀ w1, moves eq eq writes_nothing w1 w1)
    by (intros; apply moves_refl; apply _).
  assert (Hnet : ∀ (c : list NetCall * (exn + (exn + json))) w1 r1 w2,
            net_op c w1 = (r1, w2) → moves eq eq writes_nothing w1 w2).
  { intros c. by apply always_net_op; [apply _..|]. }
  unfold get_user_info, try_except.
  match goal with |- context [match ?b w with _ => _ end] =>
    set (body := b); assert (Hbody : ∀ e1 w1, body w = (inl e1, w1) →
                                       moves eq eq writes_nothing w w1) end.
  { intros e1 w1 Hb. unfold body in Hb.
    apply bind_inv in Hb as [(e2 & Hs & _)|(url & w2 & Hs & Hb)].
    { rewrite getitem_eq in Hs. injection Hs as _ <-. apply Hrefl. }
    apply getitem_inr in Hs as [_ ->].
    apply bind_inv in Hb as [(e2 & Hs & _)|(resp & w2 & Hs & Hb)];
      [by eapply Hnet|].
    apply Hnet in Hs.
    eapply moves_trans; [apply _..|exact Hs|].
    apply bind_inv in Hb as [(e2 & Hs' & _)|(info & w3 & Hs' & Hb)].
    { rewrite lift_eq in Hs'. injection Hs' as _ <-. apply Hrefl. }
    apply lift_inr in Hs' as [_ ->].
    assert (Hup : ∀ v, update_provider provider (set_username v) w2 = (inl e1, w1) →
                       moves eq eq writes_nothing w2 w1).
    { intros v [_ ->]%update_provider_inl. apply Hrefl. }
    apply bind_inv in Hb as [(e2 & Hs' & _)|(b & w3 & Hs' & Hb)].
    { rewrite lift_eq in Hs'. injection Hs' as _ <-. apply Hrefl. }
    apply lift_inr in Hs' as [_ ->]. destruct b.
    - apply bind_inv in Hb as [(e2 & Hs' & _)|(v & w3 & Hs' & Hb)].
      { rewrite lift_eq in Hs'. injection Hs' as _ <-. apply Hrefl. }
      apply lift_inr in Hs' as [_ ->]. by eapply Hup.
    - apply bind_inv in Hb as [(e2 & Hs' & _)|(b & w3 & Hs' & Hb)].
      { rewrite lift_eq in Hs'. injection Hs' as _ <-. apply Hrefl. }
      apply lift_inr in Hs' as [_ ->]. destruct b; [|by eapply Hup].
      apply bind_inv in Hb as [(e2 & Hs' & _)|(v & w3 & Hs' & Hb)].
      { rewrite lift_eq in Hs'. injection Hs' as _ <-. apply Hrefl. }
      apply lift_inr in Hs' as [_ ->]. by eapply Hup. }
  destruct (body w) as [[e1|[]] w1] eqn:Hb; [|done].
  specialize (Hbody _ _ eq_refl).
  destruct (isinstance e1 ValueError).
  - intros [_ ->]%update_provider_inl. exact Hbody.
  - by intros [= <- <-].
Qed.

(** A run of [oauth_return] up to the identity block: it has failed
    without writing anything, or it holds a token and a username. *)
Lemma oauth_return_exchange url req w r w' :
  oauth_return url req w = (r, w') →
  let provider := resolve_provider (session w) url in
  let w0 := {| session := set_outgoing_provider None (session w);
               filesystem := filesystem w; trace := trace w |} in
  (∃ e evs, r = inl e ∧ session w' = session w0 ∧
     filesystem w' = filesystem w ∧ trace w' = trace w ++ evs ∧
     Forall writes_nothing evs) ∨
  (∃ provs p kp (ad : ClassAd) w1 cid ruri st sec turl token,
     providers (session w) = Some provs ∧ provs !! provider = Some p ∧
     state p = Some st ∧ key_path (session w) = Some kp ∧
     get_provider_ad provider kp w0 = (inr ad, w1) ∧
     ad !! "ClientId" = Some cid ∧ ad !! "ReturnUrl" = Some ruri ∧
     ad !! "ClientSecret" = Some sec ∧ ad !! "TokenUrl" = Some turl ∧
     (fetch_token cid st ruri turl (updated_url req) sec).2 = inr token ∧
     ∃ user_url v, ad !! "UserUrl" = Some user_url ∧
       resolves_identity (oauth_get cid token user_url).2 v).
Proof.
  intros Hrun provider w0.
  assert (Hstop : ∀ e w1, r = inl e → w' = w1 →
            moves eq eq writes_nothing w0 w1 →
            ∃ e evs, r = inl e ∧ session w' = session w0 ∧
              filesystem w' = filesystem w ∧ trace w' = trace w ++ evs ∧
              Forall writes_nothing evs).
  { intros e w1 -> -> (Hs & Hf & evs & Ht & Hevs). by exists e, evs. }
  assert (Hreads : ∀ kp ev, reads_key_file kp ev → writes_nothing ev).
  { intros kp [| |] Hev; cbn in *; [done| |done]. by destruct Hev as [-> | ->]. }
  assert (Hrefl : ∀ w1, moves eq eq writes_nothing w1 w1)
    by (intros; apply moves_refl; apply _).
  assert (Hgpa : ∀ name kp w1 r1 w2, get_provider_ad name kp w1 = (r1, w2) →
                   moves eq eq writes_nothing w1 w2).
  { intros name kp. apply always_get_provider_ad; [apply _..|]. apply Hreads. }
  unfold oauth_return in Hrun.
  rewrite (bind_ok _ _ w (session w) w) in Hrun by reflexivity. cbv zeta in Hrun.
  erewrite bind_ok in Hrun by apply modify_session_run. fold provider w0 in Hrun.
  apply bind_inv in Hrun as [(e & Hs & ->)|(provs & ? & Hs & Hrun)].
  { left. rewrite session_get_eq in Hs.
    destruct (providers (session w0)); [discriminate Hs|]. injection Hs as <- <-.
    eapply Hstop; [done..|]. apply Hrefl. }
  apply session_get_inr in Hs as [Hprovs ->]. subst w0. wsimpl.
  set (w0 := {| session := set_outgoing_provider None (session w);
                filesystem := filesystem w; trace := trace w |}) in *.
  apply bind_inv in Hrun as [(e & Hs & ->)|([] & ? & Hs & Hrun)].
  { left. case_bool_decide; [|discriminate Hs]. injection Hs as <- <-.
    eapply Hstop; [done..|]. apply Hrefl. }
  case_bool_decide as Hmem; [discriminate Hs|]. injection Hs as <-.
  apply bind_inv in Hrun as [(e & Hs & ->)|(kp & ? & Hs & Hrun)].
  { left. rewrite session_get_eq in Hs.
    destruct (key_path (session w0)); [discriminate Hs|]. injection Hs as <- <-.
    eapply Hstop; [done..|]. apply Hrefl. }
  apply session_get_inr in Hs as [Hkp ->]. subst w0. wsimpl.
  set (w0 := {| session := set_outgoing_provider None (session w);
                filesystem := filesystem w; trace := trace w |}) in *.
  apply bind_inv in Hrun as [(e & Hs & ->)|(ad & w1 & Had & Hrun)].
  { left. eapply Hstop; [done..|]. by eapply Hgpa. }
  assert (Hw1 : moves eq eq writes_nothing w0 w1) by by eapply Hgpa.
  apply bind_inv in Hrun as [(e & Hs & ->)|(cid & ? & Hs & Hrun)].
  { left. rewrite getitem_eq in Hs. destruct (ad !! "ClientId");
      [discriminate Hs|]. injection Hs as <- <-. by eapply Hstop. }
  apply getitem_inr in Hs as [Hcid ->].
  apply bind_inv in Hrun as [(e & Hs & ->)|(ruri & ? & Hs & Hrun)].
  { left. rewrite getitem_eq in Hs. destruct (ad !! "ReturnUrl");
      [discriminate Hs|]. injection Hs as <- <-. by eapply Hstop. }
  apply getitem_inr in Hs as [Hruri ->].
  assert (Hprovs1 : providers (session w1) = Some provs).
  { destruct Hw1 as (<- & _). exact Hprovs. }
  apply bind_inv in Hrun as [(e & Hs & ->)|(p & ? & Hs & Hrun)].
  { unfold session_provider in Hs.
    erewrite bind_ok in Hs by (apply session_get_ok; exact Hprovs1).
    rewrite getitem_eq in Hs.
    destruct (provs !! provider); [discriminate Hs|]. by destruct Hmem. }
  unfold session_provider in Hs.
  erewrite bind_ok in Hs by (apply session_get_ok; exact Hprovs1).
  apply getitem_inr in Hs as [Hp ->].
  apply bind_inv in Hrun as [(e & Hs & ->)|(st & ? & Hs & Hrun)].
  { left. rewrite getitem_eq in Hs. destruct (state p);
      [discriminate Hs|]. injection Hs as <- <-. by eapply Hstop. }
  apply getitem_inr in Hs as [Hst ->].
  apply bind_inv in Hrun as [(e & Hs & ->)|(sec & ? & Hs & Hrun)].
  { left. rewrite getitem_eq in Hs. destruct (ad !! "ClientSecret");
      [discriminate Hs|]. injection Hs as <- <-. by eapply Hstop. }
  apply getitem_inr in Hs as [Hsec ->].
  apply bind_inv in Hrun as [(e & Hs & ->)|(turl & ? & Hs & Hrun)].
  { left. rewrite getitem_eq in Hs. destruct (ad !! "TokenUrl");
      [discriminate Hs|]. injection Hs as <- <-. by eapply Hstop. }
  apply getitem_inr in Hs as [Hturl ->].
  apply bind_inv in Hrun as [(e & Hs & ->)|(token & x4 & Hs & Hrun)].
  { left. eapply Hstop; [done..|].
    eapply moves_trans; [apply _..|exact Hw1|].
    eapply (always_net_op eq eq writes_nothing); [apply _..| |exact Hs]. done. }
  assert (Hw2 : moves eq eq writes_nothing w0 x4).
  { eapply moves_trans; [apply _..|exact Hw1|].
    eapply (always_net_op eq eq writes_nothing); [apply _..| |exact Hs]. done. }
  apply net_op_inr in Hs as [Htoken Hx4].
  apply bind_inv in Hrun as [(e & Hs & ->)|(lu & ? & Hs & Hrun)].
  { left. rewrite session_get_eq in Hs.
    destruct (local_username (session x4)); [discriminate Hs|].
    injection Hs as <- <-. exact (Hstop _ x4 eq_refl eq_refl Hw2). }
  apply session_get_inr in Hs as [_ ->].
  apply bind_inv in Hrun as [(e & Hs & ->)|([] & w3 & Hs & Hrun)].
  { match type of Hs with print ?s ?w2 = _ =>
      destruct (print_run s w2) as (logs & _ & Hpr) end.
    rewrite Hpr in Hs. discriminate Hs. }
  assert (Hw3 : moves eq eq writes_nothing w0 w3).
  { eapply moves_trans; [apply _..|exact Hw2|].
    eapply (always_print eq eq writes_nothing); [apply _..| |exact Hs]. done. }
  apply bind_inv in Hrun as [(e & Hs' & ->)|([] & w4 & Hs' & Hrun)].
  { left. eapply Hstop; [done..|].
    eapply moves_trans; [apply _..|exact Hw3|]. by eapply get_user_info_inl. }
  apply get_user_info_inr in Hs'
    as (provs3 & p3 & user_url & v & _ & _ & Hurl & Hid & _).
  right. exists provs, p, kp, ad, w1, cid, ruri, st, sec, turl, token.
  split_and!; try done. by exists user_url, v.
Qed.

(** X18.  [oauth_return] writes nothing before it holds a token and a
    username.  Either the handler has failed, the file system is as it was,
    no file was created, written or renamed, and the session has only lost
    its in-flight record; or the token exchange, called with the
    [ClientId], [ReturnUrl], [ClientSecret] and [TokenUrl] of the descriptor
    of the resolved provider and with the state stored for it, has returned
    a token, and the identity block has resolved a username from the answer
    of the [UserUrl] of that descriptor. *)
Theorem oauth_return_writes_after_exchange url req w r w' :
  oauth_return url req w = (r, w') →
  let provider := resolve_provider (session w) url in
  (∃ e evs, r = inl e ∧
     session w' = set_outgoing_provider None (session w) ∧
     filesystem w' = filesystem w ∧ trace w' = trace w ++ evs ∧
     Forall writes_nothing evs) ∨
  (∃ provs p kp (ad : ClassAd) cid ruri st sec turl token user_url v,
     providers (session w) = Some provs ∧ provs !! provider = Some p ∧
     state p = Some st ∧ key_path (session w) = Some kp ∧
     (get_provider_ad provider kp w).1 = inr ad ∧
     ad !! "ClientId" = Some cid ∧ ad !! "ReturnUrl" = Some ruri ∧
     ad !! "ClientSecret" = Some sec ∧ ad !! "TokenUrl" = Some turl ∧
     (fetch_token cid st ruri turl (updated_url req) sec).2 = inr token ∧
     ad !! "UserUrl" = Some user_url ∧
     resolves_identity (oauth_get cid token user_url).2 v).
Proof.
  intros [Hstop|Hgo]%oauth_return_exchange provider.
  - by left.
  - right. destruct Hgo as (provs & p & kp & ad & w1 & cid & ruri & st & sec &
      turl & token & ? & ? & ? & ? & Had & ? & ? & ? & ? & ? & user_url & v &
      ? & ?).
    exists provs, p, kp, ad, cid, ruri, st, sec, turl, token, user_url, v.
    split_and!; try done.
    unfold provider. by rewrite (get_provider_ad_same_fs _ _ _ _ _ w Had).
Qed.

(** X19.  When the token exchange fails, [oauth_return] fails with the
    exception of the library, unchanged.  Up to then it has consulted the
    key file and made the network calls of the exchange; nothing was
    written, and the session has only lost its in-flight record: the
    provider is not logged in and has no username. *)
Theorem oauth_return_exchange_failure url req w provs p st kp (ad : ClassAd)
    cid ruri sec turl calls e :
  let provider := resolve_provider (session w) url in
  providers (session w) = Some provs → provs !! provider = Some p →
  state p = Some st → key_path (session w) = Some kp →
  (get_provider_ad provider kp w).1 = inr ad →
  ad !! "ClientId" = Some cid → ad !! "ReturnUrl" = Some ruri →
  ad !! "ClientSecret" = Some sec → ad !! "TokenUrl" = Some turl →
  fetch_token cid st ruri turl (updated_url req) sec = (calls, inl e) →
  oauth_return url req w =
    (inl e,
     {| session := set_outgoing_provider None (session w);
        filesystem := filesystem w;
        trace := trace w ++ [EvFile (FExists kp) None;
                             EvFile (FOpenAds kp) None] ++ (EvNet <$> calls) |}).
Proof.
  intros provider Hprovs Hp Hst Hkp Had Hcid Hruri Hsec Hturl Hfetch.
  destruct (get_provider_ad provider kp w) as [r1 w1] eqn:Had1.
  cbn in Had. subst r1.
  set (w0 := {| session := set_outgoing_provider None (session w);
                filesystem := filesystem w; trace := trace w |}).
  pose proof (get_provider_ad_same_fs _ _ _ _ _ w0 Had1 eq_refl) as Had0.
  unfold oauth_return.
  rewrite (bind_ok _ _ w (session w) w) by reflexivity. cbv zeta.
  erewrite bind_ok by apply modify_session_run. fold provider w0.
  erewrite bind_ok by (apply session_get_ok; exact Hprovs).
  rewrite bool_decide_eq_false_2 by (by rewrite Hp).
  erewrite bind_ok by reflexivity.
  erewrite bind_ok by (apply session_get_ok; exact Hkp).
  erewrite bind_ok by exact Had0.
  erewrite bind_ok by (rewrite getitem_eq, Hcid; reflexivity).
  erewrite bind_ok by (rewrite getitem_eq, Hruri; reflexivity).
  erewrite bind_ok; last first.
  { unfold session_provider.
    erewrite bind_ok by (apply session_get_ok; exact Hprovs).
    rewrite getitem_eq, Hp. reflexivity. }
  erewrite bind_ok by (rewrite getitem_eq, Hst; reflexivity).
  erewrite bind_ok by (rewrite getitem_eq, Hsec; reflexivity).
  erewrite bind_ok by (rewrite getitem_eq, Hturl; reflexivity).
  rewrite bind_unfold. unfold net_op. rewrite Hfetch. wsimpl.
  by rewrite <- app_assoc.
Qed.

End Exchange.

#[global] Instance any_preorder {A} : PreOrder (λ _ _ : A, True).
Proof. by split. Qed.

Section Changes.
Context `{Platform, OAuthLib}.

(** X20.  Whatever its outcome, [oauth_return] changes nothing in the session
    but the login flag and the username of the provider it has resolved,
    the session flag and the in-flight record.  The states are as they
    were, the one of the resolved provider included: a state is not
    consumed by the callback that used it.  The requested scopes and
    audiences, the key path, the local username and the entries of the
    other providers are as they were. *)
Theorem oauth_return_changes url req w r w' :
  oauth_return url req w = (r, w') →
  return_changes (resolve_provider (session w) url) (session w) (session w').
Proof.
  intros Hrun. unfold oauth_return in Hrun.
  apply bind_inv in Hrun as [(e & [=] & _)|(s & w1 & [= <- <-] & Hrun)].
  cbv zeta in Hrun.
  apply bind_inv in Hrun as [(e & [=] & _)|([] & w1 & [= <-] & Hrun)].
  set (provider := resolve_provider (session w) url) in *.
  revert Hrun.
  match goal with |- ?m ?w0 = _ → _ =>
    assert (Hall : always (return_changes provider) (λ _ _, True) (λ _, True) m)
  end.
  { assert (Hup : ∀ f, (∀ p, keeps_request p (f p)) →
        ∀ s provs p, providers s = Some provs → provs !! provider = Some p →
          return_changes provider s
            (set_providers (<[provider := f p]> provs) s)).
    { intros f Hf s provs p Hprovs Hp. split_and!; try done.
      cbn [providers set_providers]. rewrite Hprovs. constructor.
      by apply (entries_agree_insert _ _ _ p). }
    assert (Hcheck : ∀ provs s,
              return_changes provider s (check_other_providers provs s)).
    { intros provs s.
      destruct (check_other_providers_spec provs s) as (Hp & Hk & Hl & _).
      split_and!; [done..|]. rewrite Hp. reflexivity. }
    assert (Hflag : ∀ b s, return_changes provider s (set_logged_in b s)).
    { intros b s. by split_and!. }
    solve_always ltac:(first
      [ done
      | by (intros; apply Hup)
      | by (intros ?; apply Hup)
      | apply Hcheck | apply Hflag ]). }
  intros Hr. destruct (Hall _ _ _ Hr) as ((Hk & Hl & Hp) & _).
  by split_and!.
Qed.

(** X17.  [oauth_login] followed by [oauth_return]: when both succeed, whatever
    the name in the path of the callback, the token exchange was checked
    against the state that came with the authorization URL of the login,
    with the client and the return URL that URL was built with; the
    provider logged in is the one of the login, and no provider is in
    flight any more. *)
Theorem oauth_login_then_return fmt provider url req w0 r1 w1 r2 w2 :
  oauth_login fmt provider w0 = (inr r1, w1) →
  oauth_return url req w1 = (inr r2, w2) →
  ∃ kp (ad : ClassAd) cid ruri aurl auth_url st turl sec token provs2 p2,
    key_path (session w0) = Some kp ∧
    (get_provider_ad provider kp w0).1 = inr ad ∧
    ad !! "ClientId" = Some cid ∧ ad !! "ReturnUrl" = Some ruri ∧
    ad !! "AuthorizationUrl" = Some aurl ∧
    authorization_url cid ruri (split_scopes <$> ad !! "Scopes") aurl
      (ad !! "Audience") = inr (auth_url, st) ∧
    r1 = redirect auth_url ∧
    ad !! "ClientSecret" = Some sec ∧ ad !! "TokenUrl" = Some turl ∧
    (fetch_token cid st ruri turl (updated_url req) sec).2 = inr token ∧
    providers (session w2) = Some provs2 ∧ provs2 !! provider = Some p2 ∧
    p_logged_in p2 = true ∧ outgoing_provider (session w2) = None.
Proof.
  intros Hlogin Hreturn.
  apply oauth_login_run in Hlogin
    as (provs & p & kp & ad & w01 & cid & ruri & aurl & auth_url & st &
        Hprovs & Hp & Hkp & Had & Hcid & Hruri & Haurl & Hauth & -> & ->).
  pose proof (oauth_return_pops_outgoing_provider _ _ _ _ _ Hreturn) as Hout.
  pose proof (oauth_return_marks _ _ _ _ _ Hreturn)
    as (provs1 & provs2 & p2 & b & _ & Hprovs2 & Hp2 & Hin & _).
  apply oauth_return_exchange in Hreturn as [(e & evs & [=] & _)|Hgo].
  cbv zeta in Hgo. cbn [resolve_provider] in Hp2. wsimpl.
  unfold resolve_provider in Hgo, Hp2. wsimpl. cbn [default] in Hgo, Hp2.
  destruct Hgo as (provs' & p' & kp' & ad' & w11 & cid' & ruri' & st' & sec &
                   turl & token & Hprovs' & Hp' & Hst' & Hkp' & Had' &
                   Hcid' & Hruri' & Hsec & Hturl & Htoken & _).
  injection Hprovs' as <-. rewrite lookup_insert_eq in Hp'.
  injection Hp' as <-. cbn in Hst'. injection Hst' as <-.
  rewrite Hkp in Hkp'. injection Hkp' as <-.
  erewrite (get_provider_ad_same_fs _ _ _ _ _ _ Had) in Had' by reflexivity.
  injection Had' as <- _. simplify_eq.
  exists kp, ad, cid, ruri, aurl, auth_url, st, turl, sec, token, provs2, p2.
  rewrite Had. by split_and!.
Qed.

End Changes.

(** ** Failures of the file system in [oauth_return] *)

Section FailStop.
Context `{Platform, OAuthLib}.

#[local] Abbreviation clean := (λ ev, ¬ failed_op ev).

Lemma clean_log l m : clean (EvLog l m).
Proof. by intros (? & ? & [=] & _). Qed.

Lemma clean_net c : clean (EvNet c).
Proof. by intros (? & ? & [=] & _). Qed.

Lemma clean_ok op : clean (EvFile op None).
Proof. by intros (? & ? & [=] & _). Qed.

Lemma clean_rename src dst err : clean (EvFile (FRename src dst) err).
Proof. intros (? & ? & [= <- _] & Hop). by eapply Hop. Qed.

Lemma clean_logs logs : only_logs logs → Forall clean logs.
Proof.
  intros Hlogs. eapply Forall_impl; [exact Hlogs|].
  intros ev (l & m & ->). apply clean_log.
Qed.

(** A block none of whose file operations can fail, renames apart. *)
Lemma fails_stop_clean {A} (m : M A) :
  always (λ _ _, True) (λ _ _, True) clean m → fails_stop m.
Proof.
  intros Hm w r w' (_ & _ & evs & Ht & Hevs)%Hm. exists evs. split; [done|].
  by left.
Qed.

Lemma fails_stop_bind {A B} (m : M A) (k : A → M B) :
  fails_stop m → (∀ a, fails_stop (k a)) → fails_stop (m ≫= k).
Proof.
  intros Hm Hk w r w' [(e & Hs & ->)|(a & w1 & Hs & Hrun)]%bind_inv.
  - apply Hm in Hs as (evs & Ht & Hevs). exists evs. split; [done|].
    destruct Hevs as [Hc|(pre & op & e' & logs & -> & Hop & Hpre & Hlogs & [= ->])];
      [by left|right]. by exists pre, op, e', logs.
  - apply Hm in Hs as (evs1 & Ht1 & Hevs1).
    apply Hk in Hrun as (evs2 & Ht2 & Hevs2). exists (evs1 ++ evs2).
    rewrite Ht2, Ht1, app_assoc. split; [done|].
    destruct Hevs1 as [Hc1|(? & ? & ? & ? & _ & _ & _ & _ & [=])].
    destruct Hevs2 as [Hc2|(pre & op & e' & logs & -> & Hop & Hpre & Hlogs & ->)].
    + left. by apply Forall_app.
    + right. exists (evs1 ++ pre), op, e', logs. rewrite app_assoc.
      split_and!; try done. by apply Forall_app.
Qed.

Lemma fails_stop_file_op {A} op (f : FS → (exn + A) * FS) :
  fails_stop (file_op op f).
Proof.
  intros w r w'. unfold file_op.
  destruct (f (filesystem w)) as [[e|a] fs']; intros [= <- <-]; eexists;
    (split; [done|]).
  - destruct op as [p|p|p|p|d|c p|src dst];
      try (right; eexists [], _, e, []; split_and!;
           [done|done|constructor|constructor|done]).
    left. repeat constructor. apply clean_rename.
  - left. repeat constructor. apply clean_ok.
Qed.

(** [try: body except cls as e: print(...); raise] *)
Lemma fails_stop_reraise {A} (body : M A) cls (msg : exn → string) :
  fails_stop body →
  fails_stop (try_except body cls (λ e, print (msg e);; raise e)).
Proof.
  intros Hb w r w'. unfold try_except.
  destruct (body w) as [[e|a] w1] eqn:Hbody;
    apply Hb in Hbody as (evs & Ht & Hevs).
  - destruct (isinstance e cls); [|intros [= <- <-]; by exists evs].
    rewrite bind_unfold. destruct (print_run (msg e) w1) as (logs & Hlogs & ->).
    intros [= <- <-]. wsimpl. exists (evs ++ logs).
    rewrite Ht, app_assoc. split; [done|].
    destruct Hevs as [Hc|(pre & op & e' & logs' & -> & Hop & Hpre & Hlogs' & [= ->])].
    + left. apply Forall_app. split; [done|]. by apply clean_logs.
    + right. exists pre, op, e', (logs' ++ logs). rewrite <- app_assoc.
      split_and!; try done. by apply Forall_app.
  - intros [= <- <-]. by exists evs.
Qed.

Lemma fails_stop_get_provider_ad provider kp :
  fails_stop (get_provider_ad provider kp).
Proof.
  unfold get_provider_ad, os_path_exists, classad_parseAds.
  apply fails_stop_bind; [apply fails_stop_file_op|intros found].
  destruct (negb found).
  - apply fails_stop_clean. solve_always idtac.
  - apply (fails_stop_reraise _ _
             (λ ie, "Failed to open key file " +:+ kp +:+ ": " +:+ exn_msg ie)).
    apply fails_stop_bind; [apply fails_stop_file_op|intros [ads rest]].
    apply fails_stop_clean.
    intros w r w' ->%find_provider_ad_world. apply moves_refl; apply _.
Qed.

Ltac solve_fails_stop :=
  repeat first
    [ apply fails_stop_get_provider_ad
    | apply fails_stop_bind; [|intros ?]
    | apply fails_stop_file_op
    | apply fails_stop_reraise
    | match goal with
      | |- fails_stop (if ?b then _ else _) => destruct b
      | |- fails_stop (let '(_, _) := ?x in _) => destruct x as [? ?]
      end
    | progress unfold os_path_isdir, os_makedirs, tempfile_mkstemp,
        json_dump_to
    | apply fails_stop_clean;
      solve [solve_always ltac:(first
        [ done | intros; apply clean_log | intros; apply clean_net
        | intros; apply clean_rename ])] ].

Lemma oauth_return_fail_stop url req : fails_stop (oauth_return url req).
Proof. unfold oauth_return. cbv zeta. solve_fails_stop. Qed.

(** X21.  When a file operation of [oauth_return] other than a rename fails
    (the reading of the key file, the creation of the user's directory or
    of a temporary file, the writing of a temporary file), the handler stops
    there: it raises the exception of that operation, whatever its class,
    and does nothing after it but log. *)
Theorem oauth_return_file_failure url req w r w' evs op e :
  oauth_return url req w = (r, w') → trace w' = trace w ++ evs →
  EvFile op (Some e) ∈ evs → (∀ src dst, op ≠ FRename src dst) →
  r = inl e ∧
  ∃ pre logs, evs = pre ++ EvFile op (Some e) :: logs ∧ only_logs logs.
Proof.
  intros (evs' & Ht & Hevs)%oauth_return_fail_stop Ht' Hin Hop.
  rewrite Ht in Ht'. apply app_inv_head in Ht' as ->.
  assert (Hfailed : failed_op (EvFile op (Some e))) by by exists op, e.
  destruct Hevs as [Hc|(pre & op' & e' & logs & -> & Hop' & Hpre & Hlogs & ->)].
  - by apply (proj1 (Forall_forall _ _) Hc) in Hin.
  - apply elem_of_app in Hin as [Hin|Hin].
    { by apply (proj1 (Forall_forall _ _) Hpre) in Hin. }
    apply elem_of_cons in Hin as [[= -> ->]|Hin].
    + split; [done|]. by exists pre, logs.
    + apply (proj1 (Forall_forall _ _) Hlogs) in Hin as (? & ? & [=]).
Qed.

End FailStop.

(** ** The key set of [jwks_uri] *)

Section Jwks.
Context `{WellKnown}.

Lemma getattr_inr o name v : getattr o name = inr v → o !! name = Some v.
Proof. unfold getattr. destruct (o !! name); by intros [= <-]. Qed.

Lemma getattr_Some o name v : o !! name = Some v → getattr o name = inr v.
Proof. unfold getattr. by intros ->. Qed.

Lemma getattr_None o name :
  o !! name = None → ∃ msg, getattr o name = inl (Exn AttributeError msg).
Proof. unfold getattr. intros ->. by eexists. Qed.

(** X22.  A key set that [jwks_uri] publishes holds exactly one key, for the use
    [sig], under the configured key id (["local"] by default), read from the
    configured key file ([/etc/condor/scitokens.pem] by default).  When the
    public numbers of that key have an [x], the key is published as an
    elliptic-curve key with its [x] and [y], and always on the curve
    [P-256]; otherwise it is published as an RSA key for [RS256] with its
    [n] and [e]. *)
Theorem jwks_uri_publishes doc :
  jwks_uri = inr doc →
  ∃ numbers kid jwk,
    read_public_numbers
      (default "/etc/condor/scitokens.pem"
               (htcondor_param !! "LOCAL_CREDMON_PUBLIC_KEY")) = inr numbers ∧
    decode_utf8 (default "local" (htcondor_param !! "LOCAL_CREDMON_KEY_ID"))
      = inr kid ∧
    doc = JObj {["keys" := JArr [JObj jwk]]} ∧
    jwk !! "kid" = Some (JStr kid) ∧ jwk !! "use" = Some (JStr "sig") ∧
    match numbers !! "x" with
    | Some x =>
        ∃ y, numbers !! "y" = Some y ∧
          jwk !! "kty" = Some (JStr "EC") ∧
          jwk !! "crv" = Some (JStr "P-256") ∧
          jwk !! "x" = Some (JStr (string_from_long x)) ∧
          jwk !! "y" = Some (JStr (string_from_long y)) ∧
          size jwk = 6
    | None =>
        ∃ n e, numbers !! "n" = Some n ∧ numbers !! "e" = Some e ∧
          jwk !! "kty" = Some (JStr "RSA") ∧
          jwk !! "alg" = Some (JStr "RS256") ∧
          jwk !! "n" = Some (JStr (string_from_long n)) ∧
          jwk !! "e" = Some (JStr (string_from_long e)) ∧
          size jwk = 6
    end.
Proof.
  unfold jwks_uri. cbv zeta.
  destruct (read_public_numbers _) as [err|numbers] eqn:Hread; [done|].
  cbn [mbind exn_bind].
  case_bool_decide as Hx.
  - destruct Hx as [x Hx]. rewrite (getattr_Some _ _ _ Hx).
    cbn [mbind exn_bind].
    destruct (getattr numbers "y") as [err|y] eqn:Hy; [done|].
    apply getattr_inr in Hy. cbn [mbind exn_bind].
    destruct (decode_utf8 _) as [err|kid] eqn:Hkid; [done|].
    cbn [mbind exn_bind mret exn_ret]. intros [= <-].
    eexists numbers, kid, _. split_and!; [done..| |]; [by simplify_map_eq..|].
    rewrite Hx. exists y. split_and!; [done|by simplify_map_eq..|].
    by vm_compute.
  - apply eq_None_not_Some in Hx.
    destruct (getattr numbers "n") as [err|n] eqn:Hn; [done|].
    apply getattr_inr in Hn. cbn [mbind exn_bind].
    destruct (getattr numbers "e") as [err|e] eqn:He; [done|].
    apply getattr_inr in He. cbn [mbind exn_bind].
    destruct (decode_utf8 _) as [err|kid] eqn:Hkid; [done|].
    cbn [mbind exn_bind mret exn_ret]. intros [= <-].
    eexists numbers, kid, _. split_and!; [done..| |]; [by simplify_map_eq..|].
    rewrite Hx. exists n, e. split_and!; [done|done|by simplify_map_eq..|].
    by vm_compute.
Qed.

(** X23.  A key whose public numbers have neither an [x] nor an [n], a DSA key
    for instance, is not published: [jwks_uri] raises an
    [AttributeError]. *)
Theorem jwks_uri_other_key numbers :
  read_public_numbers
    (default "/etc/condor/scitokens.pem"
             (htcondor_param !! "LOCAL_CREDMON_PUBLIC_KEY")) = inr numbers →
  numbers !! "x" = None → numbers !! "n" = None →
  ∃ msg, jwks_uri = inl (Exn AttributeError msg).
Proof.
  intros Hread Hx Hn. unfold jwks_uri. cbv zeta. rewrite Hread.
  cbn [mbind exn_bind]. rewrite bool_decide_eq_false_2 by (by rewrite Hx; intros []).
  destruct (getattr_None _ _ Hn) as [msg ->]. by exists msg.
Qed.

End Jwks.

(** ** The properties on the concrete world *)

Module Scenario.
Import Demo.

(** A run is determined by its outcome and the world it reaches. *)
Lemma run_eta `{Platform} {A} (m : M A) (w : World) r :
  (m w).1 = r → m w = (r, (m w).2).
Proof. destruct (m w). by intros <-. Qed.

Lemma lib_checks_state : checks_state.
Proof.
  intros cid st ruri turl resp sec _ Hne. exists mismatching_state.
  cbn [fetch_token oauthlib]. by rewrite bool_decide_eq_false_2.
Qed.

Lemma lib_state_survives_upgrade : state_survives_upgrade updated_url.
Proof.
  intros url. unfold updated_url.
  destruct (startswith "http://" url) eqn:Hs; [|done].
  apply startswith_inv in Hs. rewrite Hs. generalize (PyStr.drop (String.length "http://") url).
  intros rest. vm_compute. reflexivity.
Qed.

(** C5: a key id with a non-hexadecimal character after a hexadecimal one
    passes the check of line 143, and the file system is asked for it. *)
Theorem key_checks_first_character_only :
  let run := key "0g" (world empty_session fs0) in
  is_hex_digit "g" = false ∧
  run.1 = inl (Exn Exception_ "Key file /cred/0g doesn't exist") ∧
  trace run.2 = [EvFile (FExists "/cred/0g") None].
Proof. split_and!; vm_compute; reflexivity. Qed.

Lemma oauth_return_rejects_state_mismatch_witness :
  url_state (callback "forged") ≠ Some "st-github-id" ∧
  ∃ e w' evs,
    oauth_return "box" (callback "forged")
      (world (session_abc (Some "github")) fs0) = (inl e, w') ∧
    trace w' = [] ++ evs ∧ no_net evs ∧ filesystem w' = fs0 ∧
    providers (session w') = Some providers_abc ∧
    exn_cls e = MismatchingStateError.
Proof.
  assert (Hne : url_state (callback "forged") ≠ Some "st-github-id")
    by (vm_compute; discriminate).
  split; [exact Hne|].
  destruct (oauth_return_rejects_state_mismatch "box" (callback "forged")
              (world (session_abc (Some "github")) fs0) providers_abc
              (logged_out "st-github-id") "st-github-id"
              lib_checks_state lib_state_survives_upgrade)
    as (e & w' & evs & Hrun & Ht & Hn & Hf & Hp & _ & Hcls);
    [reflexivity|vm_compute; reflexivity|reflexivity|discriminate|exact Hne|].
  exists e, w', evs. split_and!; try done.
  eapply (Hcls "/cred/abc123" (ad "github" "") _ "https://github/token");
    [reflexivity|apply run_eta; vm_compute; reflexivity|..];
    first [eexists; vm_compute; reflexivity | vm_compute; reflexivity].
Defined.

Lemma github_returns_ok :
  oauth_return "box" (callback "st-github-id")
    (world (session_abc (Some "github")) fs0) =
  (inr (redirect "/"), github_returns.2).
Proof. apply run_eta. vm_compute. reflexivity. Qed.

Lemma oauth_return_splits_refresh_token_witness :
  ∃ cid st ruri turl sec token dir tmpA tmpR tmpM access refresh metadata pre,
    (fetch_token cid st ruri turl (updated_url (callback "st-github-id")) sec).2
      = inr token ∧
    trace github_returns.2 = [] ++ pre ++
      triad_events dir "github" (access, refresh, metadata) tmpA tmpR tmpM ∧
    match token !! "refresh_token" with
    | Some v =>
        access !! "refresh_token" = None ∧
        (∀ k, k ≠ "refresh_token" → access !! k = token !! k) ∧
        refresh = {[ "refresh_token" := v ]} ∧
        metadata !! "use_refresh_token" = Some (JBool true)
    | None =>
        access = token ∧
        refresh = {[ "refresh_token" := JStr "" ]} ∧
        metadata !! "use_refresh_token" = Some (JBool false)
    end.
Proof.
  exact (oauth_return_splits_refresh_token "box" (callback "st-github-id")
           (world (session_abc (Some "github")) fs0) (redirect "/")
           github_returns.2 github_returns_ok).
Defined.

Lemma oauth_return_logged_in_conjunction_witness :
  ∃ provs' p b,
    providers (session github_returns.2) = Some provs' ∧
    provs' !! "github" = Some p ∧ p_logged_in p = true ∧
    logged_in (session github_returns.2) = Some b ∧
    (b = true ↔ ∀ name q, provs' !! name = Some q → p_logged_in q = true).
Proof.
  exact (oauth_return_logged_in_conjunction "box" (callback "st-github-id")
           (world (session_abc (Some "github")) fs0) (redirect "/")
           github_returns.2 github_returns_ok).
Defined.

Lemma oauth_return_resolves_in_flight_provider_witness :
  providers (session (world (session_abc (Some "github")) fs0)) =
    Some providers_abc ∧
  ∃ provs' p, providers (session github_returns.2) = Some provs' ∧
    provs' !! "github" = Some p ∧ p_logged_in p = true ∧
    ∀ other, other ≠ "github" → provs' !! other = providers_abc !! other.
Proof.
  split; [reflexivity|].
  exact (proj2 (proj2 (oauth_return_resolves_in_flight_provider fmt "box"
           (callback "st-github-id") (world (session_abc (Some "github")) fs0)
           providers_abc eq_refl)) (redirect "/") github_returns.2
           github_returns_ok).
Defined.

Lemma github_blocked_trace :
  trace github_blocked.2 =
    [EvFile (FExists "/cred/abc123") None;
     EvFile (FOpenAds "/cred/abc123") None;
     EvNet {| net_method := "POST"; net_url := "https://github/token" |};
     EvLog Debug "Got github token for user alice";
     EvNet {| net_method := "GET"; net_url := "https://github/user" |};
     EvFile (FIsdir "/cred/alice") None;
     EvFile (FMkstemp "/cred/alice") None;
     EvFile (FDump (JObj {["access_token" := JStr "a1"]}) "/cred/alice/tmp6")
            None;
     EvFile (FMkstemp "/cred/alice") None;
     EvFile (FDump (JObj {["refresh_token" := JStr "r1"]}) "/cred/alice/tmp7")
            None;
     EvFile (FMkstemp "/cred/alice") None;
     EvFile (FDump (JObj (<["client_id" := JStr "github-id"]>
                         (<["client_secret" := JStr "github-secret"]>
                         (<["token_url" := JStr "https://github/token"]>
                         {["use_refresh_token" := JBool true]}))))
                   "/cred/alice/tmp8") None;
     EvFile (FRename "/cred/alice/tmp6" "/cred/alice/github.use") None;
     blocked_rename].
Proof. vm_compute. reflexivity. Qed.

Lemma blocked_rename_in_trace : blocked_rename ∈ trace github_blocked.2.
Proof. rewrite github_blocked_trace. do 13 apply list_elem_of_further. apply list_elem_of_here. Qed.

Lemma oauth_return_rename_failure_witness :
  blocked_rename ∈ trace github_blocked.2 ∧
  (∃ pre post,
     trace github_blocked.2 = pre ++ blocked_rename :: post ∧
     Forall not_failed_rename pre ∧
     Forall (λ ev, is_file_event ev = false) post) ∧
  (∀ e', github_blocked.1 = inl e' → isinstance e' OSError = false).
Proof.
  split; [exact blocked_rename_in_trace|].
  apply (oauth_return_rename_failure "box" (callback "st-github-id")
           (world (session_abc (Some "github")) fs_blocked)
           github_blocked.1 github_blocked.2 (trace github_blocked.2)
           "/cred/alice/tmp7" "/cred/alice/github.top"
           (Exn OSError "Is a directory")).
  - unfold github_blocked. by destruct (oauth_return _ _ _).
  - reflexivity.
  - exact blocked_rename_in_trace.
  - reflexivity.
Defined.

(** C2 as stated fails here: a rename has failed with an [OSError], the
    first rename is committed, and what reaches the caller is not an
    [OSError] (it is the [AttributeError] that [LoggerWriter.write] raises
    on the exception object it is handed). *)
Lemma rename_failure_does_not_surface :
  (∃ src dst e, EvFile (FRename src dst) (Some e) ∈ trace github_blocked.2 ∧
                isinstance e OSError = true) ∧
  filesystem github_blocked.2 !! "/cred/alice/github.use" =
    Some (JsonFile (JObj {["access_token" := JStr "a1"]})) ∧
  github_blocked.1 = inl (Exn AttributeError "object has no attribute 'rstrip'") ∧
  ¬ (∃ e, github_blocked.1 = inl e ∧ isinstance e OSError = true).
Proof.
  assert (Hr : github_blocked.1 =
               inl (Exn AttributeError "object has no attribute 'rstrip'"))
    by (vm_compute; reflexivity).
  split_and!.
  - eexists _, _, _. split; [exact blocked_rename_in_trace|reflexivity].
  - vm_compute. reflexivity.
  - exact Hr.
  - rewrite Hr. intros (e & [= <-] & He). discriminate He.
Qed.

Lemma get_user_info_resolution_witness :
  let w := world (session_abc None) fs0 in
  let token : gmap string json := {["access_token" := JStr "a1"]} in
  get_user_info "github" (ad "github" "") "github-id" token w =
    (inr (),
     {| session :=
          set_providers
            (<["github" := set_username (JStr "alice")
                             (logged_out "st-github-id")]> providers_abc)
            (session w);
        filesystem := fs0;
        trace := [EvNet {| net_method := "GET";
                           net_url := "https://github/user" |}] |}) ∧
  get_user_info "box" (ad "box" "") "box-id" token w =
    (inr (),
     {| session :=
          set_providers
            (<["box" := set_username (JStr "Unknown")
                          (logged_out "st-box-id")]> providers_abc)
            (session w);
        filesystem := fs0;
        trace := [EvNet {| net_method := "GET";
                           net_url := "https://box/user" |}] |}).
Proof.
  intros w token. split.
  - exact (get_user_info_resolution "github" (ad "github" "") "github-id"
             token w providers_abc (logged_out "st-github-id")
             "https://github/user" eq_refl eq_refl eq_refl).
  - exact (get_user_info_resolution "box" (ad "box" "") "box-id"
             token w providers_abc (logged_out "st-box-id")
             "https://box/user" eq_refl eq_refl eq_refl).
Defined.

(** C6 as stated fails here: with a descriptor that has no [UserUrl], and
    with an identity endpoint out of reach, the exception of the identity
    block ends [oauth_return], after the token was fetched and before
    anything is written; the username is not set. *)
Lemma identity_failure_propagates :
  let no_url := oauth_return "nouser" (callback "st-nouser-id")
                  (world (session_beef None) fs0) in
  let unreachable := oauth_return "gdrive" (callback "st-gdrive-id")
                  (world (session_beef None) fs0) in
  no_url.1 = inl (Exn KeyError "UserUrl") ∧
  unreachable.1 = inl ConnectionError ∧
  (providers (session no_url.2) ≫= (.!! "nouser")) ≫= username = None ∧
  (providers (session unreachable.2) ≫= (.!! "gdrive")) ≫= username = None ∧
  filter (λ ev, is_file_event ev = true) (trace unreachable.2) =
    [EvFile (FExists "/cred/beef") None; EvFile (FOpenAds "/cred/beef") None].
Proof. split_and!; vm_compute; reflexivity. Qed.

Lemma key_file_abc_valid : valid_key_file key_file.
Proof.
  split; [discriminate|]. repeat constructor; eexists; vm_compute; reflexivity.
Qed.

Lemma key_file_abc_at :
  key_file_at "abc123" (world empty_session fs0) key_file.
Proof. exists "/cred". split_and!; vm_compute; reflexivity. Qed.

Lemma key_one_session_per_provider_str_witness :
  ∃ s resp w' provs,
    key "abc123" (world empty_session fs0) = (inr (s, resp), w') ∧
    providers s = Some provs ∧
    dom provs = list_to_set (omap ad_provider_str key_file) ∧
    (∀ name p, provs !! name = Some p →
       ∃ ad, last (filter (λ ad, ad_provider_str ad = Some name) key_file)
               = Some ad ∧
         p_logged_in p = false ∧
         requested_scopes p = split_scopes <$> ad !! "Scopes" ∧
         requested_resource p = ad !! "Audience" ∧
         state p = None ∧ username p = None) ∧
    ((∀ a b, a ∈ key_file → b ∈ key_file →
             ad_provider_str a = ad_provider_str b →
             provider_handle a = provider_handle b) →
     size provs = length (remove_dups (provider_handle <$> key_file))).
Proof.
  apply (key_one_session_per_provider_str "abc123" (world empty_session fs0)
           key_file).
  - vm_compute. discriminate.
  - exact key_file_abc_at.
  - exact key_file_abc_valid.
Defined.

(** Two distinct pairs under one name: the key file has the
    [(Provider, Handle)] pairs [("a b", "")] and [("a", "b")], and the dict
    that [key] builds has one entry, under the name both share. *)
Lemma distinct_pairs_share_a_session :
  let run := key "c0de" (world empty_session fs0) in
  valid_key_file key_file_c0de ∧
  remove_dups (provider_handle <$> key_file_c0de) = [("a b", ""); ("a", "b")] ∧
  match run.1 with
  | inr (s, _) =>
      providers s = Some {["a b" := new_provider_session (ad "a" "b")]}
  | inl _ => False
  end ∧
  ¬ (∀ s resp provs, run.1 = inr (s, resp) → providers s = Some provs →
       size provs = length (remove_dups (provider_handle <$> key_file_c0de))).
Proof.
  intros run.
  assert (Hrun : match run.1 with
                 | inr (s, _) => (size <$> providers s) = Some 1
                 | inl _ => False
                 end) by (vm_compute; reflexivity).
  split_and!.
  - split; [discriminate|]. repeat constructor; eexists; vm_compute; reflexivity.
  - vm_compute. reflexivity.
  - vm_compute. reflexivity.
  - intros Hclaim. destruct run.1 as [e|[s resp]] eqn:Hr; [done|].
    destruct (providers s) as [provs|] eqn:Hp; [|discriminate Hrun].
    specialize (Hclaim s resp provs eq_refl Hp). injection Hrun as Hsize.
    rewrite Hsize in Hclaim. vm_compute in Hclaim. discriminate Hclaim.
Qed.

Lemma key_local_username_is_last_witness :
  key_file_d1ff !! 0 ≫= (.!! "LocalUser") = Some "bob" ∧
  ∃ s resp w',
    key "d1ff" (world empty_session fs0) = (inr (s, resp), w') ∧
    local_username s = Some "alice".
Proof.
  split; [vm_compute; reflexivity|].
  apply (key_local_username_is_last "d1ff" (world empty_session fs0)
           key_file_d1ff (ad "box" "") "alice").
  - vm_compute. discriminate.
  - exists "/cred". split_and!; vm_compute; reflexivity.
  - repeat constructor; eexists; vm_compute; reflexivity.
  - reflexivity.
  - vm_compute. reflexivity.
Defined.

(** C10 as stated fails here: the descriptor of the provider [box h1] has
    the handle [h1], no in-flight provider is recorded, and the callback
    whose path carries the name [box h1] resolves it: the handler succeeds
    and marks it.  The callback whose path carries [box] does raise the
    unknown-provider exception. *)
Lemma fallback_resolves_provider_with_handle :
  let w := world (session_beef None) fs0 in
  let full := oauth_return "box h1" (callback "st-box-id") w in
  let bare := oauth_return "box" (callback "st-box-id") w in
  ad "box" "h1" !! "Handle" = Some "h1" ∧
  ad_provider_str (ad "box" "h1") = Some "box h1" ∧
  outgoing_provider (session w) = None ∧
  full.1 = inr (redirect "/") ∧
  (providers (session full.2) ≫= (.!! "box h1")) ≫= (Some ∘ p_logged_in)
    = Some true ∧
  bare.1 = inl (Exn Exception_ "Provider box not in list of providers") ∧
  ¬ (∀ name, ∃ msg, (oauth_return name (callback "st-box-id") w).1 =
                      inl (Exn Exception_ msg)).
Proof.
  intros w full bare.
  assert (Hfull : full.1 = inr (redirect "/")) by (vm_compute; reflexivity).
  split_and!; [vm_compute; reflexivity..|].
  intros Hclaim. destruct (Hclaim "box h1") as [msg Hmsg].
  fold full in Hmsg. rewrite Hfull in Hmsg. discriminate Hmsg.
Qed.

(** The end-to-end scenario: [github] first, then [box]. *)
Example end_to_end :
  logged_in (session github_returns.2) = Some false ∧
  filesystem github_returns.2 !! "/cred/alice/github.use" =
    Some (JsonFile (JObj {["access_token" := JStr "a1"]})) ∧
  filesystem github_returns.2 !! "/cred/alice/github.top" =
    Some (JsonFile (JObj {["refresh_token" := JStr "r1"]})) ∧
  (match filesystem github_returns.2 !! "/cred/alice/github.meta" with
   | Some (JsonFile (JObj meta)) => meta !! "use_refresh_token"
   | _ => None
   end) = Some (JBool true) ∧
  box_returns.1 = inr (redirect "/") ∧
  logged_in (session box_returns.2) = Some true ∧
  filesystem box_returns.2 !! "/cred/alice/box.top" =
    Some (JsonFile (JObj {["refresh_token" := JStr ""]})) ∧
  (match filesystem box_returns.2 !! "/cred/alice/box.meta" with
   | Some (JsonFile (JObj meta)) => meta !! "use_refresh_token"
   | _ => None
   end) = Some (JBool false) ∧
  (providers (session box_returns.2) ≫= (.!! "box")) ≫= username
    = Some (JStr "Unknown").
Proof. split_and!; vm_compute; reflexivity. Qed.

Import DemoRuns DemoKeys.

(** *** The further properties on the concrete world *)

Lemma split_scopes_round_trip_witness :
  String.concat "," (split_scopes "read:user,repo") = "read:user,repo".
Proof. apply split_scopes_round_trip. repeat constructor. Defined.

Lemma get_provider_ad_reads_only_witness :
  let w := world (session_abc None) fs0 in
  let run := get_provider_ad "github" "/cred/abc123" w in
  session run.2 = session w ∧ filesystem run.2 = filesystem w ∧
  ∃ evs, trace run.2 = trace w ++ evs ∧
         Forall (reads_key_file "/cred/abc123") evs.
Proof.
  intros w run.
  exact (get_provider_ad_reads_only "github" "/cred/abc123" w run.1 run.2
           (surjective_pairing run)).
Defined.

Lemma get_provider_ad_missing_file_witness :
  get_provider_ad "github" "/cred/f00" (world (session_abc None) fs0) =
    (inl (Exn Exception_ "Key file /cred/f00 doesn't exist"),
     {| session := session_abc None; filesystem := fs0;
        trace := [EvFile (FExists "/cred/f00") None] |}).
Proof.
  exact (get_provider_ad_missing_file "github" "/cred/f00"
           (world (session_abc None) fs0) eq_refl).
Defined.

Lemma get_provider_ad_unknown_provider_witness :
  get_provider_ad "gitlab" "/cred/abc123" (world (session_abc None) fs0) =
    (inl (Exn Exception_ "Provider gitlab not in key file /cred/abc123"),
     {| session := session_abc None; filesystem := fs0;
        trace := [EvFile (FExists "/cred/abc123") None;
                  EvFile (FOpenAds "/cred/abc123") None] |}).
Proof.
  apply (get_provider_ad_unknown_provider "gitlab" "/cred/abc123"
           (world (session_abc None) fs0) key_file).
  - reflexivity.
  - reflexivity.
  - repeat constructor; eexists; (split; [vm_compute; reflexivity|discriminate]).
Defined.

Lemma key_reads_only_witness :
  let w := world empty_session fs0 in
  let run := key "abc123" w in
  session run.2 = session w ∧ filesystem run.2 = filesystem w ∧
  ∃ evs, trace run.2 = trace w ++ evs ∧
    match get_cred_dir with
    | inr cred_dir => Forall (reads_key_file (path_join cred_dir "abc123")) evs
    | inl _ => evs = []
    end.
Proof.
  intros w run.
  exact (key_reads_only "abc123" w run.1 run.2 (surjective_pairing run)).
Defined.

Lemma key_file_e0_at : key_file_at "e0" (world empty_session fs_e0) [].
Proof. exists "/cred". split_and!; vm_compute; reflexivity. Qed.

Lemma key_empty_file_witness :
  ∃ w', key "e0" (world empty_session fs_e0) =
          (inl (Exn UnboundLocalError "provider_ad"), w') ∧
        session w' = empty_session ∧ filesystem w' = fs_e0.
Proof.
  apply (key_empty_file "e0" (world empty_session fs_e0)).
  - vm_compute. discriminate.
  - exact key_file_e0_at.
Defined.

Lemma key_abc_ok :
  ∃ s w', key "abc123" (world empty_session fs0) =
            (inr (s, render_template "index.html"), w').
Proof.
  destruct (key_ok "abc123" (world empty_session fs0) key_file (ad "box" "")
              "alice") as (cd & provs & l1 & l2 & _ & _ & _ & _ & Hkey).
  - vm_compute. discriminate.
  - exact key_file_abc_at.
  - repeat constructor; eexists; vm_compute; reflexivity.
  - reflexivity.
  - vm_compute. reflexivity.
  - by eexists _, _.
Defined.

Lemma key_providers_have_descriptors_witness :
  ∃ s w' provs kp,
    key "abc123" (world empty_session fs0) =
      (inr (s, render_template "index.html"), w') ∧
    providers s = Some provs ∧ key_path s = Some kp ∧
    (is_Some (provs !! "github") ↔
     ∃ ad w2, get_provider_ad "github" kp w' = (inr ad, w2)).
Proof.
  destruct key_abc_ok as (s & w' & Hkey).
  destruct (key_providers_have_descriptors "abc123" (world empty_session fs0)
              s (render_template "index.html") w' "github" Hkey)
    as (provs & kp & Hprovs & Hkp & Hiff).
  by exists s, w', provs, kp.
Defined.

Lemma key_then_oauth_login_witness :
  let w := world empty_session fs0 in
  oauth_login fmt "github" (key "abc123" w).2 =
    (inl (Exn KeyError "providers"),
     {| session := empty_session; filesystem := fs0;
        trace := trace (key "abc123" w).2 ++
          [EvLog Warning (rstrip ("Problem with session dict: " +:+
                                  fmt empty_session +:+ nl))] |}).
Proof.
  intros w.
  exact (key_then_oauth_login fmt "abc123" "github" w (key "abc123" w).1
           (key "abc123" w).2 eq_refl (surjective_pairing _)).
Defined.

Lemma oauth_login_changes_witness :
  let w := world (session_abc None) fs0 in
  login_changes "github" (session w) (session github_login.2) ∧
  filesystem github_login.2 = filesystem w ∧
  ∃ evs, trace github_login.2 = trace w ++ evs ∧
    Forall (λ ev, ∃ kp, reads_key_file kp ev) evs.
Proof.
  intros w.
  exact (oauth_login_changes fmt "github" w github_login.1 github_login.2
           (surjective_pairing _)).
Defined.

Lemma github_login_ok :
  oauth_login fmt "github" (world (session_abc None) fs0) =
    (inr (redirect
            "https://github/authorize?client_id=github-id&state=st-github-id"),
     github_login.2).
Proof. apply run_eta. vm_compute. reflexivity. Qed.

Lemma oauth_login_redirects_witness :
  ∃ provs p kp (ad : ClassAd) cid ruri url auth_url st,
    let w := world (session_abc None) fs0 in
    providers (session w) = Some provs ∧ provs !! "github" = Some p ∧
    key_path (session w) = Some kp ∧
    (get_provider_ad "github" kp w).1 = inr ad ∧
    ad !! "ClientId" = Some cid ∧ ad !! "ReturnUrl" = Some ruri ∧
    ad !! "AuthorizationUrl" = Some url ∧
    authorization_url cid ruri (split_scopes <$> ad !! "Scopes") url
      (ad !! "Audience") = inr (auth_url, st) ∧
    redirect "https://github/authorize?client_id=github-id&state=st-github-id"
      = redirect auth_url ∧
    session github_login.2 =
      set_outgoing_provider (Some "github")
        (set_providers (<["github" := set_state st p]> provs) (session w)) ∧
    filesystem github_login.2 = filesystem w ∧
    trace github_login.2 =
      trace w ++ [EvFile (FExists kp) None; EvFile (FOpenAds kp) None].
Proof.
  exact (oauth_login_redirects fmt "github" (world (session_abc None) fs0) _ _
           github_login_ok).
Defined.

Lemma oauth_return_writes_after_exchange_witness :
  let w := world (session_abc (Some "github")) fs0 in
  let run := oauth_return "box" (callback "forged") w in
  let provider := resolve_provider (session w) "box" in
  (∃ e evs, run.1 = inl e ∧
     session run.2 = set_outgoing_provider None (session w) ∧
     filesystem run.2 = filesystem w ∧ trace run.2 = trace w ++ evs ∧
     Forall writes_nothing evs) ∨
  (∃ provs p kp (ad : ClassAd) cid ruri st sec turl token user_url v,
     providers (session w) = Some provs ∧ provs !! provider = Some p ∧
     state p = Some st ∧ key_path (session w) = Some kp ∧
     (get_provider_ad provider kp w).1 = inr ad ∧
     ad !! "ClientId" = Some cid ∧ ad !! "ReturnUrl" = Some ruri ∧
     ad !! "ClientSecret" = Some sec ∧ ad !! "TokenUrl" = Some turl ∧
     (fetch_token cid st ruri turl (updated_url (callback "forged")) sec).2
       = inr token ∧
     ad !! "UserUrl" = Some user_url ∧
     resolves_identity (oauth_get cid token user_url).2 v).
Proof.
  intros w run.
  exact (oauth_return_writes_after_exchange "box" (callback "forged") w
           run.1 run.2 (surjective_pairing _)).
Defined.

Lemma oauth_return_exchange_failure_witness :
  oauth_return "box" (callback "forged")
    (world (session_abc (Some "github")) fs0) =
    (inl mismatching_state,
     {| session := session_abc None; filesystem := fs0;
        trace := [EvFile (FExists "/cred/abc123") None;
                  EvFile (FOpenAds "/cred/abc123") None] |}).
Proof.
  apply (oauth_return_exchange_failure "box" (callback "forged")
           (world (session_abc (Some "github")) fs0) providers_abc
           (logged_out "st-github-id") "st-github-id" "/cred/abc123"
           (ad "github" "") "github-id" "https://credmon/return/github"
           "github-secret" "https://github/token" [] mismatching_state);
    vm_compute; reflexivity.
Defined.

Lemma oauth_return_changes_witness :
  return_changes "github" (session_abc (Some "github"))
    (session github_returns.2).
Proof.
  exact (oauth_return_changes "box" (callback "st-github-id")
           (world (session_abc (Some "github")) fs0) _ _ github_returns_ok).
Defined.

Lemma github_login_returns_ok :
  oauth_return "box" (callback "st-github-id") github_login.2 =
    (inr (redirect "/"), github_login_returns.2).
Proof. apply run_eta. vm_compute. reflexivity. Qed.

Lemma oauth_login_then_return_witness :
  ∃ kp (ad : ClassAd) cid ruri aurl auth_url st turl sec token provs2 p2,
    let w0 := world (session_abc None) fs0 in
    key_path (session w0) = Some kp ∧
    (get_provider_ad "github" kp w0).1 = inr ad ∧
    ad !! "ClientId" = Some cid ∧ ad !! "ReturnUrl" = Some ruri ∧
    ad !! "AuthorizationUrl" = Some aurl ∧
    authorization_url cid ruri (split_scopes <$> ad !! "Scopes") aurl
      (ad !! "Audience") = inr (auth_url, st) ∧
    redirect "https://github/authorize?client_id=github-id&state=st-github-id"
      = redirect auth_url ∧
    ad !! "ClientSecret" = Some sec ∧ ad !! "TokenUrl" = Some turl ∧
    (fetch_token cid st ruri turl (updated_url (callback "st-github-id")) sec).2
      = inr token ∧
    providers (session github_login_returns.2) = Some provs2 ∧
    provs2 !! "github" = Some p2 ∧ p_logged_in p2 = true ∧
    outgoing_provider (session github_login_returns.2) = None.
Proof.
  exact (oauth_login_then_return fmt "github" "box" (callback "st-github-id")
           (world (session_abc None) fs0) _ github_login.2 _
           github_login_returns.2 github_login_ok github_login_returns_ok).
Defined.

Lemma lost_key_file_trace :
  ∃ logs, only_logs logs ∧
    trace lost_key_file.2 =
      [] ++ [EvFile (FExists "/cred/alice") None] ++
      EvFile (FOpenAds "/cred/alice") (Some (Exn IOError "cannot open")) :: logs.
Proof.
  eexists. split; [|vm_compute; reflexivity]. repeat constructor; by eexists _, _.
Qed.

Lemma oauth_return_file_failure_witness :
  lost_key_file.1 = inl (Exn IOError "cannot open") ∧
  ∃ pre logs,
    trace lost_key_file.2 =
      pre ++ EvFile (FOpenAds "/cred/alice") (Some (Exn IOError "cannot open"))
             :: logs ∧
    only_logs logs.
Proof.
  destruct lost_key_file_trace as (logs & Hlogs & Htrace).
  apply (oauth_return_file_failure "box" (callback "st-github-id")
           (world session_lost fs_blocked) lost_key_file.1 lost_key_file.2).
  - apply surjective_pairing.
  - reflexivity.
  - rewrite Htrace. apply list_elem_of_further, list_elem_of_here.
  - discriminate.
Defined.

Lemma jwks_uri_publishes_witness :
  let W := wellknown rsa_param in
  ∃ numbers kid jwk,
    @read_public_numbers W "/etc/condor/rsa.pem" = inr numbers ∧
    @decode_utf8 W "key-1" = inr kid ∧
    JObj {["keys" := JArr [JObj
      (<["alg" := JStr "RS256"]> (<["n" := JStr "3233"]>
      (<["e" := JStr "17"]> (<["kty" := JStr "RSA"]>
      (<["use" := JStr "sig"]> {["kid" := JStr "key-1"]})))))]]}
      = JObj {["keys" := JArr [JObj jwk]]} ∧
    jwk !! "kid" = Some (JStr kid) ∧ jwk !! "use" = Some (JStr "sig") ∧
    match numbers !! "x" with
    | Some x =>
        ∃ y, numbers !! "y" = Some y ∧
          jwk !! "kty" = Some (JStr "EC") ∧
          jwk !! "crv" = Some (JStr "P-256") ∧
          jwk !! "x" = Some (JStr (@string_from_long W x)) ∧
          jwk !! "y" = Some (JStr (@string_from_long W y)) ∧
          size jwk = 6
    | None =>
        ∃ n e, numbers !! "n" = Some n ∧ numbers !! "e" = Some e ∧
          jwk !! "kty" = Some (JStr "RSA") ∧
          jwk !! "alg" = Some (JStr "RS256") ∧
          jwk !! "n" = Some (JStr (@string_from_long W n)) ∧
          jwk !! "e" = Some (JStr (@string_from_long W e)) ∧
          size jwk = 6
    end.
Proof.
  intros W. apply (@jwks_uri_publishes W). vm_compute. reflexivity.
Defined.

Lemma jwks_uri_other_key_witness :
  ∃ msg, @jwks_uri (wellknown dsa_param) = inl (Exn AttributeError msg).
Proof.
  apply (@jwks_uri_other_key (wellknown dsa_param) {["y" := 5%Z]});
    reflexivity.
Defined.

(** C1 as stated fails here.  In both runs the state of the callback is
    not the stored one.  With a descriptor that has no [ClientSecret], the
    handler fails with the [KeyError] of line 255, not with the mismatch
    error.  With an empty stored state and a library that compares the
    states that are not empty only, as [oauthlib] does, the forged callback
    is exchanged: the token request is sent and the provider is logged
    in. *)
Lemma state_mismatch_without_csrf_error :
  let no_secret :=
    oauth_return "github" (callback "forged") (world session_5ec fs_5ec) in
  let blank :=
    @oauth_return platform oauthlib_truthy_state "box" (callback "forged")
      (world session_blank fs0) in
  url_state (callback "forged") = Some "forged" ∧
  (providers session_5ec ≫= (.!! "github")) ≫= state = Some "st-github-id" ∧
  no_secret.1 = inl (Exn KeyError "ClientSecret") ∧
  (providers session_blank ≫= (.!! "github")) ≫= state = Some "" ∧
  blank.1 = inr (redirect "/") ∧
  filter (λ ev, is_net_event ev = true) (trace blank.2) =
    [EvNet {| net_method := "POST"; net_url := "https://github/token" |};
     EvNet {| net_method := "GET"; net_url := "https://github/user" |}] ∧
  p_logged_in <$> (providers (session blank.2) ≫= (.!! "github")) = Some true.
Proof. split_and!; vm_compute; reflexivity. Qed.

(** C8: the main key file is valid and has two distinct
    [(Provider, Handle)] pairs; [key] answers the index page, and the Flask
    session holds no ProviderSession at all: it is the session of before
    the request, in which ['providers'] is not set.  The dict that the
    handler has built is bound to the local name [session] of line 175 and
    dropped when the handler returns. *)
Theorem key_leaves_no_provider_session :
  let w := world empty_session fs0 in
  let run := key "abc123" w in
  valid_key_file key_file ∧ key_file_at "abc123" w key_file ∧
  remove_dups (provider_handle <$> key_file) = [("github", ""); ("box", "")] ∧
  (∃ built, run.1 = inr (built, render_template "index.html")) ∧
  session run.2 = session w ∧ providers (session run.2) = None.
Proof.
  intros w run.
  assert (Hs : session run.2 = session w).
  { by destruct (key_moves "abc123" w run.1 run.2 (surjective_pairing _)). }
  split_and!.
  - exact key_file_abc_valid.
  - exact key_file_abc_at.
  - vm_compute. reflexivity.
  - destruct key_abc_ok as (built & w' & Hkey). exists built.
    unfold run, w. by rewrite Hkey.
  - exact Hs.
  - by rewrite Hs.
Qed.

Lemma key_d1ff_ok :
  ∃ s w', key "d1ff" (world empty_session fs0) =
            (inr (s, render_template "index.html"), w').
Proof.
  destruct (key_ok "d1ff" (world empty_session fs0) key_file_d1ff
              (ad "box" "") "alice")
    as (cd & provs & l1 & l2 & _ & _ & _ & _ & Hkey).
  - vm_compute. discriminate.
  - exists "/cred". split_and!; vm_compute; reflexivity.
  - repeat constructor; eexists; vm_compute; reflexivity.
  - reflexivity.
  - vm_compute. reflexivity.
  - by eexists _, _.
Qed.

(** C9: the records of the key file have the [LocalUser] values [bob] and
    [alice], in that order; [key] answers the index page, and the Flask
    session has no local username: ['local_username'] is not set after the
    request, as before it.  The value of the last record went into the dict
    that line 175 binds to a local name. *)
Theorem key_leaves_no_local_username :
  let w := world empty_session fs0 in
  let run := key "d1ff" w in
  omap (.!! "LocalUser") key_file_d1ff = ["bob"; "alice"] ∧
  (∃ built, run.1 = inr (built, render_template "index.html")) ∧
  session run.2 = session w ∧ local_username (session run.2) = None.
Proof.
  intros w run.
  assert (Hs : session run.2 = session w).
  { by destruct (key_moves "d1ff" w run.1 run.2 (surjective_pairing _)). }
  split_and!.
  - vm_compute. reflexivity.
  - destruct key_d1ff_ok as (built & w' & Hkey). exists built.
    unfold run, w. by rewrite Hkey.
  - exact Hs.
  - by rewrite Hs.
Qed.

End Scenario.
